(** * VM-Daemon-Sys: the fleet-orchestration control plane

    A shallow embedding of [src/vm_daemon_sys] (service manager, load
    balancer, health monitor, orchestrator, and the start-up and shutdown
    order of the daemon) and the properties of its design document that
    are checked against it.

    Conventions of the embedding.
    - A Python [dict] is a [gmap]; a lookup [d[k]] that can raise
      [KeyError] returns an [outcome]; [d.get(k, v)] is [default v (d !! k)].
    - Objects that the code mutates in place (a [ServiceInstance] held in
      [services], a [ServiceMetrics] held in [metrics]) are written back
      into the map that holds them after every mutation.
    - Python [int] is [Z].  A finite Python [float] is the rational [Q]
      it denotes; [float('inf')] is the extra point [Inf] of [ext]; NaN
      and overflow are not modelled.  The float arithmetic of the moving
      averages of [record_request_end] and of the score of
      [_cognitive_aware_select] is binary64: every operation is the exact
      one followed by [round64], rounding to nearest with ties to even on
      53 significant bits, subnormal below [2^-1022].  Elsewhere floats
      are compared, or combined in expressions whose exact value is taken
      (weights, processing times, thresholds).
    - [datetime.now()] and [time.time()] are inputs: they are passed in,
      or read from a clock oracle indexed by the number of reads so far.
    - The threads that the monitoring loop spawns to run
      [restart_service] are interleaved with the loop: each step that the
      code takes under the lock of the manager is one atomic step. *)

From stdpp Require Import gmap strings list pretty.
From Stdlib Require Import QArith Lqa Qround Qpower.
From Stdlib Require Import PrimFloat SpecFloat FloatOps.

Set Warnings "-register-all,-clear-no-such-hyp,-inexact-float".

#[local] Open Scope Z_scope.

(** ** Python values and exceptions *)

Inductive exn : Type :=
  | KeyError (key : string)
  | IndexError
  | ZeroDivisionError
  | RuntimeError (msg : string).

(** [str(e)] *)
Definition exn_str (e : exn) : string :=
  match e with
  | KeyError k => String.append "'" (String.append k "'")
  | IndexError => "list index out of range"
  | ZeroDivisionError => "float division by zero"
  | RuntimeError msg => msg
  end.

Inductive outcome (A : Type) : Type :=
  | Ok (a : A)
  | Raise (e : exn).
Arguments Ok {A} a.
Arguments Raise {A} e.

(** The part of [Any] that the control plane stores in result and
    context mappings. *)
Inductive PyValue : Type :=
  | PyNone
  | PyBool (b : bool)
  | PyInt (z : Z)
  | PyFloat (q : Q)
  | PyStr (s : string)
  | PyList (l : list PyValue)
  | PyDict (kvs : list (string * PyValue)).

(** A [float] extended with [float('inf')]. *)
Inductive ext : Type :=
  | Fin (q : Q)
  | Inf.

(** [a < b] on extended floats. *)
Definition ext_ltb (a b : ext) : bool :=
  match a, b with
  | Fin x, Fin y => negb (Qle_bool y x)
  | Fin _, Inf => true
  | Inf, _ => false
  end.

(** [a <= b] on extended floats, for specifications. *)
Definition ext_le (a b : ext) : Prop :=
  match a, b with
  | Fin x, Fin y => (x <= y)%Q
  | _, Inf => True
  | Inf, Fin _ => False
  end.

Definition Qltb (x y : Q) : bool := negb (Qle_bool y x).

(** [max(a, b)] on floats: the first argument unless the second is
    strictly greater. *)
Definition Qpy_max (a b : Q) : Q := if Qltb a b then b else a.

(** [int(x)] on a float: truncation toward zero. *)
Definition Qtrunc (x : Q) : Z := Z.quot (Qnum x) (Z.pos (Qden x)).

(** ** Binary64 arithmetic *)

(** [floor(log2 q)] of a positive rational. *)
Definition Qlog2 (q : Q) : Z :=
  let e := Z.log2 (Qnum q) - Z.log2 (Z.pos (Qden q)) in
  if Qle_bool (2 ^ e) q then e else e - 1.

(** The nearest integer, ties to even. *)
Definition Qrne (q : Q) : Z :=
  let f := Qfloor q in
  match (q - inject_Z f ?= 1 # 2)%Q with
  | Lt => f
  | Gt => f + 1
  | Eq => if Z.even f then f else f + 1
  end.

(** The exponent of the unit in the last place of the binary64 numbers
    around a positive rational: 53 significant bits, and never below
    [2^-1074], the smallest subnormal. *)
Definition quantum (a : Q) : Z := Z.max (Qlog2 a - 52) (-1074).

Definition round64_pos (a : Q) : Q :=
  (inject_Z (Qrne (a / 2 ^ quantum a)) * 2 ^ quantum a)%Q.

(** The binary64 number nearest to a rational, ties to even; a result
    beyond the largest finite float, which Python gives as [inf], is
    outside the model. *)
Definition round64 (q : Q) : Q :=
  match Qnum q with
  | Z0 => 0%Q
  | Z.pos _ => round64_pos q
  | Z.neg _ => (- round64_pos (- q))%Q
  end.

(** [x + y], [x - y], [x * y] and [x / y] on floats. *)
Definition fadd (x y : Q) : Q := round64 (x + y).
Definition fsub (x y : Q) : Q := round64 (x - y).
Definition fmul (x y : Q) : Q := round64 (x * y).
Definition fdiv (x y : Q) : Q := round64 (x / y).

(** The rational that a finite hardware float denotes. *)
Definition Q_of_float (f : float) : Q :=
  match Prim2SF f with
  | S754_finite s m e => ((if s then -1 else 1) * inject_Z (Z.pos m) * 2 ^ e)%Q
  | _ => 0%Q
  end.


(** [l[i]] on a list, negative indices counting from the end. *)
Definition py_index {A : Type} (l : list A) (i : Z) : outcome A :=
  let j := if 0 <=? i then i else Z.of_nat (length l) + i in
  if 0 <=? j then
    match l !! Z.to_nat j with
    | Some x => Ok x
    | None => Raise IndexError
    end
  else Raise IndexError.

(** A point in time ([datetime], [time.time()]), in seconds. *)
Definition datetime : Type := Q.

(** ** service_manager.py *)

Module service_manager.

Inductive ServiceType : Type :=
  | RELEVANCE
  | WISDOM
  | RATIONALITY
  | PHENOMENOLOGY
  | MEANING_MAKING
  | INTEGRATION
  | SILICON_SAGE.

#[global] Instance ServiceType_eq_dec : EqDecision ServiceType.
Proof. solve_decision. Defined.

Definition ServiceType_to_nat (t : ServiceType) : nat :=
  match t with
  | RELEVANCE => 0 | WISDOM => 1 | RATIONALITY => 2 | PHENOMENOLOGY => 3
  | MEANING_MAKING => 4 | INTEGRATION => 5 | SILICON_SAGE => 6
  end%nat.

Definition ServiceType_of_nat (n : nat) : ServiceType :=
  match n with
  | 0 => RELEVANCE | 1 => WISDOM | 2 => RATIONALITY | 3 => PHENOMENOLOGY
  | 4 => MEANING_MAKING | 5 => INTEGRATION | _ => SILICON_SAGE
  end%nat.

#[global] Instance ServiceType_countable : Countable ServiceType.
Proof.
  apply (inj_countable' ServiceType_to_nat ServiceType_of_nat).
  intros []; reflexivity.
Defined.

(** [list(ServiceType)], in declaration order. *)
Definition all_service_types : list ServiceType :=
  [RELEVANCE; WISDOM; RATIONALITY; PHENOMENOLOGY; MEANING_MAKING;
   INTEGRATION; SILICON_SAGE].

(** [service_type.value] *)
Definition ServiceType_value (t : ServiceType) : string :=
  match t with
  | RELEVANCE => "relevance"
  | WISDOM => "wisdom"
  | RATIONALITY => "rationality"
  | PHENOMENOLOGY => "phenomenology"
  | MEANING_MAKING => "meaning_making"
  | INTEGRATION => "integration"
  | SILICON_SAGE => "silicon_sage"
  end.

Inductive ServiceStatus : Type :=
  | STOPPED
  | STARTING
  | RUNNING
  | STOPPING
  | ERROR
  | MAINTENANCE.

#[global] Instance ServiceStatus_eq_dec : EqDecision ServiceStatus.
Proof. solve_decision. Defined.

Record ServiceConfig : Type := mkServiceConfig {
  service_type : ServiceType;
  instance_id : string;
  port : Z;
  host : string;
  workers : Z;
  memory_limit : Z;
  cpu_limit : Q;
  environment : gmap string string;
  dependencies : list ServiceType;
  auto_restart : bool;
  health_check_interval : Z;
  startup_timeout : Z;
  shutdown_timeout : Z
}.

(** The dataclass defaults of [ServiceConfig]; the identifier, which
    defaults to a fresh uuid4, is an argument. *)
Definition default_config (ty : ServiceType) (id : string) : ServiceConfig :=
  {| service_type := ty; instance_id := id; port := 8080;
     host := "localhost"; workers := 1; memory_limit := 1024;
     cpu_limit := 1%Q; environment := ∅; dependencies := [];
     auto_restart := true; health_check_interval := 30;
     startup_timeout := 60; shutdown_timeout := 30 |}.

Record ServiceInstance : Type := mkServiceInstance {
  config : ServiceConfig;
  status : ServiceStatus;
  process_id : option Z;
  start_time : option datetime;
  last_health_check : option datetime;
  health_status : string;
  error_count : Z;
  restart_count : Z;
  metrics : gmap string PyValue
}.

(** [ServiceInstance(config=config)] *)
Definition new_instance (cfg : ServiceConfig) : ServiceInstance :=
  {| config := cfg; status := STOPPED; process_id := None;
     start_time := None; last_health_check := None;
     health_status := "unknown"; error_count := 0; restart_count := 0;
     metrics := ∅ |}.

(** Field assignments [instance.f = v]. *)
Definition set_status (s : ServiceStatus) (i : ServiceInstance) : ServiceInstance :=
  {| config := config i; status := s; process_id := process_id i;
     start_time := start_time i; last_health_check := last_health_check i;
     health_status := health_status i; error_count := error_count i;
     restart_count := restart_count i; metrics := metrics i |}.

Definition set_process_id (p : option Z) (i : ServiceInstance) : ServiceInstance :=
  {| config := config i; status := status i; process_id := p;
     start_time := start_time i; last_health_check := last_health_check i;
     health_status := health_status i; error_count := error_count i;
     restart_count := restart_count i; metrics := metrics i |}.

Definition set_start_time (t : option datetime) (i : ServiceInstance) : ServiceInstance :=
  {| config := config i; status := status i; process_id := process_id i;
     start_time := t; last_health_check := last_health_check i;
     health_status := health_status i; error_count := error_count i;
     restart_count := restart_count i; metrics := metrics i |}.

Definition set_last_health_check (t : option datetime) (i : ServiceInstance) : ServiceInstance :=
  {| config := config i; status := status i; process_id := process_id i;
     start_time := start_time i; last_health_check := t;
     health_status := health_status i; error_count := error_count i;
     restart_count := restart_count i; metrics := metrics i |}.

Definition set_health_status (h : string) (i : ServiceInstance) : ServiceInstance :=
  {| config := config i; status := status i; process_id := process_id i;
     start_time := start_time i; last_health_check := last_health_check i;
     health_status := h; error_count := error_count i;
     restart_count := restart_count i; metrics := metrics i |}.

Definition set_error_count (n : Z) (i : ServiceInstance) : ServiceInstance :=
  {| config := config i; status := status i; process_id := process_id i;
     start_time := start_time i; last_health_check := last_health_check i;
     health_status := health_status i; error_count := n;
     restart_count := restart_count i; metrics := metrics i |}.

Definition set_restart_count (n : Z) (i : ServiceInstance) : ServiceInstance :=
  {| config := config i; status := status i; process_id := process_id i;
     start_time := start_time i; last_health_check := last_health_check i;
     health_status := health_status i; error_count := error_count i;
     restart_count := n; metrics := metrics i |}.

(** The state of a [ServiceManager].  The registered status callbacks are
    external observers: [notified] is the sequence of
    [(instance_id, status)] pairs handed to them so far, oldest first. *)
Record ServiceManager : Type := mkServiceManager {
  services : gmap string ServiceInstance;
  service_registry : gmap ServiceType (list string);
  notified : list (string * ServiceStatus);
  running : bool
}.

(** [ServiceManager()] *)
Definition new_service_manager : ServiceManager :=
  {| services := ∅;
     service_registry := list_to_map ((λ t, (t, [])) <$> all_service_types);
     notified := [];
     running := false |}.

Definition set_services (s : gmap string ServiceInstance) (sm : ServiceManager) : ServiceManager :=
  {| services := s; service_registry := service_registry sm;
     notified := notified sm; running := running sm |}.

Definition set_service_registry (r : gmap ServiceType (list string)) (sm : ServiceManager) : ServiceManager :=
  {| services := services sm; service_registry := r;
     notified := notified sm; running := running sm |}.

(** [_notify_status_change]: every callback is called once; a callback
    that raises is logged and skipped. *)
Definition _notify_status_change (id : string) (s : ServiceStatus) (sm : ServiceManager) : ServiceManager :=
  {| services := services sm; service_registry := service_registry sm;
     notified := notified sm ++ [(id, s)]; running := running sm |}.

(** Write a mutated instance object back into [services]. *)
Definition store (id : string) (i : ServiceInstance) (sm : ServiceManager) : ServiceManager :=
  set_services (<[id := i]> (services sm)) sm.

(** [register_service]: the instance is stored under its identifier, then
    the identifier is appended to the list of its category;
    [service_registry[t]] raises [KeyError] for a missing category, after
    the instance was stored. *)
Definition register_service (cfg : ServiceConfig) (sm : ServiceManager)
    : outcome string * ServiceManager :=
  let instance := new_instance cfg in
  let id := instance_id cfg in
  let sm := set_services (<[id := instance]> (services sm)) sm in
  match service_registry sm !! service_type cfg with
  | None => (Raise (KeyError (ServiceType_value (service_type cfg))), sm)
  | Some ids =>
      (Ok id,
       set_service_registry
         (<[service_type cfg := ids ++ [id]]> (service_registry sm)) sm)
  end.

(** [get_services_by_type] *)
Definition get_services_by_type (ty : ServiceType) (sm : ServiceManager) : list ServiceInstance :=
  let instance_ids := default [] (service_registry sm !! ty) in
  omap (λ id, services sm !! id) instance_ids.

(** [get_healthy_services] *)
Definition is_healthy_running (i : ServiceInstance) : bool :=
  bool_decide (status i = RUNNING) && bool_decide (health_status i = "healthy").

Definition get_healthy_services (ty : ServiceType) (sm : ServiceManager) : list ServiceInstance :=
  List.filter is_healthy_running (get_services_by_type ty sm).

(** [_check_dependencies]: the loop returns [False] at the first
    prerequisite category without a healthy running instance. *)
Fixpoint check_dependencies_loop (deps : list ServiceType) (sm : ServiceManager) : bool :=
  match deps with
  | [] => true
  | dep_type :: rest =>
      match get_healthy_services dep_type sm with
      | [] => false
      | _ :: _ => check_dependencies_loop rest sm
      end
  end.

Definition _check_dependencies (cfg : ServiceConfig) (sm : ServiceManager) : bool :=
  check_dependencies_loop (dependencies cfg) sm.

(** The body of the loop of [_monitor_services] for one instance, with
    [is_healthy] the answer of [_health_check] and [now] the value of
    [datetime.now()].  The second component tells whether a thread running
    [restart_service] was spawned for the instance. *)
Definition monitor_instance (now : datetime) (is_healthy : bool) (id : string)
    (sm : ServiceManager) : ServiceManager * bool :=
  match services sm !! id with
  | None => (sm, false)
  | Some instance =>
      if bool_decide (status instance = RUNNING) then
        if negb is_healthy then
          let instance :=
            set_health_status "unhealthy"
              (set_error_count (error_count instance + 1) instance) in
          let restart :=
            auto_restart (config instance) && (error_count instance <? 5) in
          (store id (set_last_health_check (Some now) instance) sm, restart)
        else
          let instance :=
            set_error_count (Z.max 0 (error_count instance - 1))
              (set_health_status "healthy" instance) in
          (store id (set_last_health_check (Some now) instance) sm, false)
      else (sm, false)
  end.

Section Lifecycle.

(** Python's [hash] on strings, which is salted per process. *)
Variable hash : string → Z.

(** [_start_service_process]: the simulation sets a fake process id. *)
Definition _start_service_process (i : ServiceInstance) : outcome bool * ServiceInstance :=
  (Ok true,
   set_process_id (Some (12345 + hash (instance_id (config i)) `mod` 10000)) i).

(** [_stop_service_process] *)
Definition _stop_service_process (i : ServiceInstance) : outcome bool * ServiceInstance :=
  (Ok true, i).

(** [start_service], with [now] the value of [datetime.now()]. *)
Definition start_service (now : datetime) (id : string) (sm : ServiceManager)
    : bool * ServiceManager :=
  match services sm !! id with
  | None => (false, sm)
  | Some instance =>
      if negb (bool_decide (status instance = STOPPED)) then (false, sm)
      else if negb (_check_dependencies (config instance) sm) then (false, sm)
      else
        let instance := set_start_time (Some now) (set_status STARTING instance) in
        let sm := _notify_status_change id STARTING (store id instance sm) in
        match _start_service_process instance with
        | (Ok success, instance) =>
            let instance :=
              if success then set_status RUNNING instance
              else set_error_count (error_count instance + 1)
                     (set_status ERROR instance) in
            (success, _notify_status_change id (status instance) (store id instance sm))
        | (Raise _, instance) =>
            let instance :=
              set_error_count (error_count instance + 1)
                (set_status ERROR instance) in
            (false, _notify_status_change id ERROR (store id instance sm))
        end
  end.

(** [stop_service] *)
Definition stop_service (id : string) (sm : ServiceManager) : bool * ServiceManager :=
  match services sm !! id with
  | None => (false, sm)
  | Some instance =>
      if negb (bool_decide (status instance = RUNNING)
               || bool_decide (status instance = STARTING)) then (false, sm)
      else
        let instance := set_status STOPPING instance in
        let sm := _notify_status_change id STOPPING (store id instance sm) in
        match _stop_service_process instance with
        | (Ok success, instance) =>
            let instance :=
              if success then set_process_id None (set_status STOPPED instance)
              else set_error_count (error_count instance + 1)
                     (set_status ERROR instance) in
            (success, _notify_status_change id (status instance) (store id instance sm))
        | (Raise _, instance) =>
            let instance :=
              set_error_count (error_count instance + 1)
                (set_status ERROR instance) in
            (false, _notify_status_change id ERROR (store id instance sm))
        end
  end.

(** [restart_service]: a stop followed, when it succeeded, by a start;
    the restart counter moves only when both succeeded. *)
Definition restart_service (now : datetime) (id : string) (sm : ServiceManager)
    : outcome bool * ServiceManager :=
  match stop_service id sm with
  | (true, sm) =>
      match start_service now id sm with
      | (true, sm) =>
          match services sm !! id with
          | Some instance =>
              (Ok true, store id (set_restart_count (restart_count instance + 1) instance) sm)
          | None => (Raise (KeyError id), sm)
          end
      | (false, sm) => (Ok false, sm)
      end
  | (false, sm) => (Ok false, sm)
  end.

(** [list.remove(x)]: the first occurrence is dropped. *)
Fixpoint list_remove (x : string) (l : list string) : list string :=
  match l with
  | [] => []
  | y :: rest => if bool_decide (x = y) then rest else y :: list_remove x rest
  end.

(** [unregister_service] *)
Definition unregister_service (id : string) (sm : ServiceManager)
    : outcome bool * ServiceManager :=
  match services sm !! id with
  | None => (Ok false, sm)
  | Some instance =>
      let sm :=
        if bool_decide (status instance = RUNNING)
           || bool_decide (status instance = STARTING)
        then (stop_service id sm).2 else sm in
      let ty := service_type (config instance) in
      match service_registry sm !! ty with
      | None => (Raise (KeyError (ServiceType_value ty)), sm)
      | Some ids =>
          let sm :=
            if bool_decide (id ∈ ids)
            then set_service_registry (<[ty := list_remove id ids]> (service_registry sm)) sm
            else sm in
          (Ok true, set_services (delete id (services sm)) sm)
      end
  end.

End Lifecycle.

End service_manager.

(** ** load_balancer.py *)

Module load_balancer.

Module SM := service_manager.

Inductive LoadBalancingStrategy : Type :=
  | ROUND_ROBIN
  | WEIGHTED_ROUND_ROBIN
  | LEAST_CONNECTIONS
  | LEAST_RESPONSE_TIME
  | COGNITIVE_AWARE.

Record ServiceMetrics : Type := mkServiceMetrics {
  instance_id : string;
  current_connections : Z;
  total_requests : Z;
  average_response_time : Q;
  cpu_usage : Q;
  memory_usage : Q;
  cognitive_load : Q;
  error_rate : Q;
  last_updated : Q
}.

(** [ServiceMetrics(instance_id=instance_id)] *)
Definition new_metrics (id : string) : ServiceMetrics :=
  {| instance_id := id; current_connections := 0; total_requests := 0;
     average_response_time := 0; cpu_usage := 0; memory_usage := 0;
     cognitive_load := 0; error_rate := 0; last_updated := 0 |}.

(** The state of a [LoadBalancer]; the manager it refers to is an
    argument of the operations that read it. *)
Record LoadBalancer : Type := mkLoadBalancer {
  strategy : LoadBalancingStrategy;
  metrics : gmap string ServiceMetrics;
  round_robin_counters : gmap SM.ServiceType Z;
  weights : gmap string Q
}.

(** [LoadBalancer(strategy)] *)
Definition new_load_balancer (s : LoadBalancingStrategy) : LoadBalancer :=
  {| strategy := s; metrics := ∅;
     round_robin_counters := list_to_map ((λ t, (t, 0)) <$> SM.all_service_types);
     weights := ∅ |}.

Definition set_metrics (m : gmap string ServiceMetrics) (lb : LoadBalancer) : LoadBalancer :=
  {| strategy := strategy lb; metrics := m;
     round_robin_counters := round_robin_counters lb; weights := weights lb |}.

Definition set_round_robin_counters (c : gmap SM.ServiceType Z) (lb : LoadBalancer) : LoadBalancer :=
  {| strategy := strategy lb; metrics := metrics lb;
     round_robin_counters := c; weights := weights lb |}.

Definition set_weights (w : gmap string Q) (lb : LoadBalancer) : LoadBalancer :=
  {| strategy := strategy lb; metrics := metrics lb;
     round_robin_counters := round_robin_counters lb; weights := w |}.

(** The keys of the [metrics] dictionary given to
    [update_service_metrics]; an absent key is [None]. *)
Record MetricsUpdate : Type := mkMetricsUpdate {
  upd_connections : option Z;
  upd_total_requests : option Z;
  upd_avg_response_time : option Q;
  upd_cpu_usage : option Q;
  upd_memory_usage : option Q;
  upd_cognitive_load : option Q;
  upd_error_rate : option Q
}.

(** The keys of the request context that the orchestrator hands to the
    balancer; an absent key is [None]. *)
Record RequestContext : Type := mkRequestContext {
  ctx_complexity : option Q;
  ctx_priority : option Z;
  ctx_request_type : option string
}.

(** [update_service_metrics], with [current_time] the value of
    [time.time()]. *)
Definition update_service_metrics (current_time : Q) (id : string)
    (u : MetricsUpdate) (lb : LoadBalancer) : LoadBalancer :=
  let service_metrics := default (new_metrics id) (metrics lb !! id) in
  let service_metrics :=
    {| instance_id := instance_id service_metrics;
       current_connections := default 0 (upd_connections u);
       total_requests := default 0 (upd_total_requests u);
       average_response_time := default 0%Q (upd_avg_response_time u);
       cpu_usage := default 0%Q (upd_cpu_usage u);
       memory_usage := default 0%Q (upd_memory_usage u);
       cognitive_load := default 0%Q (upd_cognitive_load u);
       error_rate := default 0%Q (upd_error_rate u);
       last_updated := current_time |} in
  set_metrics (<[id := service_metrics]> (metrics lb)) lb.

(** [record_request_start] *)
Definition record_request_start (id : string) (lb : LoadBalancer) : LoadBalancer :=
  let m := default (new_metrics id) (metrics lb !! id) in
  let m :=
    {| instance_id := instance_id m;
       current_connections := current_connections m + 1;
       total_requests := total_requests m;
       average_response_time := average_response_time m;
       cpu_usage := cpu_usage m; memory_usage := memory_usage m;
       cognitive_load := cognitive_load m; error_rate := error_rate m;
       last_updated := last_updated m |} in
  set_metrics (<[id := m]> (metrics lb)) lb.

(** The smoothing factor of [record_request_end]: the float of the
    literal [0.1]. *)
Definition alpha : Q := round64 0.1.

(** [record_request_end] *)
Definition record_request_end (id : string) (response_time : Q) (success : bool)
    (lb : LoadBalancer) : LoadBalancer :=
  match metrics lb !! id with
  | None => lb
  | Some m =>
      let m :=
        {| instance_id := instance_id m;
           current_connections := Z.max 0 (current_connections m - 1);
           total_requests := total_requests m + 1;
           average_response_time :=
             fadd (fmul alpha response_time)
                  (fmul (fsub 1 alpha) (average_response_time m));
           cpu_usage := cpu_usage m; memory_usage := memory_usage m;
           cognitive_load := cognitive_load m;
           error_rate :=
             if negb success
             then fadd (fmul alpha 1.0) (fmul (fsub 1 alpha) (error_rate m))
             else fmul (fsub 1 alpha) (error_rate m);
           last_updated := last_updated m |} in
      set_metrics (<[id := m]> (metrics lb)) lb
  end.

(** [_calculate_instance_weight] *)
Definition _calculate_instance_weight (m : ServiceMetrics) : Q :=
  let base_weight := 1.0%Q in
  let connection_penalty := (inject_Z (current_connections m) * 0.1)%Q in
  let response_time_penalty := (average_response_time m / 1000.0)%Q in
  let error_penalty := (error_rate m * 5.0)%Q in
  let cognitive_penalty := (cognitive_load m * 0.5)%Q in
  Qpy_max 0.1 (base_weight - connection_penalty - response_time_penalty
            - error_penalty - cognitive_penalty)%Q.

(** [update_service_weights], with [current_time] the value of
    [time.time()]: every entry that is not stale gets its weight
    recomputed, the other weights are kept. *)
Definition update_service_weights (current_time : Q) (lb : LoadBalancer) : LoadBalancer :=
  let fresh :=
    filter (λ kv, Qltb 300 (current_time - last_updated kv.2) = false) (metrics lb) in
  set_weights ((_calculate_instance_weight <$> fresh) ∪ weights lb) lb.

(** [_round_robin_select] *)
Definition _round_robin_select (ty : SM.ServiceType) (instances : list SM.ServiceInstance)
    (lb : LoadBalancer) : outcome string * LoadBalancer :=
  match round_robin_counters lb !! ty with
  | None => (Raise (KeyError (SM.ServiceType_value ty)), lb)
  | Some counter =>
      let len := Z.of_nat (length instances) in
      if len =? 0 then (Raise ZeroDivisionError, lb)
      else
        match py_index instances (counter `mod` len) with
        | Raise e => (Raise e, lb)
        | Ok selected =>
            (Ok (SM.instance_id (SM.config selected)),
             set_round_robin_counters
               (<[ty := (counter + 1) `mod` len]> (round_robin_counters lb)) lb)
        end
  end.

(** [_weighted_round_robin_select] *)
Definition weighted_instances (w : gmap string Q) (instances : list SM.ServiceInstance)
    : list SM.ServiceInstance :=
  flat_map (λ instance,
    let weight := default 1.0%Q (w !! SM.instance_id (SM.config instance)) in
    let count := Z.max 1 (Qtrunc (weight * 10)) in
    replicate (Z.to_nat count) instance) instances.

Definition _weighted_round_robin_select (ty : SM.ServiceType)
    (instances : list SM.ServiceInstance) (lb : LoadBalancer)
    : outcome string * LoadBalancer :=
  let weighted := weighted_instances (weights lb) instances in
  match weighted with
  | [] =>
      match py_index instances 0 with
      | Ok i => (Ok (SM.instance_id (SM.config i)), lb)
      | Raise e => (Raise e, lb)
      end
  | _ :: _ =>
      match round_robin_counters lb !! ty with
      | None => (Raise (KeyError (SM.ServiceType_value ty)), lb)
      | Some counter =>
          let len := Z.of_nat (length weighted) in
          match py_index weighted (counter `mod` len) with
          | Raise e => (Raise e, lb)
          | Ok selected =>
              (Ok (SM.instance_id (SM.config selected)),
               set_round_robin_counters
                 (<[ty := (counter + 1) `mod` len]> (round_robin_counters lb)) lb)
          end
      end
  end.

(** The common shape of the three minimising strategies: a scan that
    keeps the first instance whose score is strictly below the best score
    seen so far, starting from [float('inf')]. *)
Fixpoint select_min_loop (score : SM.ServiceInstance → ext)
    (instances : list SM.ServiceInstance)
    (best_instance : option SM.ServiceInstance) (best_score : ext)
    : option SM.ServiceInstance :=
  match instances with
  | [] => best_instance
  | instance :: rest =>
      if ext_ltb (score instance) best_score
      then select_min_loop score rest (Some instance) (score instance)
      else select_min_loop score rest best_instance best_score
  end.

(** [return best_instance.config.instance_id if best_instance else
    instances[0].config.instance_id] *)
Definition best_or_first (best_instance : option SM.ServiceInstance)
    (instances : list SM.ServiceInstance) : outcome string :=
  match best_instance with
  | Some b => Ok (SM.instance_id (SM.config b))
  | None =>
      match py_index instances 0 with
      | Ok i => Ok (SM.instance_id (SM.config i))
      | Raise e => Raise e
      end
  end.

(** [_least_connections_select]: the body of the loop up to the test. *)
Definition connections_of (m : gmap string ServiceMetrics) (instance : SM.ServiceInstance) : ext :=
  match m !! SM.instance_id (SM.config instance) with
  | Some e => Fin (inject_Z (current_connections e))
  | None => Fin (inject_Z 0)
  end.

Definition _least_connections_select (instances : list SM.ServiceInstance)
    (lb : LoadBalancer) : outcome string :=
  best_or_first (select_min_loop (connections_of (metrics lb)) instances None Inf)
    instances.

(** [_least_response_time_select]: the body of the loop up to the test. *)
Definition response_time_of (m : gmap string ServiceMetrics) (instance : SM.ServiceInstance) : ext :=
  match m !! SM.instance_id (SM.config instance) with
  | Some e =>
      let response_time := average_response_time e in
      if Qeq_bool response_time 0 then Fin 100.0 else Fin response_time
  | None => Inf
  end.

Definition _least_response_time_select (instances : list SM.ServiceInstance)
    (lb : LoadBalancer) : outcome string :=
  best_or_first (select_min_loop (response_time_of (metrics lb)) instances None Inf)
    instances.

(** [_cognitive_aware_select] *)
Definition request_complexity_of (request_context : option RequestContext) : Q :=
  match request_context with
  | Some c => default 1.0%Q (ctx_complexity c)
  | None => 1.0%Q
  end.

Definition cognitive_score (m : gmap string ServiceMetrics) (request_complexity : Q)
    (instance : SM.ServiceInstance) : ext :=
  match m !! SM.instance_id (SM.config instance) with
  | None => Fin request_complexity
  | Some e =>
      let connection_factor := fdiv (round64 (inject_Z (current_connections e))) 10.0 in
      let response_time_factor := fdiv (average_response_time e) 1000.0 in
      let cognitive_load_factor := cognitive_load e in
      let error_factor := fmul (error_rate e) 10.0 in
      Fin (fmul
             (fadd
                (fadd
                   (fadd (fmul (round64 0.3) connection_factor)
                         (fmul (round64 0.3) response_time_factor))
                   (fmul (round64 0.2) cognitive_load_factor))
                (fmul (round64 0.2) error_factor))
             request_complexity)
  end.

Definition _cognitive_aware_select (instances : list SM.ServiceInstance)
    (request_context : option RequestContext) (lb : LoadBalancer) : outcome string :=
  let request_complexity := request_complexity_of request_context in
  best_or_first
    (select_min_loop (cognitive_score (metrics lb) request_complexity) instances None Inf)
    instances.

(** [select_service_instance]; [sm] is [self.service_manager]. *)
Definition select_service_instance (sm : option SM.ServiceManager)
    (ty : SM.ServiceType) (request_context : option RequestContext)
    (lb : LoadBalancer) : outcome (option string) * LoadBalancer :=
  match sm with
  | None => (Ok None, lb)
  | Some sm =>
      let healthy_instances := SM.get_healthy_services ty sm in
      match healthy_instances with
      | [] => (Ok None, lb)
      | [only] => (Ok (Some (SM.instance_id (SM.config only))), lb)
      | _ =>
          let lift (r : outcome string) : outcome (option string) :=
            match r with Ok id => Ok (Some id) | Raise e => Raise e end in
          match strategy lb with
          | ROUND_ROBIN =>
              let '(r, lb) := _round_robin_select ty healthy_instances lb in
              (lift r, lb)
          | WEIGHTED_ROUND_ROBIN =>
              let '(r, lb) := _weighted_round_robin_select ty healthy_instances lb in
              (lift r, lb)
          | LEAST_CONNECTIONS =>
              (lift (_least_connections_select healthy_instances lb), lb)
          | LEAST_RESPONSE_TIME =>
              (lift (_least_response_time_select healthy_instances lb), lb)
          | COGNITIVE_AWARE =>
              (lift (_cognitive_aware_select healthy_instances request_context lb), lb)
          end
      end
  end.

End load_balancer.

(** ** health_monitor.py *)

Module health_monitor.

Module SM := service_manager.

Inductive HealthStatus : Type :=
  | HEALTHY
  | WARNING
  | CRITICAL
  | UNKNOWN.

#[global] Instance HealthStatus_eq_dec : EqDecision HealthStatus.
Proof. solve_decision. Defined.

Record HealthMetric : Type := mkHealthMetric {
  name : string;
  value : Q;
  threshold_warning : Q;
  threshold_critical : Q;
  unit_ : string;
  description : string
}.

Record HealthReport : Type := mkHealthReport {
  status : HealthStatus;
  metrics : list HealthMetric;
  issues : list string;
  recommendations : list string;
  timestamp : datetime
}.

(** One entry of [self.thresholds]: [{'warning': w, 'critical': c}]. *)
Record Threshold : Type := mkThreshold {
  warning : Q;
  critical : Q
}.

(** The thresholds set by [__init__]. *)
Definition default_thresholds : gmap string Threshold :=
  list_to_map
    [("cpu_usage", {| warning := 70.0; critical := 90.0 |});
     ("memory_usage", {| warning := 80.0; critical := 95.0 |});
     ("response_time", {| warning := 1000.0; critical := 5000.0 |});
     ("error_rate", {| warning := 0.05; critical := 0.1 |});
     ("connection_count", {| warning := 100; critical := 200 |});
     ("cognitive_load", {| warning := 0.8; critical := 0.95 |})].

(** The state of a [HealthMonitor]; [alerts] is the sequence of alerts
    handed to the registered callbacks so far. *)
Record HealthMonitor : Type := mkHealthMonitor {
  check_interval : Z;
  running : bool;
  service_reports : gmap string HealthReport;
  system_report : option HealthReport;
  thresholds : gmap string Threshold;
  alerts : list (string * HealthStatus * HealthReport)
}.

(** [HealthMonitor(service_manager, check_interval)] *)
Definition new_health_monitor (interval : Z) : HealthMonitor :=
  {| check_interval := interval; running := false; service_reports := ∅;
     system_report := None; thresholds := default_thresholds; alerts := [] |}.

(** [set_threshold] *)
Definition set_threshold (metric_name : string) (w c : Q) (hm : HealthMonitor) : HealthMonitor :=
  {| check_interval := check_interval hm; running := running hm;
     service_reports := service_reports hm; system_report := system_report hm;
     thresholds := <[metric_name := {| warning := w; critical := c |}]> (thresholds hm);
     alerts := alerts hm |}.

(** [_evaluate_metric_status] *)
Definition _evaluate_metric_status (metric : HealthMetric) : HealthStatus :=
  if Qle_bool (threshold_critical metric) (value metric) then CRITICAL
  else if Qle_bool (threshold_warning metric) (value metric) then WARNING
  else HEALTHY.

(** The local variables of [_check_service_health]. *)
Record check_state : Type := mkCheckState {
  cs_metrics : list HealthMetric;
  cs_issues : list string;
  cs_recommendations : list string;
  cs_overall_status : HealthStatus
}.

(** What distinguishes the five blocks of [_check_service_health]: the
    metric and threshold name, the key read from the snapshot, unit and
    description, the two issue texts with their number format, and the
    recommendation. *)
Record check_spec : Type := mkCheckSpec {
  ck_name : string;
  ck_key : string;
  ck_unit : string;
  ck_description : string;
  ck_high : string;
  ck_elevated : string;
  ck_format : string;
  ck_suffix : string;
  ck_recommendation : string
}.

Definition cpu_check : check_spec :=
  {| ck_name := "cpu_usage"; ck_key := "cpu_usage"; ck_unit := "%";
     ck_description := "CPU utilization";
     ck_high := "High CPU usage: "; ck_elevated := "Elevated CPU usage: ";
     ck_format := ".1f"; ck_suffix := "%";
     ck_recommendation := "Consider scaling up or optimizing CPU-intensive operations" |}.

Definition memory_check : check_spec :=
  {| ck_name := "memory_usage"; ck_key := "memory_usage"; ck_unit := "%";
     ck_description := "Memory utilization";
     ck_high := "High memory usage: "; ck_elevated := "Elevated memory usage: ";
     ck_format := ".1f"; ck_suffix := "%";
     ck_recommendation := "Consider increasing memory allocation or optimizing memory usage" |}.

Definition response_time_check : check_spec :=
  {| ck_name := "response_time"; ck_key := "avg_response_time"; ck_unit := "ms";
     ck_description := "Average response time";
     ck_high := "High response time: "; ck_elevated := "Elevated response time: ";
     ck_format := ".1f"; ck_suffix := "ms";
     ck_recommendation := "Investigate performance bottlenecks or scale horizontally" |}.

Definition error_rate_check : check_spec :=
  {| ck_name := "error_rate"; ck_key := "error_rate"; ck_unit := "%";
     ck_description := "Error rate";
     ck_high := "High error rate: "; ck_elevated := "Elevated error rate: ";
     ck_format := ".2%"; ck_suffix := "";
     ck_recommendation := "Investigate error causes and implement fixes" |}.

Definition cognitive_load_check : check_spec :=
  {| ck_name := "cognitive_load"; ck_key := "cognitive_load"; ck_unit := "";
     ck_description := "Cognitive processing load";
     ck_high := "High cognitive load: "; ck_elevated := "Elevated cognitive load: ";
     ck_format := ".2f"; ck_suffix := "";
     ck_recommendation := "Reduce cognitive complexity or add more processing capacity" |}.

(** The five metrics, in the order in which the code evaluates them. *)
Definition evaluated_checks : list check_spec :=
  [cpu_check; memory_check; response_time_check; error_rate_check;
   cognitive_load_check].

Section HealthChecks.

(** [format(x, spec)] on floats, as used by the f-strings. *)
Variable format_float : string → Q → string.

(** One block of [_check_service_health]: build the metric (a missing
    threshold raises [KeyError] before anything is appended), append it,
    evaluate it, and fold its status into the overall status. *)
Definition check_metric (th : gmap string Threshold) (service_metrics : gmap string Q)
    (ck : check_spec) (st : check_state) : outcome check_state :=
  match th !! ck_name ck with
  | None => Raise (KeyError (ck_name ck))
  | Some t =>
      let metric :=
        {| name := ck_name ck;
           value := default 0%Q (service_metrics !! ck_key ck);
           threshold_warning := warning t;
           threshold_critical := critical t;
           unit_ := ck_unit ck;
           description := ck_description ck |} in
      let metrics := cs_metrics st ++ [metric] in
      let shown := String.append (format_float (ck_format ck) (value metric)) (ck_suffix ck) in
      match _evaluate_metric_status metric with
      | CRITICAL =>
          Ok {| cs_metrics := metrics;
                cs_issues := cs_issues st ++ [String.append (ck_high ck) shown];
                cs_recommendations := cs_recommendations st ++ [ck_recommendation ck];
                cs_overall_status := CRITICAL |}
      | WARNING =>
          if bool_decide (cs_overall_status st ≠ CRITICAL) then
            Ok {| cs_metrics := metrics;
                  cs_issues := cs_issues st ++ [String.append (ck_elevated ck) shown];
                  cs_recommendations := cs_recommendations st;
                  cs_overall_status := WARNING |}
          else
            Ok {| cs_metrics := metrics; cs_issues := cs_issues st;
                  cs_recommendations := cs_recommendations st;
                  cs_overall_status := cs_overall_status st |}
      | _ =>
          Ok {| cs_metrics := metrics; cs_issues := cs_issues st;
                cs_recommendations := cs_recommendations st;
                cs_overall_status := cs_overall_status st |}
      end
  end.

(** The blocks in sequence; an exception leaves the locals as they were
    when it was raised. *)
Fixpoint run_checks (th : gmap string Threshold) (service_metrics : gmap string Q)
    (cks : list check_spec) (st : check_state) : check_state * option exn :=
  match cks with
  | [] => (st, None)
  | ck :: rest =>
      match check_metric th service_metrics ck st with
      | Ok st' => run_checks th service_metrics rest st'
      | Raise e => (st, Some e)
      end
  end.

(** [_check_service_health]; [snapshot] is what [_get_service_metrics]
    returned or raised, [now] the time at which the report is built. *)
Definition _check_service_health (now : datetime) (th : gmap string Threshold)
    (snapshot : outcome (gmap string Q)) : HealthReport :=
  let init :=
    {| cs_metrics := []; cs_issues := []; cs_recommendations := [];
       cs_overall_status := HEALTHY |} in
  let '(st, raised) :=
    match snapshot with
    | Raise e => (init, Some e)
    | Ok service_metrics => run_checks th service_metrics evaluated_checks init
    end in
  match raised with
  | None =>
      {| status := cs_overall_status st; metrics := cs_metrics st;
         issues := cs_issues st; recommendations := cs_recommendations st;
         timestamp := now |}
  | Some e =>
      {| status := UNKNOWN; metrics := cs_metrics st;
         issues := cs_issues st ++ [String.append "Health check failed: " (exn_str e)];
         recommendations := cs_recommendations st;
         timestamp := now |}
  end.

End HealthChecks.

(** [_send_alerts]: the alert is handed to every registered callback. *)
Definition _send_alerts (service_id : string) (st : HealthStatus) (report : HealthReport)
    (hm : HealthMonitor) : HealthMonitor :=
  {| check_interval := check_interval hm; running := running hm;
     service_reports := service_reports hm; system_report := system_report hm;
     thresholds := thresholds hm;
     alerts := alerts hm ++ [(service_id, st, report)] |}.

Definition set_service_reports (reports : gmap string HealthReport) (hm : HealthMonitor)
    : HealthMonitor :=
  {| check_interval := check_interval hm; running := running hm;
     service_reports := reports; system_report := system_report hm;
     thresholds := thresholds hm; alerts := alerts hm |}.

Section PerformHealthChecks.

Variable format_float : string → Q → string.

(** The body of the loop of [_perform_health_checks] for one entry of
    [service_manager.services]: [snapshot] is what [_get_service_metrics]
    gives for the instance in this pass. *)
Definition check_instance (now : datetime) (snapshot : outcome (gmap string Q))
    (instance_id : string) (instance : SM.ServiceInstance) (hm : HealthMonitor)
    : HealthMonitor :=
  if bool_decide (SM.status instance = SM.RUNNING) then
    let report := _check_service_health format_float now (thresholds hm) snapshot in
    let old_status :=
      match service_reports hm !! instance_id with
      | Some r => status r
      | None => UNKNOWN
      end in
    let hm := set_service_reports (<[instance_id := report]> (service_reports hm)) hm in
    if bool_decide (status report ∈ [WARNING; CRITICAL])
       && bool_decide (old_status ≠ status report)
    then _send_alerts instance_id (status report) report hm
    else hm
  else hm.

End PerformHealthChecks.

(** [status_counts[s]] in [_update_system_health]. *)
Definition status_count (s : HealthStatus) (reports : gmap string HealthReport) : Z :=
  Z.of_nat (size (filter (λ kv, status kv.2 = s) reports)).

(** The overall status computed by [_update_system_health] for a
    non-empty cache. *)
Definition overall_system_status (reports : gmap string HealthReport) : HealthStatus :=
  let total_services := Z.of_nat (size reports) in
  if 0 <? status_count CRITICAL reports then CRITICAL
  else if 0 <? status_count WARNING reports then WARNING
  else if status_count UNKNOWN reports =? total_services then UNKNOWN
  else HEALTHY.

(** [_update_system_health], with [now] the time at which the report is
    built. *)
Definition _update_system_health (now : datetime) (hm : HealthMonitor) : HealthMonitor :=
  let reports := service_reports hm in
  let report :=
    if bool_decide (size reports = 0%nat) then
      {| status := UNKNOWN; metrics := []; issues := []; recommendations := [];
         timestamp := now |}
    else
      let total_services := inject_Z (Z.of_nat (size reports)) in
      let n_critical := status_count CRITICAL reports in
      let n_warning := status_count WARNING reports in
      let system_metrics :=
        [ {| name := "services_healthy";
             value := inject_Z (status_count HEALTHY reports);
             threshold_warning := (total_services * 0.8)%Q;
             threshold_critical := (total_services * 0.6)%Q;
             unit_ := "count"; description := "Number of healthy services" |};
          {| name := "services_warning";
             value := inject_Z n_warning;
             threshold_warning := (total_services * 0.2)%Q;
             threshold_critical := (total_services * 0.4)%Q;
             unit_ := "count"; description := "Number of services with warnings" |};
          {| name := "services_critical";
             value := inject_Z n_critical;
             threshold_warning := 1;
             threshold_critical := (total_services * 0.3)%Q;
             unit_ := "count"; description := "Number of critical services" |} ] in
      let issues1 :=
        if 0 <? n_critical
        then [String.append (pretty n_critical) " services in critical state"] else [] in
      let recs1 :=
        if 0 <? n_critical then ["Immediately investigate critical services"] else [] in
      let issues2 :=
        if 0 <? n_warning
        then [String.append (pretty n_warning) " services with warnings"] else [] in
      let recs2 :=
        if 0 <? n_warning then ["Monitor warning services closely"] else [] in
      {| status := overall_system_status reports; metrics := system_metrics;
         issues := issues1 ++ issues2; recommendations := recs1 ++ recs2;
         timestamp := now |} in
  {| check_interval := check_interval hm; running := running hm;
     service_reports := service_reports hm; system_report := Some report;
     thresholds := thresholds hm; alerts := alerts hm |}.

(** [_perform_health_checks]: [items] are the entries of
    [service_manager.services] in the order in which the dictionary
    yields them, [observe] gives the snapshot of every instance in this
    pass. *)
Definition _perform_health_checks (format_float : string → Q → string) (now : datetime)
    (observe : string → outcome (gmap string Q))
    (items : list (string * SM.ServiceInstance)) (hm : HealthMonitor) : HealthMonitor :=
  _update_system_health now
    (foldl (λ hm item, check_instance format_float now (observe item.1) item.1 item.2 hm)
       hm items).

(** The locals [all_metrics], [all_issues] and [worst_status] of
    [get_service_type_health] after one more instance. *)
Definition aggregate_instance (reports : gmap string HealthReport)
    (acc : list HealthMetric * list string * HealthStatus) (instance : SM.ServiceInstance)
    : list HealthMetric * list string * HealthStatus :=
  let '(all_metrics, all_issues, worst_status) := acc in
  let instance_id := SM.instance_id (SM.config instance) in
  match reports !! instance_id with
  | Some report =>
      (all_metrics ++ metrics report,
       all_issues
         ++ ((λ issue, String.append instance_id (String.append ": " issue)) <$> issues report),
       if bool_decide (status report = CRITICAL) then CRITICAL
       else if bool_decide (status report = WARNING)
               && bool_decide (worst_status ≠ CRITICAL) then WARNING
       else worst_status)
  | None => acc
  end.

(** [get_service_type_health] *)
Definition get_service_type_health (now : datetime) (sm : SM.ServiceManager)
    (service_type : SM.ServiceType) (hm : HealthMonitor) : HealthReport :=
  let instances := SM.get_services_by_type service_type sm in
  match instances with
  | [] =>
      {| status := UNKNOWN; metrics := [];
         issues := [String.append "No instances found for "
                      (SM.ServiceType_value service_type)];
         recommendations := []; timestamp := now |}
  | _ :: _ =>
      let '(all_metrics, all_issues, worst_status) :=
        foldl (aggregate_instance (service_reports hm)) ([], [], HEALTHY) instances in
      {| status := worst_status; metrics := all_metrics; issues := all_issues;
         recommendations := []; timestamp := now |}
  end.

(** [get_system_health] *)
Definition get_system_health (now : datetime) (hm : HealthMonitor) : HealthReport :=
  match system_report hm with
  | None =>
      {| status := UNKNOWN; metrics := []; issues := []; recommendations := [];
         timestamp := now |}
  | Some r => r
  end.

End health_monitor.

(** ** orchestrator.py *)

Module orchestrator.

Module SM := service_manager.
Module LB := load_balancer.

Record CognitiveRequest : Type := mkCognitiveRequest {
  request_id : string;
  request_type : string;
  content : string;
  context : gmap string PyValue;
  priority : Z;
  complexity : Q;
  required_services : list SM.ServiceType;
  timestamp : datetime
}.

Definition set_required_services (l : list SM.ServiceType) (r : CognitiveRequest) : CognitiveRequest :=
  {| request_id := request_id r; request_type := request_type r;
     content := content r; context := context r; priority := priority r;
     complexity := complexity r; required_services := l;
     timestamp := timestamp r |}.

Record CognitiveResponse : Type := mkCognitiveResponse {
  resp_request_id : string;
  status : string;
  result : gmap string PyValue;
  processing_time : Q;
  services_used : list string;
  confidence : PyValue;
  errors : list string
}.

(** [self.processing_stats] *)
Record ProcessingStats : Type := mkProcessingStats {
  total_requests : Z;
  successful_requests : Z;
  failed_requests : Z;
  average_processing_time : Q
}.

(** The state that [process_request] reads and writes: the orchestrator's
    own tables, the load balancer it drives, and the number of clock
    reads made so far. *)
Record World : Type := mkWorld {
  active_requests : gmap string CognitiveRequest;
  processing_stats : ProcessingStats;
  load_balancer : LB.LoadBalancer;
  clock_reads : nat
}.

Definition set_active_requests (a : gmap string CognitiveRequest) (w : World) : World :=
  {| active_requests := a; processing_stats := processing_stats w;
     load_balancer := load_balancer w; clock_reads := clock_reads w |}.

Definition set_processing_stats (s : ProcessingStats) (w : World) : World :=
  {| active_requests := active_requests w; processing_stats := s;
     load_balancer := load_balancer w; clock_reads := clock_reads w |}.

Definition set_load_balancer (lb : LB.LoadBalancer) (w : World) : World :=
  {| active_requests := active_requests w; processing_stats := processing_stats w;
     load_balancer := lb; clock_reads := clock_reads w |}.

(** [CognitiveOrchestrator(service_manager, load_balancer)] *)
Definition new_world (lb : LB.LoadBalancer) : World :=
  {| active_requests := ∅;
     processing_stats :=
       {| total_requests := 0; successful_requests := 0; failed_requests := 0;
          average_processing_time := 0 |};
     load_balancer := lb; clock_reads := 0 |}.

(** [_determine_required_services] *)
Definition _determine_required_services (request : CognitiveRequest) : list SM.ServiceType :=
  let ty := request_type request in
  let required_services :=
    if String.eqb ty "relevance_analysis" then [SM.RELEVANCE]
    else if String.eqb ty "wisdom_evaluation" then [SM.WISDOM]
    else if String.eqb ty "rational_analysis" then [SM.RATIONALITY]
    else if String.eqb ty "phenomenological_processing" then [SM.PHENOMENOLOGY]
    else if String.eqb ty "meaning_making" then [SM.MEANING_MAKING]
    else if String.eqb ty "integration" then [SM.INTEGRATION]
    else if String.eqb ty "silicon_sage_advice" then [SM.SILICON_SAGE]
    else if String.eqb ty "comprehensive_analysis" then
      [SM.RELEVANCE; SM.WISDOM; SM.RATIONALITY; SM.MEANING_MAKING; SM.INTEGRATION]
    else [SM.SILICON_SAGE] in
  if Qltb 0.7 (complexity request) then
    if bool_decide (SM.INTEGRATION ∈ required_services) then required_services
    else required_services ++ [SM.INTEGRATION]
  else required_services.

(** The first statement of the [try] body of [process_request]: a
    request without required services gets the ones of its type. *)
Definition with_required_services (request : CognitiveRequest) : CognitiveRequest :=
  match required_services request with
  | [] => set_required_services (_determine_required_services request) request
  | _ :: _ => request
  end.

(** The simulation body of [_process_with_service] in the repository. *)
Definition _process_with_service (service_type : SM.ServiceType) (content : string)
    (context : gmap string PyValue) (intermediate_results : gmap string (gmap string PyValue))
    : outcome (gmap string PyValue) :=
  Ok (list_to_map
    match service_type with
    | SM.RELEVANCE =>
        [("relevance_scores",
          PyDict [("key_concept_1", PyFloat 0.8); ("key_concept_2", PyFloat 0.6)]);
         ("salience_weights",
          PyDict [("attention", PyFloat 0.7); ("working_memory", PyFloat 0.5)])]
    | SM.WISDOM =>
        [("wisdom_metrics",
          PyDict [("inference", PyFloat 0.75); ("insight", PyFloat 0.65);
                  ("intuition", PyFloat 0.55); ("understanding", PyFloat 0.80)]);
         ("recommendations",
          PyList [PyStr "Consider multiple perspectives";
                  PyStr "Balance analysis with intuition"])]
    | SM.RATIONALITY =>
        [("rationality_metrics",
          PyDict [("logical_coherence", PyFloat 0.85); ("evidence_quality", PyFloat 0.70);
                  ("argument_strength", PyFloat 0.75)]);
         ("logical_analysis", PyStr "The argument follows a coherent structure...")]
    | SM.PHENOMENOLOGY =>
        [("experiential_depth", PyFloat 0.65);
         ("participatory_knowing", PyFloat 0.70);
         ("meaning_resonance", PyFloat 0.75)]
    | SM.MEANING_MAKING =>
        [("refined_message", PyStr (String.append "Enhanced: " content));
         ("message_confidence", PyFloat 0.85);
         ("meaning_depth", PyFloat 0.80)]
    | SM.INTEGRATION =>
        [("integration_level", PyFloat 0.75);
         ("synergistic_patterns", PyList [PyStr "pattern_1"; PyStr "pattern_2"]);
         ("emergent_insights", PyList [PyStr "insight_1"; PyStr "insight_2"])]
    | SM.SILICON_SAGE =>
        [("refined_message", PyStr (String.append "Sage wisdom: " content));
         ("message_confidence", PyFloat 0.85);
         ("wisdom_metrics",
          PyDict [("inference", PyFloat 0.75); ("insight", PyFloat 0.65);
                  ("understanding", PyFloat 0.80)]);
         ("rationality_metrics",
          PyDict [("logical_coherence", PyFloat 0.85); ("evidence_quality", PyFloat 0.70)]);
         ("ecology_metrics",
          PyDict [("integration_level", PyFloat 0.75); ("optimization_depth", PyFloat 0.70)]);
         ("recommendations",
          PyList [PyStr "Consider multiple cognitive perspectives";
                  PyStr "Balance rational analysis with intuitive insights";
                  PyStr "Integrate findings across domains"])]
    end).

(** [_update_average_processing_time]; the division raises when the
    request counter is zero. *)
Definition _update_average_processing_time (t : Q) (s : ProcessingStats)
    : outcome ProcessingStats :=
  let total := total_requests s in
  let current_avg := average_processing_time s in
  if total =? 0 then Raise ZeroDivisionError
  else
    Ok {| total_requests := total_requests s;
          successful_requests := successful_requests s;
          failed_requests := failed_requests s;
          average_processing_time :=
            ((current_avg * inject_Z (total - 1) + t) / inject_Z total)%Q |}.

Section Orchestrator.

(** The clock: [clock n] is what the [n]-th call of [datetime.now()]
    returns. *)
Variable clock : nat → datetime.

(** The per-category processing capability behind
    [_process_with_service]: an external collaborator that returns a
    result mapping or raises.  The repository ships the simulation
    [_process_with_service] above, which never raises. *)
Variable process_with_service :
  SM.ServiceType → string → gmap string PyValue →
  gmap string (gmap string PyValue) → outcome (gmap string PyValue).

(** The manager held by the orchestrator and the one held by the load
    balancer; neither is written during a request. *)
Variable service_manager : SM.ServiceManager.
Variable lb_service_manager : option SM.ServiceManager.

(** [datetime.now()] *)
Definition now (w : World) : datetime * World :=
  (clock (clock_reads w),
   {| active_requests := active_requests w; processing_stats := processing_stats w;
      load_balancer := load_balancer w; clock_reads := S (clock_reads w) |}).

(** [_plan_processing_pipeline]: the loop over the required categories,
    with [pipeline] the identifiers collected so far. *)
Fixpoint plan_loop (request : CognitiveRequest) (required : list SM.ServiceType)
    (pipeline : list string) (lb : LB.LoadBalancer)
    : outcome (list string) * LB.LoadBalancer :=
  match required with
  | [] => (Ok pipeline, lb)
  | service_type :: rest =>
      let lb_context :=
        {| LB.ctx_complexity := Some (complexity request);
           LB.ctx_priority := Some (priority request);
           LB.ctx_request_type := Some (request_type request) |} in
      match LB.select_service_instance lb_service_manager service_type
              (Some lb_context) lb with
      | (Raise e, lb) => (Raise e, lb)
      | (Ok (Some instance_id), lb) =>
          if bool_decide (instance_id = "") then plan_loop request rest pipeline lb
          else plan_loop request rest (pipeline ++ [instance_id]) lb
      | (Ok None, lb) => plan_loop request rest pipeline lb
      end
  end.

Definition _plan_processing_pipeline (request : CognitiveRequest) (lb : LB.LoadBalancer)
    : outcome (list string) * LB.LoadBalancer :=
  plan_loop request (required_services request) [] lb.

(** The local variables of [_execute_pipeline]. *)
Record exec_state : Type := mkExecState {
  ex_result : gmap string PyValue;
  ex_intermediate_results : gmap string (gmap string PyValue);
  ex_world : World
}.

(** One iteration of the loop of [_execute_pipeline]. *)
Definition execute_step (request : CognitiveRequest) (instance_id : string)
    (st : exec_state) : exec_state :=
  match SM.services service_manager !! instance_id with
  | None => st
  | Some instance =>
      let service_type := SM.service_type (SM.config instance) in
      let w := ex_world st in
      let w := set_load_balancer (LB.record_request_start instance_id (load_balancer w)) w in
      let '(start_time, w) := now w in
      match process_with_service service_type (content request) (context request)
              (ex_intermediate_results st) with
      | Ok service_result =>
          let '(end_time, w) := now w in
          let processing_time := ((end_time - start_time) * 1000)%Q in
          let w :=
            set_load_balancer
              (LB.record_request_end instance_id processing_time true (load_balancer w)) w in
          {| ex_result := service_result ∪ ex_result st;
             ex_intermediate_results :=
               <[SM.ServiceType_value service_type := service_result]>
                 (ex_intermediate_results st);
             ex_world := w |}
      | Raise e =>
          let processing_time := 5000%Q in
          let w :=
            set_load_balancer
              (LB.record_request_end instance_id processing_time false (load_balancer w)) w in
          {| ex_result := ex_result st;
             ex_intermediate_results := ex_intermediate_results st;
             ex_world := w |}
      end
  end.

(** [_execute_pipeline] *)
Fixpoint execute_loop (request : CognitiveRequest) (pipeline : list string)
    (st : exec_state) : exec_state :=
  match pipeline with
  | [] => st
  | instance_id :: rest => execute_loop request rest (execute_step request instance_id st)
  end.

Definition _execute_pipeline (request : CognitiveRequest) (pipeline : list string)
    (w : World) : gmap string PyValue * World :=
  let st :=
    execute_loop request pipeline
      {| ex_result := ∅; ex_intermediate_results := ∅; ex_world := w |} in
  (ex_result st, ex_world st).

(** The [except Exception] handler of [process_request]. *)
Definition process_request_failed (request : CognitiveRequest) (start_time : datetime)
    (e : exn) (w : World) : outcome CognitiveResponse * World :=
  let '(t, w) := now w in
  let processing_time := (t - start_time)%Q in
  let s := processing_stats w in
  let s :=
    {| total_requests := total_requests s;
       successful_requests := successful_requests s;
       failed_requests := failed_requests s + 1;
       average_processing_time := average_processing_time s |} in
  let w := set_processing_stats s w in
  match _update_average_processing_time processing_time s with
  | Raise e' => (Raise e', w)
  | Ok s =>
      (Ok {| resp_request_id := request_id request; status := "error";
             result := ∅; processing_time := processing_time;
             services_used := []; confidence := PyFloat 0.0;
             errors := [exn_str e] |},
       set_processing_stats s w)
  end.

(** The [try] body of [process_request]; an exception comes back with the
    state in which it was raised. *)
Definition process_request_body (request : CognitiveRequest) (start_time : datetime)
    (w : World) : outcome CognitiveResponse * World :=
  let request := with_required_services request in
  match _plan_processing_pipeline request (load_balancer w) with
  | (Raise e, lb) => (Raise e, set_load_balancer lb w)
  | (Ok pipeline, lb) =>
      let w := set_load_balancer lb w in
      let '(result, w) := _execute_pipeline request pipeline w in
      let '(t, w) := now w in
      let processing_time := (t - start_time)%Q in
      let response :=
        {| resp_request_id := request_id request; status := "success";
           result := result; processing_time := processing_time;
           services_used := pipeline;
           confidence := default (PyFloat 0.8) (result !! "confidence");
           errors := [] |} in
      let s := processing_stats w in
      let s :=
        {| total_requests := total_requests s;
           successful_requests := successful_requests s + 1;
           failed_requests := failed_requests s;
           average_processing_time := average_processing_time s |} in
      let w := set_processing_stats s w in
      match _update_average_processing_time processing_time s with
      | Raise e => (Raise e, w)
      | Ok s => (Ok response, set_processing_stats s w)
      end
  end.

(** [process_request] *)
Definition process_request (request : CognitiveRequest) (w : World)
    : outcome CognitiveResponse * World :=
  let '(start_time, w) := now w in
  let w := set_active_requests (<[request_id request := request]> (active_requests w)) w in
  let s := processing_stats w in
  let w :=
    set_processing_stats
      {| total_requests := total_requests s + 1;
         successful_requests := successful_requests s;
         failed_requests := failed_requests s;
         average_processing_time := average_processing_time s |} w in
  let '(r, w) :=
    match process_request_body request start_time w with
    | (Ok response, w) => (Ok response, w)
    | (Raise e, w) => process_request_failed request start_time e w
    end in
  (r, set_active_requests (delete (request_id request) (active_requests w)) w).

End Orchestrator.

End orchestrator.

(** ** daemon.py *)

Module daemon.

Module SM := service_manager.

(** The dependencies that [visit] follows for a category: those of the
    configuration of its first instance, none when it has no instance. *)
Definition dependencies_of (sm : SM.ServiceManager) (service_type : SM.ServiceType)
    : list SM.ServiceType :=
  match SM.get_services_by_type service_type sm with
  | [] => []
  | instance :: _ => SM.dependencies (SM.config instance)
  end.

(** The closure [visit] of [_get_service_startup_order], with its
    variables [visited] and [order] as state.  The recursion of the code
    is not structural: [fuel] bounds its depth, and [None] says that the
    bound was reached. *)
Fixpoint visit (fuel : nat) (sm : SM.ServiceManager) (service_type : SM.ServiceType)
    (st : gset SM.ServiceType * list SM.ServiceType)
    : option (gset SM.ServiceType * list SM.ServiceType) :=
  match fuel with
  | O => None
  | S fuel =>
      if bool_decide (service_type ∈ st.1) then Some st
      else
        let st := ({[service_type]} ∪ st.1, st.2) in
        match foldl (λ acc dep, acc ≫= visit fuel sm dep) (Some st)
                (dependencies_of sm service_type) with
        | Some st => Some (st.1, st.2 ++ [service_type])
        | None => None
        end
  end.

(** The loop over [ServiceType] of [_get_service_startup_order]. *)
Definition visit_all (fuel : nat) (sm : SM.ServiceManager) (tys : list SM.ServiceType)
    (st : gset SM.ServiceType * list SM.ServiceType)
    : option (gset SM.ServiceType * list SM.ServiceType) :=
  foldl (λ acc service_type,
           match SM.get_services_by_type service_type sm with
           | [] => acc
           | _ :: _ => acc ≫= visit fuel sm service_type
           end) (Some st) tys.

(** [_get_service_startup_order]: a nested [visit] always has one more
    category in [visited], so the depth never exceeds the number of
    categories. *)
Definition _get_service_startup_order (sm : SM.ServiceManager)
    : option (list SM.ServiceType) :=
  snd <$> visit_all (S (length SM.all_service_types)) sm SM.all_service_types (∅, []).

(** [_stop_all_services]; [keys] is [list(self.service_manager.services.keys())]. *)
Definition _stop_all_services (keys : list string) (sm : SM.ServiceManager)
    : SM.ServiceManager :=
  foldl (λ sm instance_id, (SM.stop_service instance_id sm).2) sm keys.

End daemon.

(** ** Vocabulary of the properties *)

Module props.

Module SM := service_manager.
Module LB := load_balancer.
Module HM := health_monitor.
Module OR := orchestrator.

(** Every category has a list in the registry: true after construction,
    kept by registration. *)
Definition registry_total (sm : SM.ServiceManager) : Prop :=
  ∀ ty, is_Some (SM.service_registry sm !! ty).

(** The in-flight count of an identifier; an identifier without an entry
    has none in flight, as in [_least_connections_select]. *)
Definition connections (lb : LB.LoadBalancer) (id : string) : Z :=
  match LB.metrics lb !! id with
  | Some m => LB.current_connections m
  | None => 0
  end.

(** Calls of [record_request_start] and [record_request_end]. *)
Inductive request_event : Type :=
  | RequestStart (id : string)
  | RequestEnd (id : string) (response_time : Q) (success : bool).

Definition apply_event (lb : LB.LoadBalancer) (ev : request_event) : LB.LoadBalancer :=
  match ev with
  | RequestStart id => LB.record_request_start id lb
  | RequestEnd id t ok => LB.record_request_end id t ok lb
  end.

(** The calls of a list made in order, oldest first. *)
Definition apply_events (evs : list request_event) (lb : LB.LoadBalancer) : LB.LoadBalancer :=
  foldl apply_event lb evs.




(** The balancer after [n] selections for one category, and the answer
    of the next one. *)
Definition after_selects (sm : option SM.ServiceManager) (ty : SM.ServiceType)
    (ctx : option LB.RequestContext) (n : nat) (lb : LB.LoadBalancer) : LB.LoadBalancer :=
  Nat.iter n (λ lb, (LB.select_service_instance sm ty ctx lb).2) lb.

Definition nth_select (sm : option SM.ServiceManager) (ty : SM.ServiceType)
    (ctx : option LB.RequestContext) (n : nat) (lb : LB.LoadBalancer)
    : outcome (option string) :=
  (LB.select_service_instance sm ty ctx (after_selects sm ty ctx n lb)).1.

(** The worst of a list of classifications, with critical above warning
    above healthy. *)
Definition worst_of (l : list HM.HealthStatus) : HM.HealthStatus :=
  if bool_decide (HM.CRITICAL ∈ l) then HM.CRITICAL
  else if bool_decide (HM.WARNING ∈ l) then HM.WARNING
  else HM.HEALTHY.

(** What the sequence of blocks of [_check_service_health] keeps true of
    its local variables. *)
Definition overall_is_worst (st : HM.check_state) : Prop :=
  HM.cs_overall_status st = worst_of (HM._evaluate_metric_status <$> HM.cs_metrics st).

(** The metric of a check, read from a snapshot and a threshold entry. *)
Definition metric_for (snapshot : gmap string Q) (ck : HM.check_spec) (t : HM.Threshold)
    : HM.HealthMetric :=
  {| HM.name := HM.ck_name ck;
     HM.value := default 0%Q (snapshot !! HM.ck_key ck);
     HM.threshold_warning := HM.warning t;
     HM.threshold_critical := HM.critical t;
     HM.unit_ := HM.ck_unit ck;
     HM.description := HM.ck_description ck |}.

(** Some cached report has the given status. *)
Definition some_report (s : HM.HealthStatus) (reports : gmap string HM.HealthReport) : Prop :=
  ∃ id r, reports !! id = Some r ∧ HM.status r = s.

(** Every cached report has the given status. *)
Definition all_reports (s : HM.HealthStatus) (reports : gmap string HM.HealthReport) : Prop :=
  ∀ id r, reports !! id = Some r → HM.status r = s.

(** What one step of a pipeline came to: its instance is not known to
    the orchestrator's manager and the step is skipped, the processing
    call returned a result mapping, or the processing call raised. *)
Inductive step_outcome : Type :=
  | Skipped
  | Succeeded (r : gmap string PyValue)
  | Failed (e : exn).

(** The outcomes of the steps of a pipeline, in order, when the loop of
    [_execute_pipeline] is entered with the given intermediate results. *)
Fixpoint step_outcomes
    (process_with_service :
       SM.ServiceType → string → gmap string PyValue →
       gmap string (gmap string PyValue) → outcome (gmap string PyValue))
    (sm : SM.ServiceManager) (request : OR.CognitiveRequest)
    (pipeline : list string) (intermediate : gmap string (gmap string PyValue))
    : list step_outcome :=
  match pipeline with
  | [] => []
  | id :: rest =>
      match SM.services sm !! id with
      | None => Skipped :: step_outcomes process_with_service sm request rest intermediate
      | Some instance =>
          let ty := SM.service_type (SM.config instance) in
          match process_with_service ty (OR.content request) (OR.context request)
                  intermediate with
          | Ok r =>
              Succeeded r ::
                step_outcomes process_with_service sm request rest
                  (<[SM.ServiceType_value ty := r]> intermediate)
          | Raise e =>
              Failed e :: step_outcomes process_with_service sm request rest intermediate
          end
      end
  end.

(** The result mappings of the steps that succeeded, in order. *)
Definition successes (outs : list step_outcome) : list (gmap string PyValue) :=
  omap (λ o, match o with Succeeded r => Some r | _ => None end) outs.

(** [result.update(r)] for each mapping of a list in turn: later
    mappings overwrite the keys of earlier ones. *)
Definition merge_results (rs : list (gmap string PyValue)) : gmap string PyValue :=
  foldl (λ acc r, r ∪ acc) ∅ rs.

(** The local variables with which [_execute_pipeline] enters its loop. *)
Definition exec_init (w : OR.World) : OR.exec_state :=
  {| OR.ex_result := ∅; OR.ex_intermediate_results := ∅; OR.ex_world := w |}.

(** An identifier that no list of the registry holds. *)
Definition unlisted (id : string) (sm : SM.ServiceManager) : Prop :=
  ∀ ty l, SM.service_registry sm !! ty = Some l → id ∉ l.

(** The registrations of a list of configurations, in order. *)
Definition register_all (cfgs : list SM.ServiceConfig) (sm : SM.ServiceManager)
    : SM.ServiceManager :=
  foldl (λ sm cfg, (SM.register_service cfg sm).2) sm cfgs.

(** Every category has a round-robin counter: true after construction,
    kept by selection. *)
Definition counters_total (lb : LB.LoadBalancer) : Prop :=
  ∀ ty, is_Some (LB.round_robin_counters lb !! ty).

(** Every entry of the metrics table is filed under its own identifier. *)
Definition metrics_keyed (lb : LB.LoadBalancer) : Prop :=
  ∀ id m, LB.metrics lb !! id = Some m → LB.instance_id m = id.

(** The number of request ends for an identifier in a list of calls. *)
Fixpoint ends_for (id : string) (evs : list request_event) : nat :=
  match evs with
  | [] => 0
  | RequestEnd id' _ _ :: evs => (if decide (id' = id) then 1 else 0) + ends_for id evs
  | RequestStart _ :: evs => ends_for id evs
  end.


(** The metrics of an entry are not negative. *)
Definition metrics_nonneg (m : LB.ServiceMetrics) : Prop :=
  0 ≤ LB.current_connections m
  ∧ (0 <= LB.average_response_time m)%Q
  ∧ (0 <= LB.error_rate m)%Q
  ∧ (0 <= LB.cognitive_load m)%Q.

(** Every threshold that [_check_service_health] reads is there. *)
Definition thresholds_complete (th : gmap string HM.Threshold) : Prop :=
  ∀ ck, ck ∈ HM.evaluated_checks → is_Some (th !! HM.ck_name ck).

(** How bad a classification is. *)
Definition severity (s : HM.HealthStatus) : Z :=
  match s with
  | HM.CRITICAL => 2
  | HM.WARNING => 1
  | HM.HEALTHY | HM.UNKNOWN => 0
  end.

(** The second snapshot reads at least as high as the first on every
    evaluated metric. *)
Definition snapshot_le (s1 s2 : gmap string Q) : Prop :=
  ∀ ck, ck ∈ HM.evaluated_checks →
    (default 0 (s1 !! HM.ck_key ck) <= default 0 (s2 !! HM.ck_key ck))%Q.

(** The statuses of the cached reports of a list of instances. *)
Definition cached_statuses (reports : gmap string HM.HealthReport)
    (instances : list SM.ServiceInstance) : list HM.HealthStatus :=
  omap (λ i, HM.status <$> reports !! SM.instance_id (SM.config i)) instances.

(** The variables [visited] and [order] of [_get_service_startup_order]
    went from [st] to [st'] by visiting the categories [ext], each for the
    first time. *)
Definition grows_by (st st' : gset SM.ServiceType * list SM.ServiceType)
    (ext : list SM.ServiceType) : Prop :=
  st'.2 = st.2 ++ ext
  ∧ st'.1 = st.1 ∪ list_to_set ext
  ∧ NoDup ext
  ∧ ∀ x, x ∈ ext → x ∉ st.1.

(** What [stop_service] makes of an instance that is running or
    starting. *)
Definition stopped (i : SM.ServiceInstance) : SM.ServiceInstance :=
  SM.set_process_id None (SM.set_status SM.STOPPED (SM.set_status SM.STOPPING i)).

Definition active (i : SM.ServiceInstance) : bool :=
  bool_decide (SM.status i = SM.RUNNING) || bool_decide (SM.status i = SM.STARTING).

(** Where a thread that the monitoring loop spawned stands in
    [restart_service]: before the call of [stop_service], before the call
    of [start_service] (in the pause of one second), before the increment
    of the restart counter, or at its end. *)
Inductive restart_pc : Type := AtStop | AtStart | AtCount | AtEnd.

(** The next step of such a thread; each step runs under the lock of the
    manager. *)
Definition restart_step (hash : string → Z) (now : datetime) (id : string)
    (pc : restart_pc) (sm : SM.ServiceManager) : restart_pc * SM.ServiceManager :=
  match pc with
  | AtStop =>
      let '(ok, sm) := SM.stop_service id sm in
      (if ok then AtStart else AtEnd, sm)
  | AtStart =>
      let '(ok, sm) := SM.start_service hash now id sm in
      (if ok then AtCount else AtEnd, sm)
  | AtCount =>
      match SM.services sm !! id with
      | Some instance =>
          (AtEnd,
           SM.store id (SM.set_restart_count (SM.restart_count instance + 1) instance) sm)
      | None => (AtEnd, sm)
      end
  | AtEnd => (AtEnd, sm)
  end.

(** What happens around one instance: a pass of the monitoring loop over
    it, with the answer of [_health_check], or the next step of the
    [k]-th thread that the loop has spawned for it. *)
Inductive monitor_event : Type :=
  | Probe (is_healthy : bool)
  | Advance (k : nat).

(** The manager and the threads spawned so far, after one event.  The
    thread that a pass spawns starts at the end of the list. *)
Definition monitor_step (hash : string → Z) (now : datetime) (id : string)
    (w : SM.ServiceManager * list restart_pc) (ev : monitor_event)
    : SM.ServiceManager * list restart_pc :=
  match ev with
  | Probe is_healthy =>
      let '(sm, restart) := SM.monitor_instance now is_healthy id w.1 in
      (sm, w.2 ++ (if restart then [AtStop] else []))
  | Advance k =>
      match w.2 !! k with
      | Some pc =>
          let '(pc, sm) := restart_step hash now id pc w.1 in
          (sm, <[k := pc]> w.2)
      | None => w
      end
  end.

Definition monitor_run (hash : string → Z) (now : datetime) (id : string)
    (evs : list monitor_event) (w : SM.ServiceManager * list restart_pc)
    : SM.ServiceManager * list restart_pc :=
  foldl (monitor_step hash now id) w evs.




(** In a list, [d] stands before an occurrence of [t]. *)
Definition before {A} (d t : A) (l : list A) : Prop :=
  ∃ l1 l2, l = l1 ++ t :: l2 ∧ d ∈ l1.

(** The identifiers of a list of instances. *)
Definition ids_of (l : list SM.ServiceInstance) : list string :=
  (λ i, SM.instance_id (SM.config i)) <$> l.

End props.

(** ** Concrete configurations used as examples *)

Module examples.

Module SM := service_manager.
Module LB := load_balancer.
Module HM := health_monitor.
Module OR := orchestrator.

(** A process in which every string hashes to [0]. *)
Definition hash0 (s : string) : Z := 0.

Definition relevance_1 : SM.ServiceConfig := SM.default_config SM.RELEVANCE "relevance_1".

(** A manager in which ["relevance_1"] was registered and started. *)
Definition sm_registered : SM.ServiceManager :=
  (SM.register_service relevance_1 SM.new_service_manager).2.

Definition sm_started : SM.ServiceManager :=
  (SM.start_service hash0 0%Q "relevance_1" sm_registered).2.

(** A silicon-sage instance that needs a relevance instance, next to a
    registered relevance instance that was never started. *)
Definition sage_1 : SM.ServiceConfig :=
  {| SM.service_type := SM.SILICON_SAGE; SM.instance_id := "sage_1";
     SM.port := 8700; SM.host := "localhost"; SM.workers := 1;
     SM.memory_limit := 1024; SM.cpu_limit := 1%Q; SM.environment := ∅;
     SM.dependencies := [SM.RELEVANCE]; SM.auto_restart := true;
     SM.health_check_interval := 30; SM.startup_timeout := 60;
     SM.shutdown_timeout := 30 |}.

Definition sm_with_sage : SM.ServiceManager :=
  (SM.register_service sage_1 sm_registered).2.

(** Register an instance of a category under an identifier, start it, and
    let the monitoring loop probe it successfully once. *)
Definition bring_up (ty : SM.ServiceType) (id : string) (sm : SM.ServiceManager)
    : SM.ServiceManager :=
  let sm := (SM.register_service (SM.default_config ty id) sm).2 in
  let sm := (SM.start_service hash0 0%Q id sm).2 in
  (SM.monitor_instance 1%Q true id sm).1.

(** The instance object that [bring_up] leaves in the manager. *)
Definition brought_up (ty : SM.ServiceType) (id : string) : SM.ServiceInstance :=
  {| SM.config := SM.default_config ty id; SM.status := SM.RUNNING;
     SM.process_id := Some 12345; SM.start_time := Some 0%Q;
     SM.last_health_check := Some 1%Q; SM.health_status := "healthy";
     SM.error_count := 0; SM.restart_count := 0; SM.metrics := ∅ |}.

(** Three healthy running wisdom instances. *)
Definition sm_three : SM.ServiceManager :=
  bring_up SM.WISDOM "instance_3"
    (bring_up SM.WISDOM "instance_2"
       (bring_up SM.WISDOM "instance_1" SM.new_service_manager)).

(** Two healthy running wisdom instances. *)
Definition sm_two : SM.ServiceManager :=
  bring_up SM.WISDOM "instance_2"
    (bring_up SM.WISDOM "instance_1" SM.new_service_manager).


(** The metrics that [test_least_connections_selection] and
    [test_cognitive_aware_selection] install; a decimal literal stands
    for the float nearest to it. *)
Definition told (connections : Z) (avg_response_time cognitive_load error_rate : Q)
    : LB.MetricsUpdate :=
  {| LB.upd_connections := Some connections; LB.upd_total_requests := None;
     LB.upd_avg_response_time := Some (round64 avg_response_time);
     LB.upd_cpu_usage := None; LB.upd_memory_usage := None;
     LB.upd_cognitive_load := Some (round64 cognitive_load);
     LB.upd_error_rate := Some (round64 error_rate) |}.

Definition lb_connections : LB.LoadBalancer :=
  LB.update_service_metrics 2%Q "instance_3" (told 8 0 0 0)
    (LB.update_service_metrics 2%Q "instance_2" (told 2 0 0 0)
       (LB.update_service_metrics 2%Q "instance_1" (told 5 0 0 0)
          (LB.new_load_balancer LB.LEAST_CONNECTIONS))).

Definition lb_cognitive : LB.LoadBalancer :=
  LB.update_service_metrics 2%Q "instance_2" (told 3 100.0 0.3 0.01)
    (LB.update_service_metrics 2%Q "instance_1" (told 10 500.0 0.8 0.05)
       (LB.new_load_balancer LB.COGNITIVE_AWARE)).

(** A least-response-time balancer in which ["instance_1"] averages 150ms
    and ["instance_2"] has an entry without samples. *)
Definition lb_slow : LB.LoadBalancer :=
  LB.record_request_start "instance_2"
    (LB.update_service_metrics 2%Q "instance_1" (told 0 150.0 0 0)
       (LB.new_load_balancer LB.LEAST_RESPONSE_TIME)).


(** A new balancer after a request start and [n] failed request ends
    for ["a"]. *)
Definition lb_failures (n : nat) : LB.LoadBalancer :=
  props.apply_events
    (props.RequestStart "a" :: replicate n (props.RequestEnd "a" 5000%Q false))
    (LB.new_load_balancer LB.ROUND_ROBIN).

(** A balancer that was told an error rate of [5 * 2^-1074] for ["a"]. *)
Definition lb_tiny_rate : LB.LoadBalancer :=
  LB.update_service_metrics 2%Q "a" (told 0 0 0 (5 * 2 ^ (-1074)))
    (LB.new_load_balancer LB.ROUND_ROBIN).

(** A balancer that was told [-3] connections in flight for ["a"]. *)
Definition lb_negative : LB.LoadBalancer :=
  LB.update_service_metrics 2%Q "a" (told (-3) 0 0 0)
    (LB.new_load_balancer LB.ROUND_ROBIN).

(** A least-response-time balancer in which ["instance_1"] averages 150ms
    and ["instance_2"] has no metrics entry. *)
Definition lb_slow_alone : LB.LoadBalancer :=
  LB.update_service_metrics 2%Q "instance_1" (told 0 150.0 0 0)
    (LB.new_load_balancer LB.LEAST_RESPONSE_TIME).

(** The two assignments to [error_rate] of [record_request_end] on the
    floats of the machine. *)
Definition failed_end_hw (rate : float) : float := (0.1 * 1.0 + (1 - 0.1) * rate)%float.
Definition successful_end_hw (rate : float) : float := ((1 - 0.1) * rate)%float.

(** The same two assignments in the model. *)
Definition failed_end (rate : Q) : Q :=
  fadd (fmul LB.alpha 1.0) (fmul (fsub 1 LB.alpha) rate).
Definition successful_end (rate : Q) : Q := fmul (fsub 1 LB.alpha) rate.

(** Two runs, of the model and of the machine, agree for [n] steps. *)
Fixpoint agree (n : nat) (f : Q → Q) (g : float → float) (x : Q) (y : float) : bool :=
  Qeq_bool x (Q_of_float y)
  && match n with
     | O => true
     | S n => agree n f g (f x) (g y)
     end.

(** A snapshot in which only the CPU is past its critical threshold of
    90, and a number format that prints nothing. *)
Definition hot_cpu : gmap string Q :=
  list_to_map
    [("cpu_usage", 93.5%Q); ("memory_usage", 40.0%Q); ("avg_response_time", 120.0%Q);
     ("error_rate", 0.01%Q); ("cognitive_load", 0.3%Q)].

Definition no_format (spec : string) (x : Q) : string := "".

(** A healthy running instance of each of three categories. *)
Definition sm_pipeline : SM.ServiceManager :=
  bring_up SM.INTEGRATION "integration_1"
    (bring_up SM.WISDOM "wisdom_1"
       (bring_up SM.RELEVANCE "relevance_1" SM.new_service_manager)).

(** A processing capability whose wisdom service is down; the other
    categories answer as the simulation does. *)
Definition wisdom_down (ty : SM.ServiceType) (content : string)
    (context : gmap string PyValue) (intermediate : gmap string (gmap string PyValue))
    : outcome (gmap string PyValue) :=
  match ty with
  | SM.WISDOM => Raise (RuntimeError "wisdom service unavailable")
  | _ => OR._process_with_service ty content context intermediate
  end.

(** A request that names the three categories. *)
Definition request_three : OR.CognitiveRequest :=
  {| OR.request_id := "req-1"; OR.request_type := "comprehensive_analysis";
     OR.content := "what matters here"; OR.context := ∅; OR.priority := 1;
     OR.complexity := 0.5%Q;
     OR.required_services := [SM.RELEVANCE; SM.WISDOM; SM.INTEGRATION];
     OR.timestamp := 0%Q |}.

(** A clock that advances by one second per reading. *)
Definition clock_seconds (n : nat) : datetime := inject_Z (Z.of_nat n).

(** A new orchestrator over a new round-robin balancer. *)
Definition world0 : OR.World := OR.new_world (LB.new_load_balancer LB.ROUND_ROBIN).

(** The label of a step outcome. *)
Definition outcome_label (o : props.step_outcome) : string :=
  match o with
  | props.Skipped => "skipped"
  | props.Succeeded _ => "succeeded"
  | props.Failed _ => "raised"
  end.

End examples.

(** * Properties *)

Module SM := service_manager.
Module LB := load_balancer.
Module HM := health_monitor.
Module OR := orchestrator.
Module DM := daemon.
Module EX := examples.
Import props.

(** ** Registry and lifecycle *)

Lemma new_service_manager_total : registry_total SM.new_service_manager.
Proof. intros []; vm_compute; eauto. Qed.

Lemma register_service_total cfg sm :
  registry_total sm → registry_total (SM.register_service cfg sm).2.
Proof.
  intros Htot ty. unfold SM.register_service. simpl.
  destruct (Htot (SM.service_type cfg)) as [ids Hids]. rewrite Hids. simpl.
  destruct (decide (SM.service_type cfg = ty)) as [->|Hne].
  - rewrite lookup_insert_eq. eauto.
  - rewrite lookup_insert_ne by done. apply Htot.
Qed.

(** C1 (as stated, refuted): a second registration under an identifier
    that is already registered is accepted; it replaces the stored
    instance, here a RUNNING one, by a fresh STOPPED one and puts a second
    entry for the identifier into the list of the category. *)
Lemma register_service_duplicate_accepted :
  let sm := EX.sm_started in
  let '(r, sm') := SM.register_service EX.relevance_1 sm in
  (SM.status <$> SM.services sm !! "relevance_1") = Some SM.RUNNING
  ∧ SM.service_registry sm !! SM.RELEVANCE = Some ["relevance_1"]
  ∧ r = Ok "relevance_1"
  ∧ (SM.status <$> SM.services sm' !! "relevance_1") = Some SM.STOPPED
  ∧ SM.services sm' !! "relevance_1" ≠ SM.services sm !! "relevance_1"
  ∧ SM.service_registry sm' !! SM.RELEVANCE = Some ["relevance_1"; "relevance_1"].
Proof. vm_compute. repeat split; congruence. Qed.

(** C1 (amended): [register_service] never rejects. Whether or not the
    identifier is already registered, the call returns the identifier,
    stores under it a fresh instance of the given configuration with
    status STOPPED, and appends the identifier to the list of the
    configuration's category; the instances under all other identifiers
    and the lists of all other categories are unchanged. *)
Theorem register_service_stores_stopped cfg sm ids :
  SM.service_registry sm !! SM.service_type cfg = Some ids →
  let '(r, sm') := SM.register_service cfg sm in
  r = Ok (SM.instance_id cfg)
  ∧ SM.services sm' !! SM.instance_id cfg = Some (SM.new_instance cfg)
  ∧ (SM.status <$> SM.services sm' !! SM.instance_id cfg) = Some SM.STOPPED
  ∧ SM.service_registry sm' !! SM.service_type cfg = Some (ids ++ [SM.instance_id cfg])
  ∧ (∀ id, id ≠ SM.instance_id cfg → SM.services sm' !! id = SM.services sm !! id)
  ∧ (∀ ty, ty ≠ SM.service_type cfg →
       SM.service_registry sm' !! ty = SM.service_registry sm !! ty).
Proof.
  intros Hids. unfold SM.register_service. simpl. rewrite Hids. simpl.
  rewrite !lookup_insert_eq. repeat split; try done.
  - intros id Hne. by rewrite lookup_insert_ne.
  - intros ty Hne. by rewrite lookup_insert_ne.
Qed.

Lemma register_service_stores_stopped_witness :
  SM.service_registry SM.new_service_manager !! SM.RELEVANCE = Some []
  ∧ SM.services (SM.register_service EX.relevance_1 SM.new_service_manager).2
      !! "relevance_1" = Some (SM.new_instance EX.relevance_1).
Proof.
  split; [reflexivity|].
  pose proof (register_service_stores_stopped EX.relevance_1 SM.new_service_manager []
                eq_refl) as H.
  destruct (SM.register_service EX.relevance_1 SM.new_service_manager) as [r sm'].
  exact (proj1 (proj2 H)).
Defined.

(** A category without a healthy running instance yields an empty list
    of healthy services. *)
Lemma get_healthy_services_nil ty sm :
  (∀ i, i ∈ SM.get_services_by_type ty sm →
        ¬ (SM.status i = SM.RUNNING ∧ SM.health_status i = "healthy")) →
  SM.get_healthy_services ty sm = [].
Proof.
  unfold SM.get_healthy_services.
  induction (SM.get_services_by_type ty sm) as [|i l IH]; intros Hno; [done|].
  simpl. destruct (SM.is_healthy_running i) eqn:Hi.
  - exfalso. apply (Hno i); [left|].
    unfold SM.is_healthy_running in Hi.
    apply andb_prop in Hi as [H1 H2].
    apply bool_decide_eq_true in H1, H2. done.
  - apply IH. intros j Hj. apply Hno. by right.
Qed.

Lemma check_dependencies_loop_unmet deps dep sm :
  dep ∈ deps → SM.get_healthy_services dep sm = [] →
  SM.check_dependencies_loop deps sm = false.
Proof.
  intros Hin Hnil. induction deps as [|d deps IH]; [by apply elem_of_nil in Hin|].
  simpl. apply elem_of_cons in Hin as [<-|Hin].
  - by rewrite Hnil.
  - destruct (SM.get_healthy_services d sm); [done|]. by apply IH.
Qed.

(** A start that is refused at the dependency check changes nothing,
    whatever the status of the instance. *)
Lemma start_service_unmet_unchanged hash now id sm inst dep :
  SM.services sm !! id = Some inst →
  dep ∈ SM.dependencies (SM.config inst) →
  SM.get_healthy_services dep sm = [] →
  SM.start_service hash now id sm = (false, sm).
Proof.
  intros Hid Hdep Hnil. unfold SM.start_service. rewrite Hid.
  destruct (negb (bool_decide (SM.status inst = SM.STOPPED))); [done|].
  unfold SM._check_dependencies.
  by rewrite (check_dependencies_loop_unmet _ dep sm Hdep Hnil).
Qed.

(** C4: starting a STOPPED instance one of whose prerequisite categories
    has no instance that is both RUNNING and healthy fails; the manager is
    left as it was: the instance is still STOPPED, its error counter is
    what it was, and no status change (in particular no STARTING) was
    notified. *)
Theorem start_service_unmet_dependency hash now id sm inst dep :
  SM.services sm !! id = Some inst →
  SM.status inst = SM.STOPPED →
  dep ∈ SM.dependencies (SM.config inst) →
  (∀ i, i ∈ SM.get_services_by_type dep sm →
        ¬ (SM.status i = SM.RUNNING ∧ SM.health_status i = "healthy")) →
  let '(ok, sm') := SM.start_service hash now id sm in
  ok = false
  ∧ (SM.status <$> SM.services sm' !! id) = Some SM.STOPPED
  ∧ (SM.error_count <$> SM.services sm' !! id) = Some (SM.error_count inst)
  ∧ SM.notified sm' = SM.notified sm
  ∧ sm' = sm.
Proof.
  intros Hid Hst Hdep Hno.
  rewrite (start_service_unmet_unchanged hash now id sm inst dep Hid Hdep
             (get_healthy_services_nil dep sm Hno)).
  rewrite Hid. simpl. by rewrite Hst.
Qed.

Lemma start_service_unmet_dependency_witness :
  (SM.start_service EX.hash0 0%Q "sage_1" EX.sm_with_sage).1 = false
  ∧ (SM.status <$> SM.services (SM.start_service EX.hash0 0%Q "sage_1" EX.sm_with_sage).2
       !! "sage_1") = Some SM.STOPPED.
Proof.
  assert (Hno : ∀ i, i ∈ SM.get_services_by_type SM.RELEVANCE EX.sm_with_sage →
                 ¬ (SM.status i = SM.RUNNING ∧ SM.health_status i = "healthy")).
  { intros i Hi [Hrun _]. vm_compute in Hi.
    apply list_elem_of_singleton in Hi. subst i. discriminate Hrun. }
  pose proof (start_service_unmet_dependency EX.hash0 0%Q "sage_1" EX.sm_with_sage
                (SM.new_instance EX.sage_1) SM.RELEVANCE
                eq_refl eq_refl (list_elem_of_here _ _) Hno) as H.
  destruct (SM.start_service EX.hash0 0%Q "sage_1" EX.sm_with_sage) as [ok sm'].
  destruct H as (H1 & H2 & _). by split.
Defined.

(** ** Binary64 arithmetic: rounding is monotone and accurate *)


Lemma pow2_inject k : 0 ≤ k → (2 ^ k == inject_Z (2 ^ k))%Q.
Proof. intros Hk. by rewrite Zpower_Qpower. Qed.

Lemma Qlt_frac n d a b :
  0 < b → n * b < a * Z.pos d → (n # d < inject_Z a / inject_Z b)%Q.
Proof.
  intros Hb H. apply Qlt_shift_div_l.
  - change 0%Q with (inject_Z 0). by rewrite <- Zlt_Qlt.
  - unfold Qlt. simpl. lia.
Qed.

Lemma Qle_frac n d a b :
  0 < b → a * Z.pos d ≤ n * b → (inject_Z a / inject_Z b <= n # d)%Q.
Proof.
  intros Hb H. apply Qle_shift_div_r.
  - change 0%Q with (inject_Z 0). by rewrite <- Zlt_Qlt.
  - unfold Qle. simpl. lia.
Qed.

Lemma Qlog2_spec q :
  (0 < q)%Q → (2 ^ Qlog2 q <= q)%Q ∧ (q < 2 ^ (Qlog2 q + 1))%Q.
Proof.
  intros Hq. destruct q as [n d].
  assert (Hn : 0 < n) by (unfold Qlt in Hq; simpl in Hq; lia).
  unfold Qlog2. cbn [Qnum Qden].
  set (ln := Z.log2 n). set (ld := Z.log2 (Z.pos d)).
  assert (Hln : 0 ≤ ln) by apply Z.log2_nonneg.
  assert (Hld : 0 ≤ ld) by apply Z.log2_nonneg.
  destruct (Z.log2_spec n Hn) as [Hn1 Hn2]. fold ln in Hn1, Hn2.
  destruct (Z.log2_spec (Z.pos d) eq_refl) as [Hd1 Hd2]. fold ld in Hd1, Hd2.
  assert (Hpn : 0 < 2 ^ ln) by (apply Z.pow_pos_nonneg; lia).
  assert (Hpd : 0 < 2 ^ ld) by (apply Z.pow_pos_nonneg; lia).
  rewrite <- Z.add_1_r in Hn2, Hd2.
  assert (Hn2' : 2 ^ (ln + 1) = 2 * 2 ^ ln) by (rewrite Z.pow_add_r by lia; lia).
  assert (Hd2' : 2 ^ (ld + 1) = 2 * 2 ^ ld) by (rewrite Z.pow_add_r by lia; lia).
  assert (Hup : (n # d < 2 ^ (ln - ld + 1))%Q).
  { replace (ln - ld + 1) with ((ln + 1) - ld) by lia.
    rewrite Qpower_minus by done. rewrite !pow2_inject by lia.
    apply Qlt_frac; [done|]. nia. }
  assert (Hlow : (2 ^ (ln - ld - 1) <= n # d)%Q).
  { replace (ln - ld - 1) with (ln - (ld + 1)) by lia.
    rewrite Qpower_minus by done. rewrite !pow2_inject by lia.
    apply Qle_frac; [lia|]. nia. }
  destruct (Qle_bool (2 ^ (ln - ld)) (n # d)) eqn:Hb.
  - apply Qle_bool_iff in Hb. done.
  - split; [done|]. replace (ln - ld - 1 + 1) with (ln - ld) by lia.
    apply Qnot_le_lt. intros Hle. apply Qle_bool_iff in Hle. congruence.
Qed.

Lemma Qlog2_lt q j : (0 < q)%Q → (q < 2 ^ j)%Q → Qlog2 q < j.
Proof.
  intros Hq Hj. destruct (Qlog2_spec q Hq) as [Hl _].
  apply (Qpower_lt_compat_l_inv 2); [|done]. by eapply Qle_lt_trans.
Qed.


























(** ** Load balancer: request accounting *)

Section RequestAccounting.

Implicit Types (lb : LB.LoadBalancer) (id : string) (m : LB.ServiceMetrics).

Lemma metrics_record_request_start lb id id' :
  LB.metrics (LB.record_request_start id lb) !! id' =
  if decide (id = id') then
    Some (let m := default (LB.new_metrics id) (LB.metrics lb !! id) in
          {| LB.instance_id := LB.instance_id m;
             LB.current_connections := LB.current_connections m + 1;
             LB.total_requests := LB.total_requests m;
             LB.average_response_time := LB.average_response_time m;
             LB.cpu_usage := LB.cpu_usage m; LB.memory_usage := LB.memory_usage m;
             LB.cognitive_load := LB.cognitive_load m;
             LB.error_rate := LB.error_rate m;
             LB.last_updated := LB.last_updated m |})
  else LB.metrics lb !! id'.
Proof. unfold LB.record_request_start. simpl. by rewrite lookup_insert. Qed.

Lemma metrics_record_request_end lb id t ok id' :
  LB.metrics (LB.record_request_end id t ok lb) !! id' =
  match LB.metrics lb !! id with
  | None => LB.metrics lb !! id'
  | Some m =>
      if decide (id = id') then
        Some {| LB.instance_id := LB.instance_id m;
                LB.current_connections := Z.max 0 (LB.current_connections m - 1);
                LB.total_requests := LB.total_requests m + 1;
                LB.average_response_time :=
                  fadd (fmul LB.alpha t)
                       (fmul (fsub 1 LB.alpha) (LB.average_response_time m));
                LB.cpu_usage := LB.cpu_usage m; LB.memory_usage := LB.memory_usage m;
                LB.cognitive_load := LB.cognitive_load m;
                LB.error_rate :=
                  if negb ok
                  then fadd (fmul LB.alpha 1.0) (fmul (fsub 1 LB.alpha) (LB.error_rate m))
                  else fmul (fsub 1 LB.alpha) (LB.error_rate m);
                LB.last_updated := LB.last_updated m |}
      else LB.metrics lb !! id'
  end.
Proof.
  unfold LB.record_request_end. destruct (LB.metrics lb !! id); [|done].
  simpl. by rewrite lookup_insert.
Qed.

(** C10: [record_request_end] for an identifier without an entry in the
    metrics table returns the balancer unchanged: no entry is created for
    the identifier and no other entry is touched. *)
Theorem record_request_end_unknown_noop lb id t ok :
  LB.metrics lb !! id = None →
  LB.record_request_end id t ok lb = lb
  ∧ LB.metrics (LB.record_request_end id t ok lb) !! id = None
  ∧ ∀ id', LB.metrics (LB.record_request_end id t ok lb) !! id' = LB.metrics lb !! id'.
Proof.
  intros Hnone.
  assert (LB.record_request_end id t ok lb = lb) as ->.
  { unfold LB.record_request_end. by rewrite Hnone. }
  done.
Qed.

Lemma record_request_end_unknown_noop_witness :
  LB.metrics (LB.new_load_balancer LB.ROUND_ROBIN) !! "ghost" = None
  ∧ LB.record_request_end "ghost" 200%Q true (LB.new_load_balancer LB.ROUND_ROBIN)
    = LB.new_load_balancer LB.ROUND_ROBIN.
Proof.
  split; [reflexivity|].
  exact (proj1 (record_request_end_unknown_noop
                  (LB.new_load_balancer LB.ROUND_ROBIN) "ghost" 200%Q true eq_refl)).
Defined.


Lemma connections_record_request_start lb id id' :
  connections (LB.record_request_start id lb) id'
  = if decide (id = id') then connections lb id' + 1 else connections lb id'.
Proof.
  unfold connections. rewrite metrics_record_request_start.
  case_decide as Hid; [subst id'|done].
  by destruct (LB.metrics lb !! id).
Qed.

Lemma connections_record_request_end lb id t ok id' :
  connections (LB.record_request_end id t ok lb) id'
  = if decide (id = id') then Z.max 0 (connections lb id' - 1) else connections lb id'.
Proof.
  unfold connections. rewrite metrics_record_request_end.
  destruct (LB.metrics lb !! id) as [m|] eqn:Hm.
  - case_decide as Hid; [subst id'|done]. by rewrite Hm.
  - case_decide as Hid; [subst id'|done]. by rewrite Hm.
Qed.




(** A table in which the pair does not restore the count: told [-3] in
    flight by [update_service_metrics], the identifier has 0 in flight
    after a start and an end. *)
Lemma connections_negative_not_restored :
  connections EX.lb_negative "a" = -3
  ∧ connections
      (LB.record_request_end "a" 200%Q true
         (LB.record_request_start "a" EX.lb_negative)) "a" = 0.
Proof. vm_compute. split; reflexivity. Qed.









(** Where the strict steps end.  After 333 consecutive failures the rate
    is [1 - 5 * 2^-53], and the 334th failure leaves it there; a success
    at the rate [5 * 2^-1074] leaves it there as well. *)
Lemma error_rate_stalls :
  (let lb := EX.lb_failures 333 in
   match LB.error_rate <$> LB.metrics lb !! "a",
         LB.error_rate <$> LB.metrics (LB.record_request_end "a" 5000%Q false lb) !! "a"
   with
   | Some r, Some r' => (r == 1 - 5 * 2 ^ (-53))%Q ∧ (r' == r)%Q
   | _, _ => False
   end)
  ∧ (let lb := EX.lb_tiny_rate in
     match LB.error_rate <$> LB.metrics lb !! "a",
           LB.error_rate <$> LB.metrics (LB.record_request_end "a" 120%Q true lb) !! "a"
     with
     | Some r, Some r' => (0 < r)%Q ∧ (r' == r)%Q
     | _, _ => False
     end).
Proof. vm_compute. repeat split. Qed.

(** The scenario of the design document: three failed requests take the
    rate from 0 upwards, three successful ones take it back down.  The
    floats are those that Python prints as 0.1, 0.19, 0.271,
    0.24390000000000003, 0.21951000000000004 and 0.19755900000000004. *)
Example error_rate_three_failures_three_successes :
  let rate evs :=
    LB.error_rate <$>
      LB.metrics (apply_events (RequestStart "a" :: evs)
                    (LB.new_load_balancer LB.ROUND_ROBIN)) !! "a" in
  let bad := RequestEnd "a" 5000%Q false in
  let good := RequestEnd "a" 120%Q true in
  Qred <$> rate [] = Some 0%Q
  ∧ Qred <$> rate [bad] = Some (Qred (Q_of_float 0.1))
  ∧ Qred <$> rate [bad; bad] = Some (Qred (Q_of_float 0.19))
  ∧ Qred <$> rate [bad; bad; bad] = Some (Qred (Q_of_float 0.271))
  ∧ Qred <$> rate [bad; bad; bad; good] = Some (Qred (Q_of_float 0.24390000000000003))
  ∧ Qred <$> rate [bad; bad; bad; good; good]
    = Some (Qred (Q_of_float 0.21951000000000004))
  ∧ Qred <$> rate [bad; bad; bad; good; good; good]
    = Some (Qred (Q_of_float 0.19755900000000004)).
Proof. vm_compute. repeat split. Qed.

(** The model's rounding against the floats of the machine: 340 failed
    ends from rate 0, and 400 successful ends after one failure, give the
    same numbers step by step. *)
Example error_rate_as_on_the_machine :
  EX.agree 340 EX.failed_end EX.failed_end_hw 0%Q 0%float = true
  ∧ EX.agree 400 EX.successful_end EX.successful_end_hw
      (EX.failed_end 0%Q) (EX.failed_end_hw 0%float) = true.
Proof. vm_compute. split; reflexivity. Qed.

End RequestAccounting.

(** ** Load balancer: round robin *)

Lemma py_index_in_range {A} (l : list A) (i : Z) :
  0 ≤ i < Z.of_nat (length l) →
  ∃ x, l !! Z.to_nat i = Some x ∧ py_index l i = Ok x.
Proof.
  intros Hi. unfold py_index.
  assert (Hle : (0 <=? i) = true) by (apply Z.leb_le; lia).
  rewrite Hle. cbv zeta. rewrite Hle.
  destruct (l !! Z.to_nat i) as [x|] eqn:Hx; [by exists x|].
  apply lookup_ge_None in Hx. lia.
Qed.

Lemma ids_of_length l : length (ids_of l) = length l.
Proof. unfold ids_of. apply length_fmap. Qed.

Section RoundRobin.

Variables (sm : SM.ServiceManager) (ty : SM.ServiceType).
Variable ctx : option LB.RequestContext.

Let healthy := SM.get_healthy_services ty sm.
Let ids := ids_of healthy.
Let k := Z.of_nat (length ids).

(** One selection: the answer is the identifier at index [c mod k], and
    the counter moves on by one modulo [k]. *)
Lemma select_round_robin_step lb c :
  LB.strategy lb = LB.ROUND_ROBIN →
  LB.round_robin_counters lb !! ty = Some c →
  healthy ≠ [] →
  ∃ c',
    (LB.select_service_instance (Some sm) ty ctx lb).1 = Ok (ids !! Z.to_nat (c `mod` k))
    ∧ LB.strategy (LB.select_service_instance (Some sm) ty ctx lb).2 = LB.ROUND_ROBIN
    ∧ LB.round_robin_counters (LB.select_service_instance (Some sm) ty ctx lb).2 !! ty
      = Some c'
    ∧ c' `mod` k = (c + 1) `mod` k.
Proof.
  intros Hstrat Hc Hne. unfold k, ids. rewrite ids_of_length.
  unfold LB.select_service_instance. fold healthy.
  destruct healthy as [|a [|b l]] eqn:Hh; [done| |].
  - exists c. simpl. rewrite !Z.mod_1_r. simpl. done.
  - rewrite Hstrat. unfold LB._round_robin_select. rewrite Hc.
    set (insts := a :: b :: l).
    assert (Hlen : 2 ≤ Z.of_nat (length insts)) by (simpl; lia).
    destruct (Z.of_nat (length insts) =? 0) eqn:Hz; [lia|].
    destruct (py_index_in_range insts (c `mod` Z.of_nat (length insts)))
      as (x & Hx & ->).
    { apply Z.mod_pos_bound. lia. }
    exists ((c + 1) `mod` Z.of_nat (length insts)). simpl.
    split; [|split; [done|split]].
    + change (Ok (Some (SM.instance_id (SM.config x)))
              = Ok (ids_of insts !! Z.to_nat (c `mod` Z.of_nat (length insts)))).
      unfold ids_of. by rewrite list_lookup_fmap, Hx.
    + by rewrite lookup_insert_eq.
    + apply Z.mod_mod. lia.
Qed.

(** The state after [n] selections. *)
Lemma after_selects_round_robin lb c n :
  LB.strategy lb = LB.ROUND_ROBIN →
  LB.round_robin_counters lb !! ty = Some c →
  healthy ≠ [] →
  ∃ c',
    LB.strategy (after_selects (Some sm) ty ctx n lb) = LB.ROUND_ROBIN
    ∧ LB.round_robin_counters (after_selects (Some sm) ty ctx n lb) !! ty = Some c'
    ∧ c' `mod` k = (c + Z.of_nat n) `mod` k.
Proof.
  intros Hstrat Hc Hne. induction n as [|n (c' & IH1 & IH2 & IH3)].
  - exists c. simpl. by rewrite Z.add_0_r.
  - destruct (select_round_robin_step _ c' IH1 IH2 Hne) as (c'' & _ & H1 & H2 & H3).
    exists c''. unfold after_selects in *. simpl. split; [done|split; [done|]].
    rewrite H3. rewrite <- Zplus_mod_idemp_l, IH3, Zplus_mod_idemp_l.
    f_equal. lia.
Qed.

Lemma nth_select_round_robin lb c n :
  LB.strategy lb = LB.ROUND_ROBIN →
  LB.round_robin_counters lb !! ty = Some c →
  healthy ≠ [] →
  nth_select (Some sm) ty ctx n lb = Ok (ids !! Z.to_nat ((c + Z.of_nat n) `mod` k)).
Proof.
  intros Hstrat Hc Hne.
  destruct (after_selects_round_robin lb c n Hstrat Hc Hne) as (c' & H1 & H2 & H3).
  destruct (select_round_robin_step _ c' H1 H2 Hne) as (_ & Hr & _).
  unfold nth_select. by rewrite Hr, H3.
Qed.

Lemma k_positive : healthy ≠ [] → 0 < k.
Proof.
  intros Hne. unfold k, ids. rewrite ids_of_length.
  destruct healthy; [done|simpl; lia].
Qed.

(** C5: under round robin, with a non-empty list of [k] healthy
    instances that does not change, the call number [n] (counting from 0)
    returns the identifier at index [(c + n) mod k] of the list, where [c]
    is the counter of the category before the first call ([c = 0] in a
    new balancer).  Hence any [k] consecutive calls return the list of
    identifiers rotated to the current position, each entry once and in
    list order; from position 0 they return the list itself; and the
    answers repeat with period [k]. *)
Theorem round_robin_cycle lb c :
  LB.strategy lb = LB.ROUND_ROBIN →
  LB.round_robin_counters lb !! ty = Some c →
  healthy ≠ [] →
  (∀ n, nth_select (Some sm) ty ctx n lb
        = Ok (ids !! Z.to_nat ((c + Z.of_nat n) `mod` k)))
  ∧ (∀ n, (λ j, nth_select (Some sm) ty ctx (n + j) lb) <$> seq 0 (length ids)
          = (λ id, Ok (Some id)) <$> rotate (Z.to_nat ((c + Z.of_nat n) `mod` k)) ids)
  ∧ (c `mod` k = 0 →
       (λ j, nth_select (Some sm) ty ctx j lb) <$> seq 0 (length ids)
       = (λ id, Ok (Some id)) <$> ids)
  ∧ (∀ n, nth_select (Some sm) ty ctx (n + length ids) lb
          = nth_select (Some sm) ty ctx n lb).
Proof.
  intros Hstrat Hc Hne.
  pose proof (k_positive Hne) as Hk.
  assert (Hnth := λ n, nth_select_round_robin lb c n Hstrat Hc Hne).
  assert (Hrot : ∀ n, (λ j, nth_select (Some sm) ty ctx (n + j) lb) <$> seq 0 (length ids)
          = (λ id, Ok (Some id)) <$> rotate (Z.to_nat ((c + Z.of_nat n) `mod` k)) ids).
  { intros n. apply list_eq. intros j.
    rewrite !list_lookup_fmap.
    destruct (decide (j < length ids)%nat) as [Hj|Hj].
    - rewrite lookup_seq_lt by done. simpl.
      rewrite lookup_rotate_r by done. rewrite Hnth.
      unfold rotate_nat_add. fold k.
      rewrite Z2Nat.id by (apply Z.mod_pos_bound; lia).
      rewrite Zplus_mod_idemp_l.
      replace (c + Z.of_nat (n + j)) with (c + Z.of_nat n + Z.of_nat j) by lia.
      destruct (ids !! Z.to_nat ((c + Z.of_nat n + Z.of_nat j) `mod` k)) as [id|] eqn:Hid;
        [done|].
      apply lookup_ge_None in Hid.
      pose proof (Z.mod_pos_bound (c + Z.of_nat n + Z.of_nat j) k Hk). unfold k in *. lia.
    - rewrite lookup_seq_ge by lia.
      rewrite (lookup_ge_None_2 (rotate _ _)); [done|].
      rewrite length_rotate. lia. }
  split; [done|]. split; [done|]. split.
  - intros Hc0. specialize (Hrot 0%nat). simpl in Hrot.
    rewrite Z.add_0_r, Hc0 in Hrot. rewrite Hrot. f_equal.
    unfold rotate. simpl. rewrite Nat.Div0.mod_0_l. simpl. by rewrite app_nil_r.
  - intros n. rewrite !Hnth. do 3 f_equal.
    rewrite Nat2Z.inj_add. fold k.
    rewrite Z.add_assoc, <- Zplus_mod_idemp_r, Z_mod_same_full, Z.add_0_r. done.
Qed.

End RoundRobin.

Lemma round_robin_cycle_witness :
  (λ j, nth_select (Some EX.sm_three) SM.WISDOM None j
          (LB.new_load_balancer LB.ROUND_ROBIN)) <$> seq 0 3
  = [Ok (Some "instance_1"); Ok (Some "instance_2"); Ok (Some "instance_3")].
Proof.
  assert (Hne : SM.get_healthy_services SM.WISDOM EX.sm_three ≠ []).
  { vm_compute. discriminate. }
  exact (proj1 (proj2 (proj2
    (round_robin_cycle EX.sm_three SM.WISDOM None (LB.new_load_balancer LB.ROUND_ROBIN) 0
       eq_refl eq_refl Hne))) eq_refl).
Defined.

(** ** Load balancer: least response time *)

Lemma ext_le_refl a : ext_le a a.
Proof. destruct a; simpl; [lra|done]. Qed.

Lemma ext_le_trans a b c : ext_le a b → ext_le b c → ext_le a c.
Proof. destruct a, b, c; simpl; try done. lra. Qed.

Lemma ext_ltb_true_le a b : ext_ltb a b = true → ext_le a b.
Proof.
  destruct a as [x|], b as [y|]; simpl; try done.
  intros H. apply negb_true_iff in H.
  destruct (Qlt_le_dec x y) as [Hlt|Hle]; [lra|].
  apply Qle_bool_iff in Hle. congruence.
Qed.

Lemma ext_ltb_false_le a b : ext_ltb a b = false → ext_le b a.
Proof.
  destruct a as [x|], b as [y|]; simpl; try done.
  intros H. apply negb_false_iff in H. by apply Qle_bool_iff.
Qed.

Lemma ext_ltb_Inf_false a : ext_ltb a Inf = false → a = Inf.
Proof. by destruct a. Qed.

(** The scan returns the first instance of minimal score, or nothing when
    no score is below the initial bound. *)
Lemma select_min_loop_spec score l best bs :
  match best with Some b => bs = score b | None => bs = Inf end →
  match LB.select_min_loop score l best bs with
  | Some r =>
      (Some r = best ∨ r ∈ l) ∧ ext_le (score r) bs
      ∧ ∀ x, x ∈ l → ext_le (score r) (score x)
  | None => best = None ∧ ∀ x, x ∈ l → score x = Inf
  end.
Proof.
  revert best bs. induction l as [|i rest IH]; intros best bs Hinv; simpl.
  - destruct best as [b|].
    + subst bs. split; [by left|]. split; [apply ext_le_refl|].
      intros x Hx. by apply elem_of_nil in Hx.
    + split; [done|]. intros x Hx. by apply elem_of_nil in Hx.
  - destruct (ext_ltb (score i) bs) eqn:Hlt.
    + specialize (IH (Some i) (score i) eq_refl).
      destruct (LB.select_min_loop score rest (Some i) (score i)) as [r|];
        [|by destruct IH].
      destruct IH as (Hr & Hle & Hall).
      split; [|split].
      * right. destruct Hr as [[= ->]|Hr]; [left|by right].
      * eapply ext_le_trans; [exact Hle|]. by apply ext_ltb_true_le.
      * intros x Hx. apply elem_of_cons in Hx as [->|Hx]; [done|by apply Hall].
    + specialize (IH best bs Hinv).
      destruct (LB.select_min_loop score rest best bs) as [r|].
      * destruct IH as (Hr & Hle & Hall).
        split; [|split; [done|]].
        -- destruct Hr as [Hr|Hr]; [by left|right; by right].
        -- intros x Hx. apply elem_of_cons in Hx as [->|Hx]; [|by apply Hall].
           eapply ext_le_trans; [exact Hle|]. by apply ext_ltb_false_le.
      * destruct IH as (-> & Hall). split; [done|].
        intros x Hx. apply elem_of_cons in Hx as [->|Hx]; [|by apply Hall].
        subst bs. by apply ext_ltb_Inf_false.
Qed.






(** An instance that was never sampled and has no metrics entry does not
    compete with 100ms: against an instance averaging 150ms it loses,
    while the same instance with an entry of average 0 wins. *)
Lemma least_response_time_no_entry_loses :
  LB.select_service_instance (Some EX.sm_two) SM.WISDOM None EX.lb_slow_alone
  = (Ok (Some "instance_1"), EX.lb_slow_alone)
  ∧ LB.select_service_instance (Some EX.sm_two) SM.WISDOM None EX.lb_slow
    = (Ok (Some "instance_2"), EX.lb_slow).
Proof. vm_compute. split; reflexivity. Qed.

(** ** Health monitor *)

Section HealthClassification.

Variable format_float : string → Q → string.
Variable th : gmap string HM.Threshold.
Variable snapshot : gmap string Q.

Lemma worst_of_snoc l s :
  worst_of (l ++ [s]) =
  match s with
  | HM.CRITICAL => HM.CRITICAL
  | HM.WARNING => if bool_decide (worst_of l ≠ HM.CRITICAL) then HM.WARNING else worst_of l
  | HM.HEALTHY | HM.UNKNOWN => worst_of l
  end.
Proof.
  unfold worst_of.
  destruct s; repeat case_bool_decide; try done;
    repeat match goal with
           | H : _ ∈ _ ++ [_] |- _ =>
               apply elem_of_app in H as [H|H%list_elem_of_singleton]
           | H : ¬ (_ ∈ _ ++ [_]) |- _ =>
               rewrite elem_of_app, list_elem_of_singleton in H
           end; try done; naive_solver.
Qed.

Lemma evaluate_metric_status_not_unknown m :
  HM._evaluate_metric_status m ≠ HM.UNKNOWN.
Proof.
  unfold HM._evaluate_metric_status.
  destruct (Qle_bool _ _); [done|]. by destruct (Qle_bool _ _).
Qed.

(** One block appends its metric and keeps the overall status the worst
    of the statuses of the metrics evaluated so far. *)
Lemma check_metric_spec ck t st :
  th !! HM.ck_name ck = Some t →
  overall_is_worst st →
  ∃ st',
    HM.check_metric format_float th snapshot ck st = Ok st'
    ∧ overall_is_worst st'
    ∧ HM.cs_metrics st' = HM.cs_metrics st ++ [metric_for snapshot ck t].
Proof.
  intros Ht Hinv. unfold HM.check_metric. rewrite Ht.
  change (HM.mkHealthMetric _ _ _ _ _ _) with (metric_for snapshot ck t).
  set (metric := metric_for snapshot ck t).
  unfold overall_is_worst in *.
  destruct (HM._evaluate_metric_status metric) eqn:Hs.
  - eexists. split; [reflexivity|]. split; [|reflexivity]. simpl.
    by rewrite fmap_snoc, worst_of_snoc, Hs.
  - case_bool_decide as Hc; eexists; (split; [reflexivity|]);
      (split; [|reflexivity]); simpl;
      rewrite fmap_snoc, worst_of_snoc, Hs, <- Hinv.
    + by rewrite bool_decide_true.
    + case_bool_decide; done.
  - eexists. split; [reflexivity|]. split; [|reflexivity]. simpl.
    by rewrite fmap_snoc, worst_of_snoc, Hs.
  - by apply evaluate_metric_status_not_unknown in Hs.
Qed.

(** The blocks in sequence: either all thresholds are there, every
    metric is appended and the overall status is the worst status; or the
    sequence stops with an exception. *)
Lemma run_checks_spec cks st :
  overall_is_worst st →
  match HM.run_checks format_float th snapshot cks st with
  | (st', None) =>
      overall_is_worst st'
      ∧ ∃ ms, HM.cs_metrics st' = HM.cs_metrics st ++ ms
          ∧ Forall2 (λ ck m, ∃ t, th !! HM.ck_name ck = Some t ∧ m = metric_for snapshot ck t) cks ms
  | (_, Some _) => ∃ ck, ck ∈ cks ∧ th !! HM.ck_name ck = None
  end.
Proof.
  revert st. induction cks as [|ck cks IH]; intros st Hinv; simpl.
  - split; [done|]. exists []. split; [by rewrite app_nil_r|constructor].
  - destruct (th !! HM.ck_name ck) as [t|] eqn:Ht.
    + destruct (check_metric_spec ck t st Ht Hinv) as (st' & -> & Hinv' & Hms).
      specialize (IH st' Hinv').
      destruct (HM.run_checks format_float th snapshot cks st') as [st'' [e|]].
      * destruct IH as (ck' & Hin & Hnone). exists ck'. split; [by right|done].
      * destruct IH as (Hinv'' & ms & Hms' & Hall). split; [done|].
        exists (metric_for snapshot ck t :: ms). split.
        -- rewrite Hms', Hms, <- app_assoc. done.
        -- constructor; [by exists t|done].
    + unfold HM.check_metric. rewrite Ht. exists ck. split; [left|done].
Qed.

(** C8: if one of the five evaluated metrics has a value at or past its
    critical threshold, the report of the per-instance health check is
    never HEALTHY, whatever the other metrics are.  When no exception
    interrupts the check, the report lists the five metrics and its
    status is the worst of their statuses, critical above warning above
    healthy. *)
Theorem critical_metric_never_healthy now ck t :
  ck ∈ HM.evaluated_checks →
  th !! HM.ck_name ck = Some t →
  (HM.critical t <= default 0 (snapshot !! HM.ck_key ck))%Q →
  let report := HM._check_service_health format_float now th (Ok snapshot) in
  HM.status report ≠ HM.HEALTHY
  ∧ (HM.status report ≠ HM.UNKNOWN →
       HM.status report = HM.CRITICAL
       ∧ HM.status report = worst_of (HM._evaluate_metric_status <$> HM.metrics report)
       ∧ Forall2 (λ ck m, ∃ t, th !! HM.ck_name ck = Some t ∧ m = metric_for snapshot ck t)
           HM.evaluated_checks (HM.metrics report)).
Proof.
  intros Hck Ht Hcrit report. subst report. unfold HM._check_service_health.
  set (init := HM.mkCheckState _ _ _ _).
  assert (Hinit : overall_is_worst init) by done.
  pose proof (run_checks_spec HM.evaluated_checks init Hinit) as Hrun.
  destruct (HM.run_checks format_float th snapshot HM.evaluated_checks init)
    as [st [e|]]; simpl; [done|].
  destruct Hrun as (Hworst & ms & Hms & Hall). simpl in Hms. subst ms.
  assert (Hin : metric_for snapshot ck t ∈ HM.cs_metrics st).
  { apply list_elem_of_lookup in Hck as [i Hi].
    destruct (Forall2_lookup_l _ _ _ _ _ Hall Hi) as (m & Hm & t' & Ht' & ->).
    rewrite Ht in Ht'. injection Ht' as <-.
    apply list_elem_of_lookup. by exists i. }
  assert (Hc : HM.cs_overall_status st = HM.CRITICAL).
  { rewrite Hworst. unfold worst_of. rewrite bool_decide_true; [done|].
    apply list_elem_of_fmap. exists (metric_for snapshot ck t). split; [|done].
    unfold HM._evaluate_metric_status. simpl.
    apply Qle_bool_iff in Hcrit. by rewrite Hcrit. }
  split; [by rewrite Hc|]. intros _. by rewrite <- Hworst.
Qed.

End HealthClassification.

Lemma critical_metric_never_healthy_witness :
  HM.status (HM._check_service_health EX.no_format 0%Q HM.default_thresholds
               (Ok EX.hot_cpu)) = HM.CRITICAL.
Proof.
  refine (proj1 (proj2 (critical_metric_never_healthy EX.no_format HM.default_thresholds
                          EX.hot_cpu 0%Q HM.cpu_check
                          {| HM.warning := 70.0; HM.critical := 90.0 |} _ _ _) _)).
  - left.
  - vm_compute. reflexivity.
  - vm_compute. discriminate.
  - vm_compute. discriminate.
Defined.

(** ** Health monitor: the system-wide report *)

Section SystemHealth.

Implicit Types (reports : gmap string HM.HealthReport) (s : HM.HealthStatus).

Lemma status_count_pos s reports :
  (0 <? HM.status_count s reports) = true ↔ some_report s reports.
Proof.
  unfold HM.status_count, some_report. rewrite Z.ltb_lt. split.
  - intros Hpos.
    destruct (map_choose (filter (λ kv, HM.status kv.2 = s) reports)) as (id & r & Hr).
    { intros Hempty. rewrite Hempty, map_size_empty in Hpos. lia. }
    apply map_lookup_filter_Some in Hr as [Hr Hs]. by exists id, r.
  - intros (id & r & Hr & Hs).
    assert (size (filter (λ kv, HM.status kv.2 = s) reports) ≠ 0%nat); [|lia].
    apply (map_size_ne_0_lookup_2 _ id). exists r.
    by apply map_lookup_filter_Some.
Qed.

Lemma status_count_all s reports :
  (HM.status_count s reports =? Z.of_nat (size reports)) = true ↔ all_reports s reports.
Proof.
  unfold HM.status_count, all_reports. rewrite Z.eqb_eq, Nat2Z.inj_iff. split.
  - intros Hsize id r Hr.
    assert (Heq : filter (λ kv, HM.status kv.2 = s) reports = reports).
    { apply map_subseteq_size_eq; [apply map_filter_subseteq|lia]. }
    rewrite <- Heq in Hr. by apply map_lookup_filter_Some in Hr as [_ Hs].
  - intros Hall. by rewrite map_filter_id.
Qed.

(** The status chosen for a non-empty cache. *)
Lemma overall_system_status_spec reports :
  let st := HM.overall_system_status reports in
  (some_report HM.CRITICAL reports → st = HM.CRITICAL)
  ∧ (¬ some_report HM.CRITICAL reports → some_report HM.WARNING reports →
     st = HM.WARNING)
  ∧ (¬ some_report HM.CRITICAL reports → ¬ some_report HM.WARNING reports →
     all_reports HM.UNKNOWN reports → st = HM.UNKNOWN)
  ∧ (¬ some_report HM.CRITICAL reports → ¬ some_report HM.WARNING reports →
     ¬ all_reports HM.UNKNOWN reports → st = HM.HEALTHY).
Proof.
  unfold HM.overall_system_status. cbv zeta.
  destruct (0 <? HM.status_count HM.CRITICAL reports) eqn:Ec.
  { apply status_count_pos in Ec. naive_solver. }
  assert (Hnc : ¬ some_report HM.CRITICAL reports).
  { rewrite <- status_count_pos. congruence. }
  destruct (0 <? HM.status_count HM.WARNING reports) eqn:Ew.
  { apply status_count_pos in Ew. naive_solver. }
  assert (Hnw : ¬ some_report HM.WARNING reports).
  { rewrite <- status_count_pos. congruence. }
  destruct (HM.status_count HM.UNKNOWN reports =? Z.of_nat (size reports)) eqn:Eu.
  { apply status_count_all in Eu. naive_solver. }
  assert (Hnu : ¬ all_reports HM.UNKNOWN reports).
  { rewrite <- status_count_all. congruence. }
  naive_solver.
Qed.

(** C9: the system-wide report is UNKNOWN for an empty cache; for a
    non-empty cache it is CRITICAL if some cached report is CRITICAL,
    else WARNING if some cached report is WARNING, and it is UNKNOWN
    exactly when every cached report is UNKNOWN (HEALTHY in the remaining
    case). *)
Theorem system_health_is_worst now hm :
  let reports := HM.service_reports hm in
  ∃ r, HM.system_report (HM._update_system_health now hm) = Some r
    ∧ (reports = ∅ → HM.status r = HM.UNKNOWN)
    ∧ (reports ≠ ∅ →
         (some_report HM.CRITICAL reports → HM.status r = HM.CRITICAL)
         ∧ (¬ some_report HM.CRITICAL reports → some_report HM.WARNING reports →
            HM.status r = HM.WARNING)
         ∧ (HM.status r = HM.UNKNOWN ↔ all_reports HM.UNKNOWN reports)
         ∧ (¬ some_report HM.CRITICAL reports → ¬ some_report HM.WARNING reports →
            ¬ all_reports HM.UNKNOWN reports → HM.status r = HM.HEALTHY)).
Proof.
  intros reports. unfold HM._update_system_health. fold reports.
  eexists. split; [reflexivity|]. simpl.
  case_bool_decide as Hsize.
  - apply map_size_empty_iff in Hsize. split; [done|]. by intros ?.
  - split; [intros ->; by rewrite map_size_empty in Hsize|]. intros Hne. simpl.
    destruct (overall_system_status_spec reports) as (Hc & Hw & Hu & Hh).
    split; [done|]. split; [done|]. split; [|done]. split.
    + intros Hst.
      destruct (decide ((0 <? HM.status_count HM.CRITICAL reports) = true)) as [Hcr|Hcr].
      { apply status_count_pos in Hcr. rewrite (Hc Hcr) in Hst. done. }
      rewrite status_count_pos in Hcr.
      destruct (decide ((0 <? HM.status_count HM.WARNING reports) = true)) as [Hwa|Hwa].
      { apply status_count_pos in Hwa. rewrite (Hw Hcr Hwa) in Hst. done. }
      rewrite status_count_pos in Hwa.
      destruct (decide ((HM.status_count HM.UNKNOWN reports =? Z.of_nat (size reports)) = true))
        as [Hun|Hun].
      { by apply status_count_all in Hun. }
      rewrite status_count_all in Hun. rewrite (Hh Hcr Hwa Hun) in Hst. done.
    + intros Hall. apply Hu; [| |done].
      * intros (id & r & Hr & Hs). rewrite (Hall id r Hr) in Hs. done.
      * intros (id & r & Hr & Hs). rewrite (Hall id r Hr) in Hs. done.
Qed.

End SystemHealth.

(** ** Orchestrator: the processing pipeline *)

(** The simulation that the repository ships as the processing
    capability always returns a result mapping: a step that raises needs
    another capability behind [_process_with_service]. *)
Lemma simulation_never_raises ty content context intermediate :
  ∃ r, OR._process_with_service ty content context intermediate = Ok r.
Proof. unfold OR._process_with_service. eauto. Qed.

Lemma successes_app l1 l2 : successes (l1 ++ l2) = successes l1 ++ successes l2.
Proof. unfold successes. apply omap_app. Qed.

Lemma successes_all l :
  Forall (λ o, ∃ r, o = Succeeded r) l → length (successes l) = length l.
Proof.
  induction 1 as [|o l [r ->] _ IH]; [done|]. simpl. by rewrite IH.
Qed.

(** With one failed step and all others succeeded, the successful
    results are one fewer than the steps. *)
Lemma successes_one_failed outs i e :
  outs !! i = Some (Failed e) →
  (∀ j, j ≠ i → (j < length outs)%nat → ∃ r, outs !! j = Some (Succeeded r)) →
  length (successes outs) = (length outs - 1)%nat.
Proof.
  intros Hi Hothers.
  pose proof (lookup_lt_Some _ _ _ Hi) as Hlt.
  rewrite <- (take_drop_middle outs i (Failed e) Hi) at 1.
  rewrite successes_app. simpl. rewrite length_app.
  change (omap _ (drop (S i) outs)) with (successes (drop (S i) outs)).
  rewrite !successes_all.
  - rewrite length_take, length_drop. lia.
  - apply Forall_lookup. intros j o Hj. rewrite lookup_drop in Hj.
    destruct (Hothers (S i + j)%nat) as [r Hr]; [lia|by eapply lookup_lt_Some|].
    exists r. congruence.
  - apply Forall_lookup. intros j o Hj.
    apply lookup_take_Some in Hj as [Hj Hji].
    destruct (Hothers j) as [r Hr]; [lia|lia|]. exists r. congruence.
Qed.

Section Pipeline.

Variable clock : nat → datetime.
Variable process_with_service :
  SM.ServiceType → string → gmap string PyValue →
  gmap string (gmap string PyValue) → outcome (gmap string PyValue).
Variable sm : SM.ServiceManager.
Variable lb_sm : option SM.ServiceManager.

#[local] Abbreviation execute_step := (OR.execute_step clock process_with_service sm).
#[local] Abbreviation execute_loop := (OR.execute_loop clock process_with_service sm).
#[local] Abbreviation outcomes := (step_outcomes process_with_service sm).

Implicit Types (request : OR.CognitiveRequest) (st : OR.exec_state) (w : OR.World).

(** A step whose instance the manager does not know changes nothing. *)
Lemma execute_step_skipped request id st :
  SM.services sm !! id = None → execute_step request id st = st.
Proof. intros Hid. unfold OR.execute_step. by rewrite Hid. Qed.

(** A step whose processing call raises: the aggregate and the
    intermediate results are left alone, and the balancer gets a request
    start followed by a failed request end of 5000ms. *)
Lemma execute_step_failed request id st instance e :
  SM.services sm !! id = Some instance →
  process_with_service (SM.service_type (SM.config instance)) (OR.content request)
    (OR.context request) (OR.ex_intermediate_results st) = Raise e →
  OR.ex_result (execute_step request id st) = OR.ex_result st
  ∧ OR.ex_intermediate_results (execute_step request id st) = OR.ex_intermediate_results st
  ∧ OR.load_balancer (OR.ex_world (execute_step request id st))
    = LB.record_request_end id 5000%Q false
        (LB.record_request_start id (OR.load_balancer (OR.ex_world st)))
  ∧ OR.processing_stats (OR.ex_world (execute_step request id st))
    = OR.processing_stats (OR.ex_world st).
Proof.
  intros Hid Hraise. unfold OR.execute_step. rewrite Hid. simpl. by rewrite Hraise.
Qed.

(** A step whose processing call returns: its result is merged over the
    aggregate and filed under its category. *)
Lemma execute_step_succeeded request id st instance r :
  SM.services sm !! id = Some instance →
  process_with_service (SM.service_type (SM.config instance)) (OR.content request)
    (OR.context request) (OR.ex_intermediate_results st) = Ok r →
  OR.ex_result (execute_step request id st) = r ∪ OR.ex_result st
  ∧ OR.ex_intermediate_results (execute_step request id st)
    = <[SM.ServiceType_value (SM.service_type (SM.config instance)) := r]>
        (OR.ex_intermediate_results st)
  ∧ OR.processing_stats (OR.ex_world (execute_step request id st))
    = OR.processing_stats (OR.ex_world st).
Proof.
  intros Hid Hok. unfold OR.execute_step. rewrite Hid. simpl. by rewrite Hok.
Qed.

Lemma execute_step_processing_stats request id st :
  OR.processing_stats (OR.ex_world (execute_step request id st))
  = OR.processing_stats (OR.ex_world st).
Proof.
  destruct (SM.services sm !! id) as [instance|] eqn:Hid;
    [|by rewrite execute_step_skipped].
  destruct (process_with_service (SM.service_type (SM.config instance))
              (OR.content request) (OR.context request)
              (OR.ex_intermediate_results st)) as [r|e] eqn:Hp.
  - by destruct (execute_step_succeeded request id st instance r Hid Hp) as (_ & _ & ->).
  - by destruct (execute_step_failed request id st instance e Hid Hp) as (_ & _ & _ & ->).
Qed.

Lemma execute_loop_processing_stats request pipeline st :
  OR.processing_stats (OR.ex_world (execute_loop request pipeline st))
  = OR.processing_stats (OR.ex_world st).
Proof.
  revert st. induction pipeline as [|id rest IH]; intros st; simpl; [done|].
  by rewrite IH, execute_step_processing_stats.
Qed.

Lemma execute_loop_app request l1 l2 st :
  execute_loop request (l1 ++ l2) st
  = execute_loop request l2 (execute_loop request l1 st).
Proof. revert st. induction l1 as [|id l1 IH]; intros st; simpl; [done|apply IH]. Qed.

Lemma outcomes_length request pipeline im :
  length (outcomes request pipeline im) = length pipeline.
Proof.
  revert im. induction pipeline as [|id rest IH]; intros im; simpl; [done|].
  destruct (SM.services sm !! id) as [instance|]; [|simpl; by rewrite IH].
  destruct (process_with_service _ _ _ _); simpl; by rewrite IH.
Qed.

(** The outcomes of a pipeline in two parts: the second part is entered
    with the intermediate results that the first part leaves. *)
Lemma outcomes_app request l1 l2 st :
  outcomes request (l1 ++ l2) (OR.ex_intermediate_results st)
  = outcomes request l1 (OR.ex_intermediate_results st)
    ++ outcomes request l2
         (OR.ex_intermediate_results (execute_loop request l1 st)).
Proof.
  revert st. induction l1 as [|id l1 IH]; intros st; simpl; [done|].
  destruct (SM.services sm !! id) as [instance|] eqn:Hid.
  - destruct (process_with_service (SM.service_type (SM.config instance))
                (OR.content request) (OR.context request)
                (OR.ex_intermediate_results st)) as [r|e] eqn:Hp.
    + destruct (execute_step_succeeded request id st instance r Hid Hp) as (_ & Him & _).
      simpl. f_equal. rewrite <- Him. apply IH.
    + destruct (execute_step_failed request id st instance e Hid Hp) as (_ & Him & _).
      simpl. f_equal. rewrite <- Him. apply IH.
  - rewrite (execute_step_skipped request id st Hid). simpl. f_equal. apply IH.
Qed.

(** The aggregate that the loop returns is the merge, in order, of the
    results of the steps that succeeded. *)
Lemma execute_loop_result request pipeline st :
  OR.ex_result (execute_loop request pipeline st)
  = foldl (λ acc r, r ∪ acc) (OR.ex_result st)
      (successes (outcomes request pipeline (OR.ex_intermediate_results st))).
Proof.
  revert st. induction pipeline as [|id rest IH]; intros st; simpl; [done|].
  rewrite IH. destruct (SM.services sm !! id) as [instance|] eqn:Hid.
  - destruct (process_with_service (SM.service_type (SM.config instance))
                (OR.content request) (OR.context request)
                (OR.ex_intermediate_results st)) as [r|e] eqn:Hp.
    + destruct (execute_step_succeeded request id st instance r Hid Hp)
        as (-> & -> & _). done.
    + destruct (execute_step_failed request id st instance e Hid Hp)
        as (-> & -> & _). done.
  - by rewrite execute_step_skipped.
Qed.

(** The [try] body of [process_request] when planning returns a
    pipeline and the request counter is not zero. *)
Lemma process_request_body_ok request start w pipeline lb1 :
  OR.total_requests (OR.processing_stats w) ≠ 0 →
  OR._plan_processing_pipeline lb_sm (OR.with_required_services request)
    (OR.load_balancer w) = (Ok pipeline, lb1) →
  ∃ response w',
    OR.process_request_body clock process_with_service sm lb_sm request start w
    = (Ok response, w')
    ∧ OR.status response = "success"
    ∧ OR.services_used response = pipeline
    ∧ OR.result response
      = OR.ex_result (execute_loop (OR.with_required_services request) pipeline
                        (exec_init (OR.set_load_balancer lb1 w)))
    ∧ OR.errors response = []
    ∧ OR.load_balancer w'
      = OR.load_balancer
          (OR.ex_world (execute_loop (OR.with_required_services request) pipeline
                          (exec_init (OR.set_load_balancer lb1 w)))).
Proof.
  intros Htot Hplan. unfold OR.process_request_body. rewrite Hplan.
  unfold OR._execute_pipeline. fold (exec_init (OR.set_load_balancer lb1 w)).
  set (st := execute_loop _ pipeline _).
  assert (Hstats : OR.processing_stats (OR.ex_world st) = OR.processing_stats w).
  { unfold st. by rewrite execute_loop_processing_stats. }
  cbn [OR.now fst snd OR.set_processing_stats OR.processing_stats
       OR._update_average_processing_time OR.total_requests].
  rewrite Hstats.
  assert (Hz : (OR.total_requests (OR.processing_stats w) =? 0) = false)
    by by apply Z.eqb_neq.
  unfold OR._update_average_processing_time. cbn [OR.total_requests]. rewrite Hz.
  eexists _, _. split; [reflexivity|]. by repeat split.
Qed.

Lemma outcomes_head_failed request id rest im e :
  outcomes request (id :: rest) im !! 0%nat = Some (Failed e) →
  ∃ instance,
    SM.services sm !! id = Some instance
    ∧ process_with_service (SM.service_type (SM.config instance)) (OR.content request)
        (OR.context request) im = Raise e.
Proof.
  simpl. destruct (SM.services sm !! id) as [instance|]; [|done].
  destruct (process_with_service _ _ _ _) as [r|e'] eqn:Hp; [done|].
  intros [= ->]. by exists instance.
Qed.

(** The step number [i] of a pipeline, when its outcome is a failure. *)
Lemma failing_step_recorded request pipeline w i e :
  outcomes request pipeline ∅ !! i = Some (Failed e) →
  ∃ id,
    pipeline !! i = Some id
    ∧ OR.ex_result (execute_loop request (take (S i) pipeline) (exec_init w))
      = OR.ex_result (execute_loop request (take i pipeline) (exec_init w))
    ∧ OR.load_balancer
        (OR.ex_world (execute_loop request (take (S i) pipeline) (exec_init w)))
      = LB.record_request_end id 5000%Q false
          (LB.record_request_start id
             (OR.load_balancer
                (OR.ex_world (execute_loop request (take i pipeline) (exec_init w))))).
Proof.
  intros Hi.
  assert (Hlt : (i < length pipeline)%nat).
  { rewrite <- (outcomes_length request pipeline ∅). by eapply lookup_lt_Some. }
  destruct (lookup_lt_is_Some_2 pipeline i Hlt) as [id Hid].
  exists id. split; [done|].
  rewrite (take_S_r _ _ _ Hid), execute_loop_app. simpl.
  set (before := execute_loop request (take i pipeline) (exec_init w)).
  rewrite <- (take_drop i pipeline) in Hi.
  change ∅ with (OR.ex_intermediate_results (exec_init w)) in Hi.
  rewrite outcomes_app in Hi. fold before in Hi.
  rewrite lookup_app_r in Hi by (rewrite outcomes_length, length_take; lia).
  rewrite outcomes_length, length_take, Nat.min_l, Nat.sub_diag in Hi by lia.
  rewrite (drop_S _ _ _ Hid) in Hi.
  destruct (outcomes_head_failed _ _ _ _ _ Hi) as (instance & Hinst & Hraise).
  by destruct (execute_step_failed request id before instance e Hinst Hraise)
    as (-> & _ & -> & _).
Qed.

(** C2 (amended): when planning yields a pipeline of N steps of which
    exactly one raises during processing and the other N-1 succeed,
    [process_request] returns a response with status "success" that names
    the whole pipeline, whose result mapping is the merge in pipeline order
    of the N-1 successful results, and whose errors list is empty.  The
    failing step leaves the aggregate as it was and reaches the balancer
    as a request start followed by a failed request end of 5000ms for its
    instance; the steps after it are executed from there.  The request
    counter of the statistics is taken to be non-negative, as it is when
    only [process_request] writes it. *)
Theorem process_request_one_failing_step request w pipeline lb1 i e :
  let request' := OR.with_required_services request in
  let outs := step_outcomes process_with_service sm request' pipeline ∅ in
  0 ≤ OR.total_requests (OR.processing_stats w) →
  OR._plan_processing_pipeline lb_sm request' (OR.load_balancer w) = (Ok pipeline, lb1) →
  outs !! i = Some (Failed e) →
  (∀ j, j ≠ i → (j < length pipeline)%nat → ∃ r, outs !! j = Some (Succeeded r)) →
  ∃ response w' w1 id,
    OR.process_request clock process_with_service sm lb_sm request w = (Ok response, w')
    ∧ OR.status response = "success"
    ∧ OR.services_used response = pipeline
    ∧ OR.result response = merge_results (successes outs)
    ∧ length (successes outs) = (length pipeline - 1)%nat
    ∧ OR.errors response = []
    ∧ OR.load_balancer w1 = lb1
    ∧ pipeline !! i = Some id
    ∧ OR.ex_result (execute_loop request' (take (S i) pipeline) (exec_init w1))
      = OR.ex_result (execute_loop request' (take i pipeline) (exec_init w1))
    ∧ OR.load_balancer
        (OR.ex_world (execute_loop request' (take (S i) pipeline) (exec_init w1)))
      = LB.record_request_end id 5000%Q false
          (LB.record_request_start id
             (OR.load_balancer
                (OR.ex_world (execute_loop request' (take i pipeline) (exec_init w1)))))
    ∧ OR.load_balancer w'
      = OR.load_balancer
          (OR.ex_world
             (execute_loop request' (drop (S i) pipeline)
                (execute_loop request' (take (S i) pipeline) (exec_init w1)))).
Proof.
  intros request' outs Htot Hplan Hi Hothers.
  unfold OR.process_request. cbn [OR.now fst snd].
  set (w3 := OR.set_processing_stats _ _).
  destruct (process_request_body_ok request (clock (OR.clock_reads w)) w3 pipeline lb1)
    as (response & w' & Hbody & Hstatus & Hused & Hresult & Herrors & Hlb).
  { unfold w3. simpl. lia. }
  { exact Hplan. }
  rewrite Hbody.
  destruct (failing_step_recorded request' pipeline (OR.set_load_balancer lb1 w3) i e Hi)
    as (id & Hid & Hres & Hrec).
  exists response, (OR.set_active_requests
                      (delete (OR.request_id request) (OR.active_requests w')) w'),
    (OR.set_load_balancer lb1 w3), id.
  split; [done|]. split; [done|]. split; [done|]. split.
  { rewrite Hresult. fold request'. by rewrite execute_loop_result. }
  split.
  { rewrite <- (outcomes_length request' pipeline ∅) in *.
    by apply (successes_one_failed _ i e). }
  split; [done|]. split; [done|]. split; [done|]. split; [done|]. split; [done|].
  simpl. rewrite Hlb. fold request'.
  by rewrite <- execute_loop_app, take_drop.
Qed.

End Pipeline.

(** C2 (as stated, refuted): a pipeline of three steps whose second step
    raises while the other two succeed is answered with status "success"
    and an empty errors list. *)
Lemma process_request_errors_stay_empty :
  let pipeline := ["relevance_1"; "wisdom_1"; "integration_1"] in
  (OR._plan_processing_pipeline (Some EX.sm_pipeline) EX.request_three
     (OR.load_balancer EX.world0)).1 = Ok pipeline
  ∧ EX.outcome_label <$>
      step_outcomes EX.wisdom_down EX.sm_pipeline EX.request_three pipeline ∅
    = ["succeeded"; "raised"; "succeeded"]
  ∧ match (OR.process_request EX.clock_seconds EX.wisdom_down EX.sm_pipeline
             (Some EX.sm_pipeline) EX.request_three EX.world0).1 with
    | Ok response =>
        OR.status response = "success"
        ∧ OR.services_used response = pipeline
        ∧ OR.errors response = []
        ∧ length (OR.errors response) = 0%nat
    | Raise _ => False
    end.
Proof. vm_compute. repeat split. Qed.

Lemma process_request_one_failing_step_witness :
  ∃ response w',
    OR.process_request EX.clock_seconds EX.wisdom_down EX.sm_pipeline
      (Some EX.sm_pipeline) EX.request_three EX.world0 = (Ok response, w')
    ∧ OR.status response = "success"
    ∧ OR.result response
      = merge_results
          (successes
             (step_outcomes EX.wisdom_down EX.sm_pipeline EX.request_three
                ["relevance_1"; "wisdom_1"; "integration_1"] ∅))
    ∧ OR.errors response = [].
Proof.
  destruct (process_request_one_failing_step EX.clock_seconds EX.wisdom_down
              EX.sm_pipeline (Some EX.sm_pipeline) EX.request_three EX.world0
              ["relevance_1"; "wisdom_1"; "integration_1"]
              (OR._plan_processing_pipeline (Some EX.sm_pipeline) EX.request_three
                 (OR.load_balancer EX.world0)).2
              1%nat (RuntimeError "wisdom service unavailable"))
    as (response & w' & w1 & id & H).
  - vm_compute. discriminate.
  - vm_compute. reflexivity.
  - vm_compute. reflexivity.
  - intros [|[|[|j]]] Hne Hlt.
    + vm_compute. eexists. reflexivity.
    + done.
    + vm_compute. eexists. reflexivity.
    + simpl in Hlt. lia.
  - exists response, w'. destruct H as (H1 & H2 & _ & H4 & _ & H6 & _).
    split; [exact H1|]. split; [exact H2|]. split; [exact H4|exact H6].
Defined.

(** ** The tests of the repository, replayed on the model *)

(** [test_start_service], [test_stop_service] *)
Example test_start_stop_service :
  let sm := EX.sm_registered in
  let '(started, sm1) := SM.start_service EX.hash0 0%Q "relevance_1" sm in
  let '(stopped, sm2) := SM.stop_service "relevance_1" sm1 in
  started = true
  ∧ (SM.status <$> SM.services sm1 !! "relevance_1") = Some SM.RUNNING
  ∧ stopped = true
  ∧ (SM.status <$> SM.services sm2 !! "relevance_1") = Some SM.STOPPED
  ∧ SM.notified sm2
    = [("relevance_1", SM.STARTING); ("relevance_1", SM.RUNNING);
       ("relevance_1", SM.STOPPING); ("relevance_1", SM.STOPPED)].
Proof. vm_compute. repeat split. Qed.

(** [test_round_robin_selection]: two full rounds over three instances. *)
Example test_round_robin_selection :
  (λ j, nth_select (Some EX.sm_three) SM.WISDOM None j
          (LB.new_load_balancer LB.ROUND_ROBIN)) <$> seq 0 6
  = [Ok (Some "instance_1"); Ok (Some "instance_2"); Ok (Some "instance_3");
     Ok (Some "instance_1"); Ok (Some "instance_2"); Ok (Some "instance_3")].
Proof. vm_compute. reflexivity. Qed.

(** [test_least_connections_selection] *)
Example test_least_connections_selection :
  (LB.select_service_instance (Some EX.sm_three) SM.WISDOM None EX.lb_connections).1
  = Ok (Some "instance_2").
Proof. vm_compute. reflexivity. Qed.

(** [test_cognitive_aware_selection] *)
Example test_cognitive_aware_selection :
  (LB.select_service_instance (Some EX.sm_two) SM.WISDOM
     (Some {| LB.ctx_complexity := Some 0.9%Q; LB.ctx_priority := None;
              LB.ctx_request_type := None |}) EX.lb_cognitive).1
  = Ok (Some "instance_2").
Proof. vm_compute. reflexivity. Qed.

(** [test_record_request_lifecycle] *)
Example test_record_request_lifecycle :
  let lb1 := LB.record_request_start "test_instance" (LB.new_load_balancer LB.ROUND_ROBIN) in
  let lb2 := LB.record_request_end "test_instance" 200.0%Q true lb1 in
  (LB.current_connections <$> LB.metrics lb1 !! "test_instance") = Some 1
  ∧ (LB.current_connections <$> LB.metrics lb2 !! "test_instance") = Some 0
  ∧ (LB.total_requests <$> LB.metrics lb2 !! "test_instance") = Some 1
  ∧ (Qred ∘ LB.average_response_time <$> LB.metrics lb2 !! "test_instance") = Some 20%Q.
Proof. vm_compute. repeat split. Qed.

(** [test_weight_calculation] *)
Example test_weight_calculation :
  let m :=
    {| LB.instance_id := "test_instance"; LB.current_connections := 5;
       LB.total_requests := 0; LB.average_response_time := 200.0;
       LB.cpu_usage := 0; LB.memory_usage := 0; LB.cognitive_load := 0.5;
       LB.error_rate := 0.03; LB.last_updated := 0 |} in
  (0 < LB._calculate_instance_weight m)%Q ∧ (LB._calculate_instance_weight m < 1)%Q.
Proof. vm_compute. split; reflexivity. Qed.

(** An instance without samples competes with 100ms: it is preferred to
    one that averages 150ms. *)
Example no_samples_beats_150ms :
  (LB.select_service_instance (Some EX.sm_two) SM.WISDOM None EX.lb_slow).1
  = Ok (Some "instance_2").
Proof. vm_compute. reflexivity. Qed.

(** * Further properties of the code *)

(** ** Service manager: lifecycle *)

Lemma elem_of_get_healthy_services ty sm i :
  i ∈ SM.get_healthy_services ty sm ↔
  i ∈ SM.get_services_by_type ty sm
  ∧ SM.status i = SM.RUNNING ∧ SM.health_status i = "healthy".
Proof.
  unfold SM.get_healthy_services.
  rewrite !list_elem_of_In, filter_In. unfold SM.is_healthy_running.
  rewrite andb_true_iff, !bool_decide_eq_true. tauto.
Qed.

Lemma elem_of_get_services_by_type ty sm i :
  i ∈ SM.get_services_by_type ty sm ↔
  ∃ id, id ∈ default [] (SM.service_registry sm !! ty) ∧ SM.services sm !! id = Some i.
Proof. unfold SM.get_services_by_type. cbv zeta. apply list_elem_of_omap. Qed.

(** X1: the dependency check passes exactly when every prerequisite
    category has an instance, listed in the registry and stored, that is
    RUNNING and whose health status is "healthy". *)
Theorem check_dependencies_iff cfg sm :
  SM._check_dependencies cfg sm = true ↔
  ∀ dep, dep ∈ SM.dependencies cfg →
    ∃ i, i ∈ SM.get_services_by_type dep sm
      ∧ SM.status i = SM.RUNNING ∧ SM.health_status i = "healthy".
Proof.
  unfold SM._check_dependencies.
  induction (SM.dependencies cfg) as [|d deps IH]; simpl.
  - split; [|done]. intros _ dep Hdep. by apply elem_of_nil in Hdep.
  - destruct (SM.get_healthy_services d sm) as [|i l] eqn:Hh.
    + split; [done|]. intros Hall.
      destruct (Hall d) as (i & Hi); [left|].
      apply elem_of_get_healthy_services in Hi. rewrite Hh in Hi.
      by apply elem_of_nil in Hi.
    + rewrite IH. split.
      * intros Hall dep Hdep. apply elem_of_cons in Hdep as [-> | Hdep]; [|by apply Hall].
        exists i. apply elem_of_get_healthy_services. rewrite Hh. left.
      * intros Hall dep Hdep. apply Hall. by right.
Qed.

(** X2: a start of a registered STOPPED instance whose dependency check
    passes succeeds.  Afterwards the instance is RUNNING with the start
    time and a process id between 12345 and 22344; its configuration,
    health status, error and restart counters are as before; no other
    instance and no registry list changed; and the callbacks were told
    STARTING, then RUNNING, once each. *)
Theorem start_service_runs hash now id sm inst :
  SM.services sm !! id = Some inst →
  SM.status inst = SM.STOPPED →
  SM._check_dependencies (SM.config inst) sm = true →
  ∃ inst',
    SM.start_service hash now id sm
    = (true,
       SM._notify_status_change id SM.RUNNING
         (SM.store id inst' (SM._notify_status_change id SM.STARTING sm)))
    ∧ SM.status inst' = SM.RUNNING
    ∧ SM.start_time inst' = Some now
    ∧ (∃ pid, SM.process_id inst' = Some pid ∧ 12345 ≤ pid < 22345)
    ∧ SM.config inst' = SM.config inst
    ∧ SM.health_status inst' = SM.health_status inst
    ∧ SM.error_count inst' = SM.error_count inst
    ∧ SM.restart_count inst' = SM.restart_count inst
    ∧ SM.notified (SM.start_service hash now id sm).2
      = SM.notified sm ++ [(id, SM.STARTING); (id, SM.RUNNING)]
    ∧ (∀ id', id' ≠ id →
         SM.services (SM.start_service hash now id sm).2 !! id' = SM.services sm !! id')
    ∧ SM.service_registry (SM.start_service hash now id sm).2 = SM.service_registry sm.
Proof.
  intros Hid Hst Hdeps. unfold SM.start_service.
  rewrite Hid, Hst, Hdeps. simpl.
  eexists. split.
  { f_equal. unfold SM._notify_status_change, SM.store, SM.set_services. simpl.
    f_equal. rewrite insert_insert_eq. reflexivity. }
  simpl. repeat split; try done.
  - eexists. split; [reflexivity|].
    pose proof (Z.mod_pos_bound (hash (SM.instance_id (SM.config inst))) 10000). lia.
  - by rewrite <- app_assoc.
  - intros id' Hne. by rewrite !lookup_insert_ne.
Qed.

Lemma start_service_runs_witness :
  SM.start_service EX.hash0 0%Q "relevance_1" EX.sm_registered
  = (true, EX.sm_started)
  ∧ (SM.status <$> SM.services EX.sm_started !! "relevance_1") = Some SM.RUNNING.
Proof.
  destruct (start_service_runs EX.hash0 0%Q "relevance_1" EX.sm_registered
              (SM.new_instance EX.relevance_1) eq_refl eq_refl eq_refl)
    as (inst' & Heq & Hst & _).
  split; [vm_compute; reflexivity|]. vm_compute. reflexivity.
Defined.

(** X3: a stop of a registered instance that is RUNNING or STARTING
    succeeds: the instance ends STOPPED without process id, everything
    else about it is kept, and the callbacks were told STOPPING, then
    STOPPED. *)
Theorem stop_service_stops id sm inst :
  SM.services sm !! id = Some inst →
  SM.status inst = SM.RUNNING ∨ SM.status inst = SM.STARTING →
  SM.stop_service id sm
  = (true,
     SM._notify_status_change id SM.STOPPED
       (SM.store id (SM.set_process_id None (SM.set_status SM.STOPPED inst))
          (SM._notify_status_change id SM.STOPPING sm)))
  ∧ SM.services (SM.stop_service id sm).2 !! id
    = Some (SM.set_process_id None (SM.set_status SM.STOPPED inst))
  ∧ SM.notified (SM.stop_service id sm).2
    = SM.notified sm ++ [(id, SM.STOPPING); (id, SM.STOPPED)]
  ∧ (∀ id', id' ≠ id →
       SM.services (SM.stop_service id sm).2 !! id' = SM.services sm !! id')
  ∧ SM.service_registry (SM.stop_service id sm).2 = SM.service_registry sm.
Proof.
  intros Hid Hst. unfold SM.stop_service. rewrite Hid.
  assert (Hb : negb (bool_decide (SM.status inst = SM.RUNNING)
                     || bool_decide (SM.status inst = SM.STARTING)) = false).
  { destruct Hst as [-> | ->]; done. }
  rewrite Hb. simpl. split.
  { f_equal. unfold SM._notify_status_change, SM.store, SM.set_services. simpl.
    f_equal. rewrite insert_insert_eq. reflexivity. }
  repeat split.
  - by rewrite lookup_insert_eq.
  - by rewrite <- app_assoc.
  - intros id' Hne. by rewrite !lookup_insert_ne.
Qed.

Lemma stop_service_stops_witness :
  (SM.status <$> SM.services (SM.stop_service "relevance_1" EX.sm_started).2
     !! "relevance_1") = Some SM.STOPPED.
Proof.
  destruct (stop_service_stops "relevance_1" EX.sm_started
              (SM.set_status SM.RUNNING
                 (SM.set_process_id (Some 12345)
                    (SM.set_start_time (Some 0%Q)
                       (SM.set_status SM.STARTING (SM.new_instance EX.relevance_1)))))
              eq_refl (or_introl eq_refl)) as (_ & -> & _).
  reflexivity.
Defined.

(** The lifecycle operations refuse what the state machine forbids
    and then change nothing: a start of an instance that is unknown or not
    STOPPED, a stop of an instance that is unknown or neither RUNNING nor
    STARTING, and a restart or an unregistration of an unknown instance
    all return false and leave the manager as it was. *)
Lemma lifecycle_refusals hash now id sm :
  (SM.services sm !! id = None →
     SM.start_service hash now id sm = (false, sm)
     ∧ SM.stop_service id sm = (false, sm)
     ∧ SM.restart_service hash now id sm = (Ok false, sm)
     ∧ SM.unregister_service id sm = (Ok false, sm))
  ∧ (∀ inst, SM.services sm !! id = Some inst →
       (SM.status inst ≠ SM.STOPPED → SM.start_service hash now id sm = (false, sm))
       ∧ (SM.status inst ≠ SM.RUNNING → SM.status inst ≠ SM.STARTING →
          SM.stop_service id sm = (false, sm)
          ∧ SM.restart_service hash now id sm = (Ok false, sm))).
Proof.
  split.
  - intros Hid. unfold SM.restart_service, SM.unregister_service,
      SM.start_service, SM.stop_service. by rewrite !Hid.
  - intros inst Hid. split.
    + intros Hst. unfold SM.start_service. rewrite Hid.
      by rewrite bool_decide_false.
    + intros Hr Hs.
      assert (Hstop : SM.stop_service id sm = (false, sm)).
      { unfold SM.stop_service. rewrite Hid.
        by rewrite !bool_decide_false. }
      split; [done|]. unfold SM.restart_service. by rewrite Hstop.
Qed.

(** X4: a restart of a RUNNING or STARTING instance is a stop followed by
    a start whose dependency check is made after the stop.  When that
    check passes, the instance is RUNNING again with its restart counter
    one higher and its error counter unchanged, and the callbacks were
    told STOPPING, STOPPED, STARTING, RUNNING.  When it fails, the restart
    returns false and leaves the instance STOPPED with its restart
    counter unchanged. *)
Theorem restart_service_round_trip hash now id sm inst :
  SM.services sm !! id = Some inst →
  SM.status inst = SM.RUNNING ∨ SM.status inst = SM.STARTING →
  let stopped := (SM.stop_service id sm).2 in
  let '(r, sm') := SM.restart_service hash now id sm in
  (SM._check_dependencies (SM.config inst) stopped = true →
     r = Ok true
     ∧ (∃ inst', SM.services sm' !! id = Some inst'
          ∧ SM.status inst' = SM.RUNNING
          ∧ SM.restart_count inst' = SM.restart_count inst + 1
          ∧ SM.error_count inst' = SM.error_count inst
          ∧ SM.config inst' = SM.config inst)
     ∧ SM.notified sm'
       = SM.notified sm ++ [(id, SM.STOPPING); (id, SM.STOPPED);
                            (id, SM.STARTING); (id, SM.RUNNING)])
  ∧ (SM._check_dependencies (SM.config inst) stopped = false →
     r = Ok false
     ∧ sm' = stopped
     ∧ SM.services sm' !! id
       = Some (SM.set_process_id None (SM.set_status SM.STOPPED inst))).
Proof.
  intros Hid Hst stopped.
  destruct (stop_service_stops id sm inst Hid Hst) as (Hstop & Hlook & Hnot & _ & _).
  unfold SM.restart_service. subst stopped. rewrite Hstop. simpl.
  set (sm1 := SM._notify_status_change id SM.STOPPED _).
  set (inst1 := SM.set_process_id None (SM.set_status SM.STOPPED inst)).
  assert (Hid1 : SM.services sm1 !! id = Some inst1).
  { unfold sm1. simpl. by rewrite lookup_insert_eq. }
  assert (Hnot1 : SM.notified sm1 = SM.notified sm ++ [(id, SM.STOPPING); (id, SM.STOPPED)]).
  { unfold sm1. simpl. by rewrite <- app_assoc. }
  destruct (SM._check_dependencies (SM.config inst) sm1) eqn:Hdeps.
  - destruct (start_service_runs hash now id sm1 inst1 Hid1 eq_refl Hdeps)
      as (inst2 & Hstart & Hst2 & _ & _ & Hcfg & _ & Herr & Hrc & _).
    rewrite Hstart. simpl. rewrite lookup_insert_eq. simpl.
    split; [|done]. intros _. split; [done|]. split.
    + eexists. rewrite lookup_insert_eq. split; [reflexivity|]. simpl.
      rewrite Hst2, Hrc, Herr, Hcfg. done.
    + by rewrite <- !app_assoc.
  - assert (Hstart : SM.start_service hash now id sm1 = (false, sm1)).
    { unfold SM.start_service. rewrite Hid1. simpl.
      change (SM.config inst1) with (SM.config inst). by rewrite Hdeps. }
    rewrite Hstart. split; [done|]. intros _. done.
Qed.

Lemma restart_service_round_trip_witness :
  (SM.restart_service EX.hash0 5%Q "relevance_1" EX.sm_started).1 = Ok true
  ∧ (SM.restart_count <$>
       SM.services (SM.restart_service EX.hash0 5%Q "relevance_1" EX.sm_started).2
         !! "relevance_1") = Some 1.
Proof.
  pose proof (restart_service_round_trip EX.hash0 5%Q "relevance_1" EX.sm_started
                (SM.set_status SM.RUNNING
                   (SM.set_process_id (Some 12345)
                      (SM.set_start_time (Some 0%Q)
                         (SM.set_status SM.STARTING (SM.new_instance EX.relevance_1)))))
                eq_refl (or_introl eq_refl)) as H.
  cbv zeta in H.
  destruct (SM.restart_service EX.hash0 5%Q "relevance_1" EX.sm_started) as [r sm'].
  destruct H as [H _]. destruct (H eq_refl) as (-> & (inst' & Hl & _ & Hrc & _) & _).
  split; [reflexivity|]. simpl. rewrite Hl. simpl. by rewrite Hrc.
Defined.

(** ** Service manager: the registry *)

Lemma omap_lookup_insert_unlisted (m : gmap string SM.ServiceInstance) id x
    (l : list string) :
  id ∉ l → omap (λ j, <[id := x]> m !! j) l = omap (λ j, m !! j) l.
Proof.
  intros Hnot. induction l as [|j l IH]; [done|].
  apply not_elem_of_cons in Hnot as [Hne Hnot]. csimpl.
  rewrite lookup_insert_ne by done. by rewrite IH.
Qed.

(** One registration under an identifier that no registry list holds
    adds the new instance at the end of the list of its category and
    leaves the lists of the other categories alone. *)
Lemma get_services_by_type_register cfg sm ty :
  registry_total sm →
  unlisted (SM.instance_id cfg) sm →
  SM.get_services_by_type ty (SM.register_service cfg sm).2
  = SM.get_services_by_type ty sm
    ++ (if decide (SM.service_type cfg = ty) then [SM.new_instance cfg] else []).
Proof.
  intros Htot Hfresh. unfold SM.register_service. cbv zeta. simpl.
  destruct (Htot (SM.service_type cfg)) as [ids Hids]. rewrite Hids.
  unfold SM.get_services_by_type. simpl.
  destruct (decide (SM.service_type cfg = ty)) as [<-|Hne].
  - rewrite lookup_insert_eq, Hids. simpl. rewrite omap_app. simpl.
    rewrite lookup_insert_eq.
    rewrite omap_lookup_insert_unlisted by (by eapply Hfresh). done.
  - rewrite lookup_insert_ne by done. rewrite app_nil_r.
    destruct (SM.service_registry sm !! ty) as [l|] eqn:Hl; simpl; [|done].
    apply omap_lookup_insert_unlisted. by eapply Hfresh.
Qed.

Lemma unlisted_register cfg sm id :
  registry_total sm → unlisted id sm → id ≠ SM.instance_id cfg →
  unlisted id (SM.register_service cfg sm).2.
Proof.
  intros Htot Hfresh Hne ty l. unfold SM.register_service. cbv zeta. simpl.
  destruct (Htot (SM.service_type cfg)) as [ids Hids]. rewrite Hids. simpl.
  destruct (decide (SM.service_type cfg = ty)) as [<-|Hty].
  - rewrite lookup_insert_eq. intros [= <-].
    rewrite elem_of_app, list_elem_of_singleton.
    intros [Hin|Heq]; [by eapply Hfresh|done].
  - rewrite lookup_insert_ne by done. apply Hfresh.
Qed.

(** X5: after the registration of configurations with pairwise
    different identifiers, none of which a registry list held before, the
    instances of a category are the ones it had, followed by a fresh
    STOPPED instance for each registered configuration of the category, in
    registration order: none is missing and none is listed twice. *)
Theorem register_all_by_type cfgs sm ty :
  registry_total sm →
  NoDup (SM.instance_id <$> cfgs) →
  (∀ cfg, cfg ∈ cfgs → unlisted (SM.instance_id cfg) sm) →
  SM.get_services_by_type ty (register_all cfgs sm)
  = SM.get_services_by_type ty sm
    ++ (SM.new_instance <$> filter (λ cfg, SM.service_type cfg = ty) cfgs).
Proof.
  unfold register_all. revert sm.
  induction cfgs as [|cfg cfgs IH]; intros sm Htot Hnodup Hfresh; simpl.
  - by rewrite app_nil_r.
  - apply NoDup_cons in Hnodup as [Hhead Hnodup].
    rewrite IH; [|by apply register_service_total|done|].
    + rewrite get_services_by_type_register by (try done; apply Hfresh; left).
      rewrite <- app_assoc. f_equal. rewrite filter_cons.
      destruct (decide (SM.service_type cfg = ty)); done.
    + intros cfg' Hin. apply unlisted_register; [done|apply Hfresh; by right|].
      intros Heq. apply Hhead. rewrite <- Heq.
      apply list_elem_of_fmap. by exists cfg'.
Qed.

Lemma register_all_by_type_witness :
  SM.get_services_by_type SM.RELEVANCE
    (register_all [SM.default_config SM.RELEVANCE "r1"; SM.default_config SM.WISDOM "w1";
                   SM.default_config SM.RELEVANCE "r2"] SM.new_service_manager)
  = [SM.new_instance (SM.default_config SM.RELEVANCE "r1");
     SM.new_instance (SM.default_config SM.RELEVANCE "r2")].
Proof.
  refine (register_all_by_type
            [SM.default_config SM.RELEVANCE "r1"; SM.default_config SM.WISDOM "w1";
             SM.default_config SM.RELEVANCE "r2"] SM.new_service_manager SM.RELEVANCE _ _ _).
  - intros []; vm_compute; eauto.
  - apply (bool_decide_unpack _). vm_compute. exact I.
  - intros cfg _ ty l Hl.
    destruct ty; vm_compute in Hl; injection Hl as <-; apply not_elem_of_nil.
Defined.

Lemma list_remove_snoc id (ids : list string) : id ∉ ids → SM.list_remove id (ids ++ [id]) = ids.
Proof.
  induction ids as [|j ids IH]; intros Hnot; simpl.
  - by rewrite bool_decide_true.
  - apply not_elem_of_cons in Hnot as [Hne Hnot].
    rewrite bool_decide_false by done. by rewrite IH.
Qed.

(** X6: registration followed by unregistration is a round trip: for an
    identifier that is not stored and not in the list of the
    configuration's category, unregistering what was just registered
    gives back the manager as it was. *)
Theorem register_unregister_round_trip cfg sm ids :
  SM.services sm !! SM.instance_id cfg = None →
  SM.service_registry sm !! SM.service_type cfg = Some ids →
  SM.instance_id cfg ∉ ids →
  SM.unregister_service (SM.instance_id cfg) (SM.register_service cfg sm).2
  = (Ok true, sm).
Proof.
  intros Hnone Hids Hnot. unfold SM.register_service. cbv zeta. simpl. rewrite Hids.
  unfold SM.unregister_service. simpl. rewrite lookup_insert_eq. simpl.
  rewrite lookup_insert_eq.
  rewrite bool_decide_true by (apply elem_of_app; right; left).
  f_equal. destruct sm as [svc reg nts run]. simpl in *.
  unfold SM.set_services, SM.set_service_registry. simpl. f_equal.
  - rewrite delete_insert_eq. by apply delete_id.
  - rewrite insert_insert_eq, list_remove_snoc by done. by apply insert_id.
Qed.

Lemma register_unregister_round_trip_witness :
  SM.unregister_service "relevance_1"
    (SM.register_service EX.relevance_1 SM.new_service_manager).2
  = (Ok true, SM.new_service_manager).
Proof.
  refine (register_unregister_round_trip EX.relevance_1 SM.new_service_manager [] _ _ _).
  - reflexivity.
  - reflexivity.
  - apply not_elem_of_nil.
Defined.

(** X7: unregistering a stored instance succeeds.  The instance is
    stopped first when it is RUNNING or STARTING, and the callbacks are
    told so; afterwards nothing is stored under the identifier, the
    instances under other identifiers are untouched, and no category
    lists an instance that was stored under the identifier. *)
Theorem unregister_service_removes id sm inst :
  registry_total sm →
  SM.services sm !! id = Some inst →
  let '(r, sm') := SM.unregister_service id sm in
  r = Ok true
  ∧ SM.services sm' !! id = None
  ∧ (∀ id', id' ≠ id → SM.services sm' !! id' = SM.services sm !! id')
  ∧ (∀ ty i, i ∈ SM.get_services_by_type ty sm' →
       ∃ id', id' ≠ id ∧ SM.services sm !! id' = Some i)
  ∧ SM.notified sm'
    = SM.notified sm
      ++ (if bool_decide (SM.status inst = SM.RUNNING)
             || bool_decide (SM.status inst = SM.STARTING)
          then [(id, SM.STOPPING); (id, SM.STOPPED)] else []).
Proof.
  intros Htot Hid. unfold SM.unregister_service. rewrite Hid.
  set (sm1 := if bool_decide (SM.status inst = SM.RUNNING)
                 || bool_decide (SM.status inst = SM.STARTING)
              then (SM.stop_service id sm).2 else sm).
  assert (Hfacts : SM.service_registry sm1 = SM.service_registry sm
            ∧ (∀ id', id' ≠ id → SM.services sm1 !! id' = SM.services sm !! id')
            ∧ SM.notified sm1
              = SM.notified sm
                ++ (if bool_decide (SM.status inst = SM.RUNNING)
                       || bool_decide (SM.status inst = SM.STARTING)
                    then [(id, SM.STOPPING); (id, SM.STOPPED)] else [])).
  { unfold sm1.
    destruct (bool_decide (SM.status inst = SM.RUNNING)
              || bool_decide (SM.status inst = SM.STARTING)) eqn:Hb.
    - apply orb_true_iff in Hb. rewrite !bool_decide_eq_true in Hb.
      by destruct (stop_service_stops id sm inst Hid Hb) as (_ & _ & ? & ? & ?).
    - by rewrite app_nil_r. }
  destruct Hfacts as (Hreg & Hother & Hnot). cbv zeta.
  destruct (Htot (SM.service_type (SM.config inst))) as [ids Hids].
  rewrite Hreg, Hids.
  set (sm2 := if bool_decide (id ∈ ids) then _ else sm1).
  assert (Hsvc2 : SM.services sm2 = SM.services sm1).
  { unfold sm2. by destruct (bool_decide (id ∈ ids)). }
  assert (Hnot2 : SM.notified sm2 = SM.notified sm1).
  { unfold sm2. by destruct (bool_decide (id ∈ ids)). }
  split; [done|]. simpl. rewrite Hsvc2, Hnot2. split; [apply lookup_delete_eq|].
  split; [|split; [|done]].
  - intros id' Hne. rewrite lookup_delete_ne by done. by apply Hother.
  - intros ty i Hi. apply elem_of_get_services_by_type in Hi as (id' & _ & Hi).
    unfold SM.set_services in Hi. simpl in Hi.
    apply lookup_delete_Some in Hi as [Hne Hi]. exists id'.
    split; [done|]. by rewrite <- Hother.
Qed.

Lemma unregister_service_removes_witness :
  (SM.unregister_service "relevance_1" EX.sm_started).1 = Ok true
  ∧ SM.services (SM.unregister_service "relevance_1" EX.sm_started).2 !! "relevance_1"
    = None.
Proof.
  assert (Htot : registry_total EX.sm_started) by (intros []; vm_compute; eauto).
  pose proof (unregister_service_removes "relevance_1" EX.sm_started
                (SM.set_status SM.RUNNING
                   (SM.set_process_id (Some 12345)
                      (SM.set_start_time (Some 0%Q)
                         (SM.set_status SM.STARTING (SM.new_instance EX.relevance_1)))))
                Htot eq_refl) as H.
  destruct (SM.unregister_service "relevance_1" EX.sm_started) as [r sm'].
  destruct H as (H1 & H2 & _). by split.
Defined.

(** ** Service manager: the monitoring probe *)


Lemma get_healthy_services_nil_iff ty sm :
  SM.get_healthy_services ty sm = [] ↔
  ∀ i, i ∈ SM.get_services_by_type ty sm →
       ¬ (SM.status i = SM.RUNNING ∧ SM.health_status i = "healthy").
Proof.
  split.
  - intros Hnil i Hi Hrh.
    assert (Hin : i ∈ SM.get_healthy_services ty sm)
      by (apply elem_of_get_healthy_services; tauto).
    rewrite Hnil in Hin. by apply elem_of_nil in Hin.
  - apply get_healthy_services_nil.
Qed.

(** X8: a start alone never satisfies a dependency.  When a category
    has no healthy running instance and an instance of it that was never
    found healthy is started, the category still has none, so a dependent
    of the category cannot start; after one successful probe of the
    monitoring loop the category has a healthy running instance. *)
Theorem dependency_needs_probe hash now now' id sm inst :
  SM.services sm !! id = Some inst →
  SM.status inst = SM.STOPPED →
  SM.health_status inst ≠ "healthy" →
  SM._check_dependencies (SM.config inst) sm = true →
  id ∈ default [] (SM.service_registry sm !! SM.service_type (SM.config inst)) →
  SM.get_healthy_services (SM.service_type (SM.config inst)) sm = [] →
  let started := (SM.start_service hash now id sm).2 in
  let probed := (SM.monitor_instance now' true id started).1 in
  (SM.status <$> SM.services started !! id) = Some SM.RUNNING
  ∧ SM.get_healthy_services (SM.service_type (SM.config inst)) started = []
  ∧ (∀ cfg, SM.service_type (SM.config inst) ∈ SM.dependencies cfg →
       SM._check_dependencies cfg started = false)
  ∧ SM.get_healthy_services (SM.service_type (SM.config inst)) probed ≠ [].
Proof.
  intros Hid Hst Hh Hdeps Hlisted Hnone started probed.
  destruct (start_service_runs hash now id sm inst Hid Hst Hdeps)
    as (inst1 & Heq & Hst1 & _ & _ & Hcfg1 & Hh1 & _ & _ & _ & Hother & Hreg).
  assert (Hid1 : SM.services started !! id = Some inst1).
  { unfold started. rewrite Heq. simpl. by rewrite lookup_insert_eq. }
  fold started in Hother, Hreg.
  assert (Hnil1 : SM.get_healthy_services (SM.service_type (SM.config inst)) started = []).
  { apply get_healthy_services_nil_iff. intros i Hi [Hrun Hhealthy].
    apply elem_of_get_services_by_type in Hi as (id' & Hin & Hi).
    rewrite Hreg in Hin.
    destruct (decide (id' = id)) as [-> | Hne].
    - rewrite Hid1 in Hi. injection Hi as <-. congruence.
    - rewrite Hother in Hi by done.
      apply (proj1 (get_healthy_services_nil_iff _ _) Hnone i); [|done].
      apply elem_of_get_services_by_type. by exists id'. }
  split; [by rewrite Hid1; simpl; rewrite Hst1|]. split; [done|]. split.
  - intros cfg Hdep. unfold SM._check_dependencies.
    by apply (check_dependencies_loop_unmet _ _ _ Hdep).
  - intros Hnil.
    assert (Hin : SM.set_last_health_check (Some now')
                    (SM.set_error_count (Z.max 0 (SM.error_count inst1 - 1))
                       (SM.set_health_status "healthy" inst1))
                  ∈ SM.get_healthy_services (SM.service_type (SM.config inst)) probed).
    { apply elem_of_get_healthy_services. split; [|by split].
      apply elem_of_get_services_by_type. exists id.
      unfold probed, SM.monitor_instance. rewrite Hid1, Hst1. simpl.
      rewrite Hreg. split; [done|]. by rewrite lookup_insert_eq. }
    rewrite Hnil in Hin. by apply elem_of_nil in Hin.
Qed.

Lemma dependency_needs_probe_witness :
  SM.get_healthy_services SM.RELEVANCE EX.sm_started = []
  ∧ SM.get_healthy_services SM.RELEVANCE
      (SM.monitor_instance 1%Q true "relevance_1" EX.sm_started).1 ≠ [].
Proof.
  destruct (dependency_needs_probe EX.hash0 0%Q 1%Q "relevance_1" EX.sm_registered
              (SM.new_instance EX.relevance_1))
    as (_ & H1 & _ & H2).
  - reflexivity.
  - reflexivity.
  - discriminate.
  - reflexivity.
  - vm_compute. left.
  - vm_compute. reflexivity.
  - split; [exact H1|exact H2].
Defined.








(** A thread between its stop and its start leaves the instance STOPPED,
    and the passes of the loop then count nothing: after the first failed
    pass and the stop, two more failed passes leave the error counter
    at 1.  Once the thread has run to its end the instance is RUNNING
    again, restarted once. *)
Example monitor_restart_in_flight :
  let field {A} (f : SM.ServiceInstance → A) evs :=
    f <$> SM.services
            (monitor_run EX.hash0 1%Q "relevance_1" evs (EX.sm_started, [])).1
          !! "relevance_1" in
  field SM.status [Probe false; Advance 0] = Some SM.STOPPED
  ∧ field SM.error_count [Probe false; Advance 0; Probe false; Probe false] = Some 1
  ∧ field SM.status [Probe false; Advance 0; Advance 0; Advance 0] = Some SM.RUNNING
  ∧ field SM.restart_count [Probe false; Advance 0; Advance 0; Advance 0] = Some 1.
Proof. vm_compute. repeat split. Qed.

(** ** Load balancer: selection *)

Lemma best_or_first_sound score (l : list SM.ServiceInstance) :
  l ≠ [] →
  ∃ i, i ∈ l
    ∧ LB.best_or_first (LB.select_min_loop score l None Inf) l
      = Ok (SM.instance_id (SM.config i)).
Proof.
  intros Hne. pose proof (select_min_loop_spec score l None Inf eq_refl) as Hspec.
  destruct (LB.select_min_loop score l None Inf) as [r|].
  - destruct Hspec as ([Hr|Hr] & _); [done|]. by exists r.
  - destruct l as [|a l]; [done|]. exists a. split; [left|done].
Qed.

Lemma elem_of_weighted_instances w (l : list SM.ServiceInstance) x :
  x ∈ LB.weighted_instances w l ↔ x ∈ l.
Proof.
  unfold LB.weighted_instances. rewrite !list_elem_of_In, in_flat_map. split.
  - intros (y & Hy & Hx). apply list_elem_of_In, elem_of_replicate in Hx as [-> _]. done.
  - intros Hx. exists x. split; [done|].
    apply list_elem_of_In, elem_of_replicate. split; [done|]. lia.
Qed.

Lemma py_index_elem_of {A} (l : list A) i x : py_index l i = Ok x → x ∈ l.
Proof.
  unfold py_index. cbv zeta.
  destruct (0 <=? (if 0 <=? i then i else Z.of_nat (length l) + i)); [|done].
  destruct (l !! _) as [y|] eqn:Hy; [|done].
  intros [= <-]. by eapply list_elem_of_lookup_2.
Qed.

(** X10: selection is sound under every strategy.  Without a manager, or
    without a healthy running instance of the category, the answer is
    none and the balancer is unchanged.  Otherwise the answer is the
    identifier of one of the healthy running instances of the category;
    no exception is raised; and only round-robin counters can change:
    metrics, weights and strategy are kept, and every category keeps a
    counter. *)
Theorem select_service_instance_sound sm ty ctx lb :
  counters_total lb →
  let '(r, lb') := LB.select_service_instance sm ty ctx lb in
  match sm with
  | None => r = Ok None ∧ lb' = lb
  | Some sm =>
      (SM.get_healthy_services ty sm = [] → r = Ok None ∧ lb' = lb)
      ∧ (SM.get_healthy_services ty sm ≠ [] →
         ∃ i, i ∈ SM.get_healthy_services ty sm
           ∧ r = Ok (Some (SM.instance_id (SM.config i))))
  end
  ∧ LB.metrics lb' = LB.metrics lb
  ∧ LB.weights lb' = LB.weights lb
  ∧ LB.strategy lb' = LB.strategy lb
  ∧ counters_total lb'.
Proof.
  intros Htot. unfold LB.select_service_instance.
  destruct sm as [sm|]; [|done].
  destruct (SM.get_healthy_services ty sm) as [|a [|b l]] eqn:Hh.
  - by repeat split.
  - repeat split; try done. intros _. exists a. split; [left|done].
  - set (insts := a :: b :: l).
    assert (Hne : insts ≠ []) by done.
    assert (Hlen : 2 ≤ Z.of_nat (length insts)) by (simpl; lia).
    destruct (Htot ty) as [c Hc].
    assert (Hkeep : ∀ v, counters_total
              (LB.set_round_robin_counters (<[ty := v]> (LB.round_robin_counters lb)) lb)).
    { intros v ty'. simpl. destruct (decide (ty = ty')) as [-> | Hty].
      - rewrite lookup_insert_eq. eauto.
      - rewrite lookup_insert_ne by done. apply Htot. }
    destruct (LB.strategy lb) eqn:Hs.
    + unfold LB._round_robin_select. rewrite Hc.
      destruct (Z.of_nat (length insts) =? 0) eqn:Hz; [lia|].
      destruct (py_index_in_range insts (c `mod` Z.of_nat (length insts)))
        as (x & Hx & Hidx); [apply Z.mod_pos_bound; lia|].
      rewrite Hidx. split; [split; [done|]|by repeat split].
      intros _. exists x. split; [by eapply list_elem_of_lookup_2|done].
    + unfold LB._weighted_round_robin_select.
      destruct (LB.weighted_instances (LB.weights lb) insts) as [|v vs] eqn:Hw.
      { assert (Ha : a ∈ LB.weighted_instances (LB.weights lb) insts)
          by (apply elem_of_weighted_instances; left).
        rewrite Hw in Ha. by apply elem_of_nil in Ha. }
      rewrite Hc.
      destruct (py_index_in_range (v :: vs) (c `mod` Z.of_nat (length (v :: vs))))
        as (x & Hx & Hidx); [apply Z.mod_pos_bound; simpl; lia|].
      rewrite Hidx. split; [split; [done|]|by repeat split].
      intros _. exists x. split; [|done].
      apply (elem_of_weighted_instances (LB.weights lb)). rewrite Hw.
      by eapply list_elem_of_lookup_2.
    + unfold LB._least_connections_select.
      destruct (best_or_first_sound (LB.connections_of (LB.metrics lb)) insts Hne)
        as (i & Hi & ->).
      split; [split; [done|]|by repeat split]. intros _. by exists i.
    + unfold LB._least_response_time_select.
      destruct (best_or_first_sound (LB.response_time_of (LB.metrics lb)) insts Hne)
        as (i & Hi & ->).
      split; [split; [done|]|by repeat split]. intros _. by exists i.
    + unfold LB._cognitive_aware_select. cbv zeta.
      destruct (best_or_first_sound
                  (LB.cognitive_score (LB.metrics lb) (LB.request_complexity_of ctx))
                  insts Hne) as (i & Hi & ->).
      split; [split; [done|]|by repeat split]. intros _. by exists i.
Qed.

Lemma select_service_instance_sound_witness :
  (LB.select_service_instance (Some EX.sm_three) SM.WISDOM None EX.lb_connections).1
  = Ok (Some "instance_2")
  ∧ (LB.select_service_instance (Some EX.sm_three) SM.RELEVANCE None EX.lb_connections).1
    = Ok None.
Proof.
  assert (Htot : counters_total EX.lb_connections) by (intros []; vm_compute; eauto).
  pose proof (select_service_instance_sound (Some EX.sm_three) SM.RELEVANCE None
                EX.lb_connections Htot) as H.
  destruct (LB.select_service_instance (Some EX.sm_three) SM.RELEVANCE None
              EX.lb_connections) as [r lb'].
  destruct H as ([H _] & _). destruct (H eq_refl) as [-> _].
  split; [vm_compute; reflexivity|reflexivity].
Defined.

(** The scan returns the first of the instances of minimal score: every
    instance before it scores strictly higher. *)
Lemma select_min_loop_first score (l : list SM.ServiceInstance) best bs :
  match best with Some b => bs = score b | None => bs = Inf end →
  match LB.select_min_loop score l best bs with
  | Some r =>
      (Some r = best ∧ ∀ x, x ∈ l → ext_ltb (score x) bs = false)
      ∨ (∃ i, l !! i = Some r
           ∧ ext_ltb (score r) bs = true
           ∧ (∀ j x, (j < i)%nat → l !! j = Some x → ext_ltb (score r) (score x) = true)
           ∧ (∀ x, x ∈ l → ext_le (score r) (score x)))
  | None => best = None
  end.
Proof.
  revert best bs. induction l as [|a l IH]; intros best bs Hinv; simpl.
  - destruct best as [b|]; [|done]. left. split; [done|].
    intros x Hx. by apply elem_of_nil in Hx.
  - destruct (ext_ltb (score a) bs) eqn:Hlt.
    + specialize (IH (Some a) (score a) eq_refl).
      destruct (LB.select_min_loop score l (Some a) (score a)) as [r|]; [|done].
      right. destruct IH as [[[= ->] Hall]|(i & Hi & Hlt' & Hbefore & Hmin)].
      * exists 0%nat. split; [done|]. split; [done|]. split; [intros; lia|].
        intros x Hx. apply elem_of_cons in Hx as [-> | Hx]; [apply ext_le_refl|].
        apply ext_ltb_false_le. by apply Hall.
      * exists (S i). split; [done|]. split.
        { destruct (score r) as [qr|], (score a) as [qa|], bs as [qb|];
            simpl in *; try done.
          apply negb_true_iff in Hlt, Hlt'. apply negb_true_iff.
          destruct (Qle_bool qb qr) eqn:Hle; [|done].
          apply Qle_bool_iff in Hle.
          assert (¬ (qb <= qa)%Q) by (rewrite <- Qle_bool_iff; congruence).
          assert (¬ (qa <= qr)%Q) by (rewrite <- Qle_bool_iff; congruence).
          lra. }
        split.
        { intros [|j] x Hj Hx; simpl in Hx; [by injection Hx as <-|].
          apply (Hbefore j); [lia|done]. }
        intros x Hx. apply elem_of_cons in Hx as [-> | Hx]; [|by apply Hmin].
        by apply ext_ltb_true_le.
    + specialize (IH best bs Hinv).
      destruct (LB.select_min_loop score l best bs) as [r|]; [|done].
      destruct IH as [[Hr Hall]|(i & Hi & Hlt' & Hbefore & Hmin)].
      * left. split; [done|]. intros x Hx.
        apply elem_of_cons in Hx as [-> | Hx]; [done|by apply Hall].
      * right. exists (S i). split; [done|]. split; [done|]. split.
        { intros [|j] x Hj Hx; simpl in Hx; [|apply (Hbefore j); [lia|done]].
          injection Hx as <-.
          destruct (score r) as [qr|], (score a) as [qa|], bs as [qb|];
            simpl in *; try done.
          apply negb_true_iff in Hlt'. apply negb_false_iff in Hlt.
          apply negb_true_iff. destruct (Qle_bool qa qr) eqn:Hle; [|done].
          apply Qle_bool_iff in Hle, Hlt.
          assert (¬ (qb <= qr)%Q) by (rewrite <- Qle_bool_iff; congruence).
          lra. }
        intros x Hx. apply elem_of_cons in Hx as [-> | Hx]; [|by apply Hmin].
        apply ext_le_trans with bs; [by apply ext_ltb_true_le|by apply ext_ltb_false_le].
Qed.

(** X11: under least connections the answer is the first healthy
    instance with the smallest in-flight count: no healthy instance has
    fewer requests in flight, and every one listed before it has strictly
    more.  An instance without a metrics entry counts as having none in
    flight. *)
Theorem least_connections_first_minimum sm ty ctx lb :
  LB.strategy lb = LB.LEAST_CONNECTIONS →
  SM.get_healthy_services ty sm ≠ [] →
  ∃ i r,
    SM.get_healthy_services ty sm !! i = Some r
    ∧ LB.select_service_instance (Some sm) ty ctx lb
      = (Ok (Some (SM.instance_id (SM.config r))), lb)
    ∧ (∀ x, x ∈ SM.get_healthy_services ty sm →
         connections lb (SM.instance_id (SM.config r))
         ≤ connections lb (SM.instance_id (SM.config x)))
    ∧ (∀ j x, (j < i)%nat → SM.get_healthy_services ty sm !! j = Some x →
         connections lb (SM.instance_id (SM.config r))
         < connections lb (SM.instance_id (SM.config x))).
Proof.
  intros Hstrat Hne. unfold LB.select_service_instance.
  assert (Hscore : ∀ x, LB.connections_of (LB.metrics lb) x
                        = Fin (inject_Z (connections lb (SM.instance_id (SM.config x))))).
  { intros x. unfold LB.connections_of, connections.
    by destruct (LB.metrics lb !! _). }
  destruct (SM.get_healthy_services ty sm) as [|a [|b l]] eqn:Hh; [done| |].
  - exists 0%nat, a. split; [done|]. split; [done|]. split.
    + intros x Hx. apply list_elem_of_singleton in Hx as ->. lia.
    + intros j x Hj. lia.
  - rewrite Hstrat. unfold LB._least_connections_select.
    set (insts := a :: b :: l).
    pose proof (select_min_loop_first (LB.connections_of (LB.metrics lb))
                  insts None Inf eq_refl) as Hspec.
    destruct (LB.select_min_loop _ insts None Inf) as [r|] eqn:Hloop.
    + destruct Hspec as [[Hr _]|(i & Hi & _ & Hbefore & Hmin)]; [done|].
      exists i, r. split; [done|]. split; [done|]. split.
      * intros x Hx. specialize (Hmin x Hx). rewrite !Hscore in Hmin.
        simpl in Hmin. by rewrite Zle_Qle.
      * intros j x Hj Hx. specialize (Hbefore j x Hj Hx).
        rewrite !Hscore in Hbefore. simpl in Hbefore.
        apply negb_true_iff in Hbefore.
        destruct (Z_lt_le_dec (connections lb (SM.instance_id (SM.config r)))
                    (connections lb (SM.instance_id (SM.config x)))) as [|Hle]; [done|].
        rewrite Zle_Qle in Hle. apply Qle_bool_iff in Hle. congruence.
    + exfalso.
      pose proof (select_min_loop_spec (LB.connections_of (LB.metrics lb)) insts
                    None Inf eq_refl) as H.
      rewrite Hloop in H. destruct H as [_ H].
      specialize (H a (list_elem_of_here _ _)). by rewrite Hscore in H.
Qed.

Lemma least_connections_first_minimum_witness :
  LB.select_service_instance (Some EX.sm_three) SM.WISDOM None EX.lb_connections
  = (Ok (Some "instance_2"), EX.lb_connections).
Proof.
  destruct (least_connections_first_minimum EX.sm_three SM.WISDOM None EX.lb_connections)
    as (i & r & _ & _ & _ & _).
  - reflexivity.
  - vm_compute. discriminate.
  - vm_compute. reflexivity.
Defined.

(** X12: under the cognitive-aware strategy the answer is the first
    healthy instance with the smallest score: no healthy instance scores
    lower, and every one listed before it scores strictly higher.  The
    score of an instance without a metrics entry is the complexity of the
    request, 1.0 when the request has no context or the context names
    none. *)
Theorem cognitive_aware_first_minimum sm ty ctx lb :
  LB.strategy lb = LB.COGNITIVE_AWARE →
  SM.get_healthy_services ty sm ≠ [] →
  let score := LB.cognitive_score (LB.metrics lb) (LB.request_complexity_of ctx) in
  (∀ x, LB.metrics lb !! SM.instance_id (SM.config x) = None →
        score x = Fin (LB.request_complexity_of ctx))
  ∧ ∃ i r,
      SM.get_healthy_services ty sm !! i = Some r
      ∧ LB.select_service_instance (Some sm) ty ctx lb
        = (Ok (Some (SM.instance_id (SM.config r))), lb)
      ∧ (∀ x, x ∈ SM.get_healthy_services ty sm → ext_le (score r) (score x))
      ∧ (∀ j x, (j < i)%nat → SM.get_healthy_services ty sm !! j = Some x →
           ext_ltb (score r) (score x) = true).
Proof.
  intros Hstrat Hne score. split.
  { intros x Hx. unfold score, LB.cognitive_score. by rewrite Hx. }
  unfold LB.select_service_instance.
  assert (Hfin : ∀ x, ∃ q, score x = Fin q).
  { intros x. unfold score, LB.cognitive_score.
    destruct (LB.metrics lb !! _); by eexists. }
  destruct (SM.get_healthy_services ty sm) as [|a [|b l]] eqn:Hh; [done| |].
  - exists 0%nat, a. split; [done|]. split; [done|]. split.
    + intros x Hx. apply list_elem_of_singleton in Hx as ->. apply ext_le_refl.
    + intros j x Hj. lia.
  - rewrite Hstrat. unfold LB._cognitive_aware_select. cbv zeta. fold score.
    set (insts := a :: b :: l).
    pose proof (select_min_loop_first score insts None Inf eq_refl) as Hspec.
    destruct (LB.select_min_loop score insts None Inf) as [r|] eqn:Hloop.
    + destruct Hspec as [[Hr _]|(i & Hi & _ & Hbefore & Hmin)]; [done|].
      by exists i, r.
    + exfalso.
      pose proof (select_min_loop_spec score insts None Inf eq_refl) as H.
      rewrite Hloop in H. destruct H as [_ H].
      specialize (H a (list_elem_of_here _ _)).
      destruct (Hfin a) as [q Hq]. by rewrite Hq in H.
Qed.

Lemma cognitive_aware_first_minimum_witness :
  LB.select_service_instance (Some EX.sm_two) SM.WISDOM None EX.lb_cognitive
  = (Ok (Some "instance_2"), EX.lb_cognitive).
Proof.
  destruct (cognitive_aware_first_minimum EX.sm_two SM.WISDOM None EX.lb_cognitive)
    as (_ & i & r & _ & _ & _ & _).
  - reflexivity.
  - vm_compute. discriminate.
  - vm_compute. reflexivity.
Defined.

(** ** Load balancer: weighted round robin *)

Section WeightedRoundRobin.

Variables (sm : SM.ServiceManager) (ty : SM.ServiceType).
Variable ctx : option LB.RequestContext.
Variable w : gmap string Q.

Let healthy := SM.get_healthy_services ty sm.
Let virtual := ids_of (LB.weighted_instances w healthy).
Let len := Z.of_nat (length virtual).






End WeightedRoundRobin.


(** ** Load balancer: the metrics table *)

Lemma metrics_update_service_metrics now id u lb id' :
  LB.metrics (LB.update_service_metrics now id u lb) !! id' =
  if decide (id = id') then
    Some {| LB.instance_id :=
              LB.instance_id (default (LB.new_metrics id) (LB.metrics lb !! id));
            LB.current_connections := default 0 (LB.upd_connections u);
            LB.total_requests := default 0 (LB.upd_total_requests u);
            LB.average_response_time := default 0%Q (LB.upd_avg_response_time u);
            LB.cpu_usage := default 0%Q (LB.upd_cpu_usage u);
            LB.memory_usage := default 0%Q (LB.upd_memory_usage u);
            LB.cognitive_load := default 0%Q (LB.upd_cognitive_load u);
            LB.error_rate := default 0%Q (LB.upd_error_rate u);
            LB.last_updated := now |}
  else LB.metrics lb !! id'.
Proof. unfold LB.update_service_metrics. simpl. by rewrite lookup_insert. Qed.

(** The metrics table never mixes identifiers.  A metrics update, a
    request start and a request end for one identifier leave the entry of
    every other identifier as it was, and when every entry is filed under
    its own identifier before, every entry is so afterwards. *)
Lemma metrics_table_keyed now id u t ok lb :
  (∀ id', id' ≠ id →
     LB.metrics (LB.update_service_metrics now id u lb) !! id' = LB.metrics lb !! id'
     ∧ LB.metrics (LB.record_request_start id lb) !! id' = LB.metrics lb !! id'
     ∧ LB.metrics (LB.record_request_end id t ok lb) !! id' = LB.metrics lb !! id')
  ∧ (metrics_keyed lb →
     metrics_keyed (LB.update_service_metrics now id u lb)
     ∧ metrics_keyed (LB.record_request_start id lb)
     ∧ metrics_keyed (LB.record_request_end id t ok lb)).
Proof.
  split.
  - intros id' Hne.
    rewrite metrics_update_service_metrics, metrics_record_request_start,
      metrics_record_request_end.
    assert (Hne' : id ≠ id') by (intros ->; by apply Hne).
    destruct (LB.metrics lb !! id); by rewrite !decide_False.
  - intros Hkeyed.
    assert (Hdef : LB.instance_id (default (LB.new_metrics id) (LB.metrics lb !! id)) = id).
    { destruct (LB.metrics lb !! id) as [m|] eqn:Hm; [by apply Hkeyed|done]. }
    split; [|split]; intros id' m'.
    + rewrite metrics_update_service_metrics.
      case_decide as Hid; [subst id'; by intros [= <-]|apply Hkeyed].
    + rewrite metrics_record_request_start.
      case_decide as Hid; [subst id'; by intros [= <-]|apply Hkeyed].
    + rewrite metrics_record_request_end.
      destruct (LB.metrics lb !! id) as [m|] eqn:Hm; [|apply Hkeyed].
      case_decide as Hid; [subst id'|apply Hkeyed].
      intros [= <-]. simpl. by apply Hkeyed.
Qed.

Lemma ends_for_cons id ev evs :
  ends_for id (ev :: evs)
  = (match ev with
     | RequestEnd id' _ _ => if decide (id' = id) then 1 else 0
     | RequestStart _ => 0
     end + ends_for id evs)%nat.
Proof. by destruct ev. Qed.

(** X14: for an identifier that has an entry, every request end is
    counted once: after any sequence of request starts and ends the
    entry's request total is what it was plus the number of ends for the
    identifier; starts, and ends for other identifiers, do not count. *)
Theorem total_requests_counts_ends evs lb id m :
  LB.metrics lb !! id = Some m →
  ∃ m', LB.metrics (apply_events evs lb) !! id = Some m'
    ∧ LB.total_requests m' = LB.total_requests m + Z.of_nat (ends_for id evs).
Proof.
  unfold apply_events. revert lb m.
  induction evs as [|ev evs IH]; intros lb m Hm.
  - exists m. split; [done|]. simpl. lia.
  - rewrite ends_for_cons. simpl. destruct ev as [id'|id' t ok]; simpl.
    + destruct (decide (id' = id)) as [-> | Hne].
      * edestruct (IH (LB.record_request_start id lb)) as (m' & Hm' & Htot).
        { rewrite metrics_record_request_start, decide_True by done. reflexivity. }
        exists m'. split; [done|]. rewrite Htot, Hm. simpl. lia.
      * edestruct (IH (LB.record_request_start id' lb)) as (m' & Hm' & Htot).
        { rewrite metrics_record_request_start, decide_False by done. exact Hm. }
        exists m'. split; [done|]. rewrite Htot. lia.
    + destruct (decide (id' = id)) as [-> | Hne].
      * edestruct (IH (LB.record_request_end id t ok lb)) as (m' & Hm' & Htot).
        { rewrite metrics_record_request_end, Hm, decide_True by done. reflexivity. }
        exists m'. split; [done|]. rewrite Htot. simpl. lia.
      * edestruct (IH (LB.record_request_end id' t ok lb)) as (m' & Hm' & Htot).
        { rewrite metrics_record_request_end.
          destruct (LB.metrics lb !! id'); [|exact Hm].
          rewrite decide_False by done. exact Hm. }
        exists m'. split; [done|]. rewrite Htot. lia.
Qed.

Lemma total_requests_counts_ends_witness :
  ∃ m', LB.metrics
          (apply_events [RequestEnd "a" 100%Q true; RequestStart "a";
                         RequestEnd "b" 100%Q true; RequestEnd "a" 5000%Q false]
             (LB.record_request_start "a" (LB.new_load_balancer LB.ROUND_ROBIN)))
          !! "a" = Some m'
    ∧ LB.total_requests m' = 2.
Proof.
  destruct (total_requests_counts_ends
              [RequestEnd "a" 100%Q true; RequestStart "a";
               RequestEnd "b" 100%Q true; RequestEnd "a" 5000%Q false]
              (LB.record_request_start "a" (LB.new_load_balancer LB.ROUND_ROBIN)) "a"
              _ eq_refl) as (m' & Hm' & Htot).
  exists m'. split; [exact Hm'|]. rewrite Htot. reflexivity.
Defined.






(** Without the margin the bound fails: an average of 13ms that sees a
    sample of 13ms becomes 13.000000000000002ms. *)
Example response_time_average_overshoots :
  match LB.average_response_time <$>
          LB.metrics (LB.record_request_end "a" 13%Q true
                        (LB.update_service_metrics 2%Q "a" (EX.told 1 13 0 0)
                           (LB.new_load_balancer LB.ROUND_ROBIN))) !! "a" with
  | Some r => (13 < r)%Q ∧ (r == Q_of_float 13.000000000000002)%Q
  | None => False
  end.
Proof. vm_compute. split; reflexivity. Qed.

(** ** Load balancer: weights *)

Lemma weights_update_service_weights now lb id :
  LB.weights (LB.update_service_weights now lb) !! id =
  match LB.metrics lb !! id with
  | Some m =>
      if Qltb 300 (now - LB.last_updated m)
      then LB.weights lb !! id
      else Some (LB._calculate_instance_weight m)
  | None => LB.weights lb !! id
  end.
Proof.
  unfold LB.update_service_weights. simpl.
  rewrite lookup_union, lookup_fmap.
  destruct (LB.metrics lb !! id) as [m|] eqn:Hm.
  - destruct (Qltb 300 (now - LB.last_updated m)) eqn:Hstale.
    + rewrite map_lookup_filter_None_2; [by destruct (LB.weights lb !! id)|].
      right. intros m' Hm'. simpl. congruence.
    + erewrite map_lookup_filter_Some_2; [|exact Hm|exact Hstale].
      simpl. by destruct (LB.weights lb !! id).
  - rewrite map_lookup_filter_None_2; [by destruct (LB.weights lb !! id)|].
    left. exact Hm.
Qed.

Lemma calculate_instance_weight_bounds m :
  (0.1 <= LB._calculate_instance_weight m)%Q
  ∧ (metrics_nonneg m → (LB._calculate_instance_weight m <= 1)%Q).
Proof.
  unfold LB._calculate_instance_weight, Qpy_max, Qltb. cbv zeta.
  match goal with |- context [Qle_bool ?a ?b] => destruct (Qle_bool a b) eqn:Hle end;
    simpl.
  - split; [lra|]. intros _. lra.
  - assert (Hlt : ¬ (1.0 - inject_Z (LB.current_connections m) * 0.1
                     - LB.average_response_time m / 1000.0 - LB.error_rate m * 5.0
                     - LB.cognitive_load m * 0.5 <= 0.1)%Q).
    { rewrite <- Qle_bool_iff. by rewrite Hle. }
    split; [lra|]. intros (Hc & Ht & He & Hl).
    assert (Hc' : (0 <= inject_Z (LB.current_connections m))%Q)
      by (change 0%Q with (inject_Z 0); by rewrite <- Zle_Qle).
    assert (Hdiv : (LB.average_response_time m / 1000.0
                    == LB.average_response_time m * (1 # 1000))%Q) by (field).
    rewrite Hdiv. lra.
Qed.

Lemma Qtrunc_bounds (lo hi : Z) (x : Q) :
  0 ≤ lo → (inject_Z lo <= x)%Q → (x <= inject_Z hi)%Q → lo ≤ Qtrunc x ≤ hi.
Proof.
  unfold Qtrunc, Qle. simpl. intros Hlo H1 H2.
  rewrite Z.mul_1_r in H1, H2.
  assert (Hnum : 0 ≤ Qnum x) by nia.
  rewrite Z.quot_div_nonneg by lia. split.
  - apply Z.div_le_lower_bound; lia.
  - apply Z.div_le_upper_bound; lia.
Qed.

Lemma length_weighted_instances_one w (instance : SM.ServiceInstance) :
  length (LB.weighted_instances w [instance])
  = Z.to_nat (Z.max 1 (Qtrunc (default 1.0%Q (w !! SM.instance_id (SM.config instance)) * 10))).
Proof.
  unfold LB.weighted_instances. simpl. by rewrite app_nil_r, length_replicate.
Qed.

(** X16: a weight that [update_service_weights] recomputes is never below
    0.1, and for metrics that are not negative never above 1; so in the
    virtual list of weighted round robin an instance whose metrics are
    fresh and not negative holds between one and ten places. *)
Theorem fresh_weight_one_to_ten_places now lb (instance : SM.ServiceInstance) m :
  LB.metrics lb !! SM.instance_id (SM.config instance) = Some m →
  (now - LB.last_updated m <= 300)%Q →
  metrics_nonneg m →
  ∃ w, LB.weights (LB.update_service_weights now lb)
         !! SM.instance_id (SM.config instance) = Some w
    ∧ (0.1 <= w ∧ w <= 1)%Q
    ∧ (1 ≤ length (LB.weighted_instances
                     (LB.weights (LB.update_service_weights now lb)) [instance]) ≤ 10)%nat.
Proof.
  intros Hm Hfresh Hnonneg.
  assert (Hw : LB.weights (LB.update_service_weights now lb)
                 !! SM.instance_id (SM.config instance)
               = Some (LB._calculate_instance_weight m)).
  { rewrite weights_update_service_weights, Hm. unfold Qltb.
    apply Qle_bool_iff in Hfresh. by rewrite Hfresh. }
  destruct (calculate_instance_weight_bounds m) as [Hlo Hhi].
  specialize (Hhi Hnonneg).
  exists (LB._calculate_instance_weight m). split; [exact Hw|]. split; [done|].
  rewrite length_weighted_instances_one, Hw.
  change (default 1.0%Q (Some (LB._calculate_instance_weight m)))
    with (LB._calculate_instance_weight m).
  destruct (Qtrunc_bounds 1 10 (LB._calculate_instance_weight m * 10)) as [H1 H10].
  - lia.
  - change (inject_Z 1) with 1%Q. lra.
  - change (inject_Z 10) with 10%Q. lra.
  - lia.
Qed.

Lemma fresh_weight_one_to_ten_places_witness :
  ∃ w, LB.weights (LB.update_service_weights 100 EX.lb_slow) !! "instance_1" = Some w
    ∧ (0.1 <= w ∧ w <= 1)%Q
    ∧ (1 ≤ length (LB.weighted_instances
                     (LB.weights (LB.update_service_weights 100 EX.lb_slow))
                     [EX.brought_up SM.WISDOM "instance_1"]) ≤ 10)%nat.
Proof.
  destruct (LB.metrics EX.lb_slow !! "instance_1") as [m|] eqn:Hm.
  - apply (fresh_weight_one_to_ten_places 100 EX.lb_slow
             (EX.brought_up SM.WISDOM "instance_1") m Hm).
    + vm_compute in Hm. injection Hm as <-. vm_compute. discriminate.
    + vm_compute in Hm. injection Hm as <-. vm_compute.
      repeat split; discriminate.
  - vm_compute in Hm. discriminate Hm.
Defined.

(** X17: [update_service_weights] leaves the metrics, the strategy and
    the counters alone, keeps the weight (or the absence of one) of every
    identifier whose metrics are stale or missing, and doing it twice at
    the same time is the same as doing it once. *)
Theorem update_service_weights_idempotent now lb :
  LB.metrics (LB.update_service_weights now lb) = LB.metrics lb
  ∧ LB.round_robin_counters (LB.update_service_weights now lb) = LB.round_robin_counters lb
  ∧ (∀ id, (∀ m, LB.metrics lb !! id = Some m → (300 < now - LB.last_updated m)%Q) →
       LB.weights (LB.update_service_weights now lb) !! id = LB.weights lb !! id)
  ∧ LB.update_service_weights now (LB.update_service_weights now lb)
    = LB.update_service_weights now lb.
Proof.
  split; [done|]. split; [done|]. split.
  - intros id Hstale. rewrite weights_update_service_weights.
    destruct (LB.metrics lb !! id) as [m|] eqn:Hm; [|done].
    specialize (Hstale m eq_refl). unfold Qltb.
    destruct (Qle_bool (now - LB.last_updated m) 300) eqn:Hle; [|done].
    apply Qle_bool_iff in Hle. lra.
  - assert (Hw : LB.weights (LB.update_service_weights now (LB.update_service_weights now lb))
                 = LB.weights (LB.update_service_weights now lb)).
    { apply map_eq. intros id.
      rewrite (weights_update_service_weights now (LB.update_service_weights now lb)).
      change (LB.metrics (LB.update_service_weights now lb)) with (LB.metrics lb).
      rewrite weights_update_service_weights.
      destruct (LB.metrics lb !! id) as [m|]; [|done].
      by destruct (Qltb 300 (now - LB.last_updated m)). }
    destruct (LB.update_service_weights now (LB.update_service_weights now lb))
      as [s1 m1 c1 w1] eqn:H1.
    destruct (LB.update_service_weights now lb) as [s2 m2 c2 w2] eqn:H2.
    simpl in Hw. subst w1.
    unfold LB.update_service_weights, LB.set_weights in H1, H2. simpl in H1.
    injection H1 as <- <- <- _. reflexivity.
Qed.

(** ** Health monitor: reports, alerts and aggregation *)

Lemma thresholds_complete_default : thresholds_complete HM.default_thresholds.
Proof.
  intros ck Hck. unfold HM.evaluated_checks in Hck.
  repeat (apply elem_of_cons in Hck as [-> | Hck]);
    [..|by apply elem_of_nil in Hck]; vm_compute; by eexists.
Qed.

Lemma thresholds_complete_insert th name t :
  thresholds_complete th → thresholds_complete (<[name := t]> th).
Proof.
  intros Hth ck Hck. destruct (decide (name = HM.ck_name ck)) as [-> | Hne].
  - rewrite lookup_insert_eq. by eexists.
  - rewrite lookup_insert_ne by done. by apply Hth.
Qed.

(** With every threshold there, the check runs through: the report lists
    the five metrics and its status is the worst of their statuses. *)
Lemma check_service_health_ok format_float now th snapshot :
  thresholds_complete th →
  let report := HM._check_service_health format_float now th (Ok snapshot) in
  HM.status report = worst_of (HM._evaluate_metric_status <$> HM.metrics report)
  ∧ Forall2 (λ ck m, ∃ t, th !! HM.ck_name ck = Some t ∧ m = metric_for snapshot ck t)
      HM.evaluated_checks (HM.metrics report).
Proof.
  intros Hth report. subst report. unfold HM._check_service_health.
  set (init := HM.mkCheckState _ _ _ _).
  assert (Hinit : overall_is_worst init) by done.
  pose proof (run_checks_spec format_float th snapshot HM.evaluated_checks init Hinit) as Hrun.
  destruct (HM.run_checks format_float th snapshot HM.evaluated_checks init)
    as [st [e|]]; simpl.
  - destruct Hrun as (ck & Hck & Hnone). destruct (Hth ck Hck) as [t Ht]. congruence.
  - destruct Hrun as (Hworst & ms & Hms & Hall). simpl in Hms. subst ms. done.
Qed.

Lemma worst_of_not_unknown l : worst_of l ≠ HM.UNKNOWN.
Proof. unfold worst_of. repeat case_bool_decide; done. Qed.

(** X18: a health check fails only when the snapshot cannot be had.  The
    thresholds of a new monitor cover the five evaluated metrics and
    [set_threshold] never takes one away; with such thresholds the report
    for a snapshot lists five metrics and is never UNKNOWN; when getting
    the snapshot raises, the report is UNKNOWN with no metric and the
    failure as its only issue. *)
Theorem check_fails_only_without_snapshot format_float interval :
  thresholds_complete (HM.thresholds (HM.new_health_monitor interval))
  ∧ (∀ hm name w c, thresholds_complete (HM.thresholds hm) →
       thresholds_complete (HM.thresholds (HM.set_threshold name w c hm)))
  ∧ (∀ now th snapshot, thresholds_complete th →
       let r := HM._check_service_health format_float now th (Ok snapshot) in
       HM.status r ≠ HM.UNKNOWN ∧ length (HM.metrics r) = 5%nat)
  ∧ (∀ now th e,
       let r := HM._check_service_health format_float now th (Raise e) in
       HM.status r = HM.UNKNOWN ∧ HM.metrics r = []
       ∧ HM.issues r = [String.append "Health check failed: " (exn_str e)]
       ∧ HM.recommendations r = []).
Proof.
  split; [exact thresholds_complete_default|]. split.
  { intros hm name w c Hth. simpl. by apply thresholds_complete_insert. }
  split; [|done].
  intros now th snapshot Hth r.
  destruct (check_service_health_ok format_float now th snapshot Hth) as [Hst Hall].
  fold r in Hst, Hall. split.
  - rewrite Hst. apply worst_of_not_unknown.
  - by rewrite <- (Forall2_length _ _ _ Hall).
Qed.

(** What the sequence of blocks keeps true of the issue and
    recommendation lists. *)
Lemma check_metric_shape format_float th snapshot ck st st' :
  HM.check_metric format_float th snapshot ck st = Ok st' →
  (HM.cs_issues st = [] ↔ HM.cs_overall_status st = HM.HEALTHY) →
  (HM.cs_recommendations st = [] ↔ HM.cs_overall_status st ≠ HM.CRITICAL) →
  (length (HM.cs_recommendations st) ≤ length (HM.cs_issues st))%nat →
  HM.cs_overall_status st ≠ HM.UNKNOWN →
  (HM.cs_issues st' = [] ↔ HM.cs_overall_status st' = HM.HEALTHY)
  ∧ (HM.cs_recommendations st' = [] ↔ HM.cs_overall_status st' ≠ HM.CRITICAL)
  ∧ (length (HM.cs_recommendations st') ≤ length (HM.cs_issues st'))%nat
  ∧ HM.cs_overall_status st' ≠ HM.UNKNOWN.
Proof.
  unfold HM.check_metric. destruct (th !! HM.ck_name ck) as [t|]; [|done].
  cbv zeta. intros Hst' Hi Hr Hlen Hu.
  destruct (HM._evaluate_metric_status _) eqn:Hs.
  - injection Hst' as <-. done.
  - case_bool_decide as Hc; injection Hst' as <-; simpl; [|done].
    split; [split; [by intros [_ ?]%app_eq_nil|done]|].
    split; [split; [done|by intros _; apply Hr]|].
    split; [rewrite length_app; simpl; lia|done].
  - injection Hst' as <-. simpl.
    split; [split; [by intros [_ ?]%app_eq_nil|done]|].
    split; [split; [by intros [_ ?]%app_eq_nil|done]|].
    split; [rewrite !length_app; simpl; lia|done].
  - injection Hst' as <-. done.
Qed.

Lemma run_checks_shape format_float th snapshot cks st :
  (HM.cs_issues st = [] ↔ HM.cs_overall_status st = HM.HEALTHY) →
  (HM.cs_recommendations st = [] ↔ HM.cs_overall_status st ≠ HM.CRITICAL) →
  (length (HM.cs_recommendations st) ≤ length (HM.cs_issues st))%nat →
  HM.cs_overall_status st ≠ HM.UNKNOWN →
  let st' := (HM.run_checks format_float th snapshot cks st).1 in
  (HM.cs_issues st' = [] ↔ HM.cs_overall_status st' = HM.HEALTHY)
  ∧ (HM.cs_recommendations st' = [] ↔ HM.cs_overall_status st' ≠ HM.CRITICAL)
  ∧ (length (HM.cs_recommendations st') ≤ length (HM.cs_issues st'))%nat
  ∧ HM.cs_overall_status st' ≠ HM.UNKNOWN.
Proof.
  revert st. induction cks as [|ck cks IH]; intros st Hi Hr Hlen Hu; simpl; [done|].
  destruct (HM.check_metric format_float th snapshot ck st) as [st1|e] eqn:Hck; [|done].
  destruct (check_metric_shape _ _ _ _ _ _ Hck Hi Hr Hlen Hu) as (Hi1 & Hr1 & Hlen1 & Hu1).
  by apply IH.
Qed.

(** X19: what a per-instance report says hangs together, whatever the
    thresholds and the snapshot are, and also when the check fails: it has
    no issue exactly when it is HEALTHY, a CRITICAL report carries a
    recommendation, a HEALTHY or WARNING report carries none, and there
    are never more recommendations than issues. *)
Theorem report_issues_iff_not_healthy format_float now th snapshot :
  let r := HM._check_service_health format_float now th snapshot in
  (HM.issues r = [] ↔ HM.status r = HM.HEALTHY)
  ∧ (HM.status r = HM.CRITICAL → HM.recommendations r ≠ [])
  ∧ (HM.status r = HM.HEALTHY ∨ HM.status r = HM.WARNING → HM.recommendations r = [])
  ∧ (length (HM.recommendations r) ≤ length (HM.issues r))%nat.
Proof.
  unfold HM._check_service_health.
  set (init := HM.mkCheckState _ _ _ _).
  destruct snapshot as [service_metrics|e]; cbv zeta.
  - assert (Hshape := run_checks_shape format_float th service_metrics
                        HM.evaluated_checks init).
    destruct (HM.run_checks format_float th service_metrics HM.evaluated_checks init)
      as [st [e|]]; simpl in *.
    + destruct Hshape as (Hi & Hr & Hlen & Hu); [done..|].
      split; [split; [by intros [_ ?]%app_eq_nil|done]|].
      split; [done|]. split; [by intros [?|?]|]. rewrite length_app. simpl. lia.
    + destruct Hshape as (Hi & Hr & Hlen & Hu); [done..|].
      split; [done|]. split; [intros Hc Hnil; by apply Hr in Hnil|].
      split; [|done]. intros Hs. apply Hr. destruct Hs as [-> | ->]; done.
  - simpl. split; [split; done|]. split; [done|]. split; [by intros [?|?]|lia].
Qed.

Lemma evaluate_metric_status_mono m1 m2 :
  HM.threshold_warning m1 = HM.threshold_warning m2 →
  HM.threshold_critical m1 = HM.threshold_critical m2 →
  (HM.value m1 <= HM.value m2)%Q →
  severity (HM._evaluate_metric_status m1) ≤ severity (HM._evaluate_metric_status m2).
Proof.
  unfold HM._evaluate_metric_status. intros <- <- Hle.
  destruct (Qle_bool (HM.threshold_critical m1) (HM.value m1)) eqn:Hc1.
  { apply Qle_bool_iff in Hc1.
    assert (Hc2 : Qle_bool (HM.threshold_critical m1) (HM.value m2) = true)
      by (apply Qle_bool_iff; lra).
    by rewrite Hc2. }
  destruct (Qle_bool (HM.threshold_warning m1) (HM.value m1)) eqn:Hw1.
  { apply Qle_bool_iff in Hw1.
    assert (Hw2 : Qle_bool (HM.threshold_warning m1) (HM.value m2) = true)
      by (apply Qle_bool_iff; lra).
    rewrite Hw2. by destruct (Qle_bool (HM.threshold_critical m1) (HM.value m2)). }
  simpl. destruct (Qle_bool (HM.threshold_critical m1) (HM.value m2)); [done|].
  by destruct (Qle_bool (HM.threshold_warning m1) (HM.value m2)).
Qed.

Lemma worst_of_mono l1 l2 :
  Forall2 (λ a b, severity a ≤ severity b) l1 l2 →
  severity (worst_of l1) ≤ severity (worst_of l2).
Proof.
  intros Hall.
  assert (Hup : ∀ a, a ∈ l1 → ∃ b, b ∈ l2 ∧ severity a ≤ severity b).
  { intros a [i Hi]%list_elem_of_lookup.
    destruct (Forall2_lookup_l _ _ _ _ _ Hall Hi) as (b & Hb & Hab).
    exists b. split; [|done]. apply list_elem_of_lookup. by exists i. }
  assert (Hsev : ∀ l, (HM.CRITICAL ∈ l → severity (worst_of l) = 2)
                    ∧ (HM.WARNING ∈ l → 1 ≤ severity (worst_of l))
                    ∧ (HM.CRITICAL ∉ l → severity (worst_of l) ≤ 1)
                    ∧ (HM.CRITICAL ∉ l → HM.WARNING ∉ l → severity (worst_of l) = 0)
                    ∧ 0 ≤ severity (worst_of l)).
  { intros l. unfold worst_of.
    destruct (decide (HM.CRITICAL ∈ l)) as [Hc|Hc];
      [rewrite (bool_decide_true _ Hc)|rewrite (bool_decide_false _ Hc)];
      (destruct (decide (HM.WARNING ∈ l)) as [Hw|Hw];
       [rewrite ?(bool_decide_true _ Hw)|rewrite ?(bool_decide_false _ Hw)]);
      simpl; repeat split; intros; try lia; done. }
  destruct (Hsev l1) as (H1c & H1w & H1nc & H1n & H1p).
  destruct (Hsev l2) as (H2c & H2w & H2nc & H2n & H2p).
  destruct (decide (HM.CRITICAL ∈ l1)) as [Hc1|Hc1].
  { destruct (Hup _ Hc1) as (b & Hb & Hle).
    destruct b; simpl in Hle; try lia. rewrite (H1c Hc1), (H2c Hb). lia. }
  destruct (decide (HM.WARNING ∈ l1)) as [Hw1|Hw1].
  { destruct (Hup _ Hw1) as (b & Hb & Hle). specialize (H1nc Hc1).
    destruct b; simpl in Hle; try lia.
    - specialize (H2w Hb). lia.
    - rewrite (H2c Hb). lia. }
  rewrite (H1n Hc1 Hw1). done.
Qed.

Lemma Forall2_common {A B C} (P : A → B → Prop) (Q : A → C → Prop) l bs cs :
  Forall2 P l bs → Forall2 Q l cs →
  Forall2 (λ b c, ∃ a, a ∈ l ∧ P a b ∧ Q a c) bs cs.
Proof.
  intros HP. revert cs. induction HP as [|a b l bs Hab _ IH]; intros cs HQ.
  - inversion HQ. constructor.
  - inversion HQ as [|? c ? cs' Hac HQ']; subst. constructor.
    + exists a. split; [left|done].
    + eapply Forall2_impl; [by apply IH|].
      intros b' c' (a' & Ha' & ? & ?). exists a'. split; [by right|done].
Qed.

(** X20: the status of a report is monotone in the snapshot.  With every
    threshold there, a snapshot that reads at least as high on each of
    the five evaluated metrics never gives a milder status. *)
Theorem check_service_health_monotone format_float now1 now2 th s1 s2 :
  thresholds_complete th →
  snapshot_le s1 s2 →
  severity (HM.status (HM._check_service_health format_float now1 th (Ok s1)))
  ≤ severity (HM.status (HM._check_service_health format_float now2 th (Ok s2))).
Proof.
  intros Hth Hle.
  destruct (check_service_health_ok format_float now1 th s1 Hth) as [-> Hall1].
  destruct (check_service_health_ok format_float now2 th s2 Hth) as [-> Hall2].
  apply worst_of_mono, Forall2_fmap.
  eapply Forall2_impl; [exact (Forall2_common _ _ _ _ _ Hall1 Hall2)|].
  intros m1 m2 (ck & Hck & (t1 & Ht1 & ->) & (t2 & Ht2 & ->)).
  rewrite Ht1 in Ht2. injection Ht2 as <-.
  apply evaluate_metric_status_mono; [done..|]. simpl. by apply Hle.
Qed.

Lemma check_service_health_monotone_witness :
  HM.status (HM._check_service_health EX.no_format 0%Q HM.default_thresholds (Ok ∅))
  = HM.HEALTHY
  ∧ HM.status (HM._check_service_health EX.no_format 1%Q HM.default_thresholds
                 (Ok EX.hot_cpu))
    = HM.CRITICAL
  ∧ severity (HM.status (HM._check_service_health EX.no_format 0%Q HM.default_thresholds
                           (Ok ∅)))
    ≤ severity (HM.status (HM._check_service_health EX.no_format 1%Q HM.default_thresholds
                             (Ok EX.hot_cpu))).
Proof.
  split; [vm_compute; reflexivity|]. split; [vm_compute; reflexivity|].
  apply (check_service_health_monotone EX.no_format 0%Q 1%Q HM.default_thresholds ∅ EX.hot_cpu).
  - exact thresholds_complete_default.
  - intros ck Hck. unfold HM.evaluated_checks in Hck.
    repeat (apply elem_of_cons in Hck as [-> | Hck]);
      [..|by apply elem_of_nil in Hck]; vm_compute; discriminate.
Defined.

Lemma status_check_service_health_now format_float now now' th snapshot :
  HM.status (HM._check_service_health format_float now th snapshot)
  = HM.status (HM._check_service_health format_float now' th snapshot).
Proof.
  unfold HM._check_service_health.
  destruct snapshot as [service_metrics|e]; [|done]. cbv zeta.
  by destruct (HM.run_checks _ _ _ _ _) as [st [e|]].
Qed.

Lemma service_reports_check_instance format_float now snapshot id instance hm id' :
  HM.service_reports (HM.check_instance format_float now snapshot id instance hm) !! id'
  = if bool_decide (SM.status instance = SM.RUNNING) && bool_decide (id = id')
    then Some (HM._check_service_health format_float now (HM.thresholds hm) snapshot)
    else HM.service_reports hm !! id'.
Proof.
  unfold HM.check_instance. cbv zeta.
  case_bool_decide as Hrun; [|done]. simpl.
  destruct (_ && _); simpl; case_bool_decide as Hid.
  - subst id'. by rewrite lookup_insert_eq.
  - by rewrite lookup_insert_ne.
  - subst id'. by rewrite lookup_insert_eq.
  - by rewrite lookup_insert_ne.
Qed.

Lemma alerts_check_instance format_float now snapshot id instance hm :
  HM.alerts (HM.check_instance format_float now snapshot id instance hm)
  = let report := HM._check_service_health format_float now (HM.thresholds hm) snapshot in
    let old := match HM.service_reports hm !! id with
               | Some r => HM.status r
               | None => HM.UNKNOWN
               end in
    if bool_decide (SM.status instance = SM.RUNNING)
       && (bool_decide (HM.status report ∈ [HM.WARNING; HM.CRITICAL])
           && bool_decide (old ≠ HM.status report))
    then HM.alerts hm ++ [(id, HM.status report, report)]
    else HM.alerts hm.
Proof.
  unfold HM.check_instance. cbv zeta.
  destruct (bool_decide (SM.status instance = SM.RUNNING)); [|done]. simpl.
  by destruct (_ && _).
Qed.

Lemma thresholds_check_instance format_float now snapshot id instance hm :
  HM.thresholds (HM.check_instance format_float now snapshot id instance hm)
  = HM.thresholds hm.
Proof.
  unfold HM.check_instance. cbv zeta.
  destruct (bool_decide (SM.status instance = SM.RUNNING)); [|done]. simpl.
  by destruct (_ && _).
Qed.

(** X21: an alert marks a change for the worse, once.  Checking one
    instance appends at most one alert; it appends one exactly when the
    instance is RUNNING, the new report is WARNING or CRITICAL and the
    cached report (UNKNOWN when there is none) had another status; and a
    second check that finds the same snapshot appends none. *)
Theorem alert_on_transition format_float now now' snapshot id instance hm :
  let hm1 := HM.check_instance format_float now snapshot id instance hm in
  let report := HM._check_service_health format_float now (HM.thresholds hm) snapshot in
  let old := match HM.service_reports hm !! id with
             | Some r => HM.status r
             | None => HM.UNKNOWN
             end in
  (HM.alerts hm1 = HM.alerts hm
   ∨ HM.alerts hm1 = HM.alerts hm ++ [(id, HM.status report, report)])
  ∧ (HM.alerts hm1 ≠ HM.alerts hm ↔
       SM.status instance = SM.RUNNING
       ∧ (HM.status report = HM.WARNING ∨ HM.status report = HM.CRITICAL)
       ∧ old ≠ HM.status report)
  ∧ HM.alerts (HM.check_instance format_float now' snapshot id instance hm1)
    = HM.alerts hm1.
Proof.
  intros hm1 report old. subst hm1.
  assert (Hsnoc : ∀ (l : list (string * HM.HealthStatus * HM.HealthReport)) x,
            l ++ [x] ≠ l).
  { intros l x Heq. apply (f_equal length) in Heq. rewrite length_app in Heq.
    simpl in Heq. lia. }
  assert (Hin : HM.status report ∈ [HM.WARNING; HM.CRITICAL]
                ↔ HM.status report = HM.WARNING ∨ HM.status report = HM.CRITICAL).
  { rewrite !elem_of_cons, elem_of_nil. tauto. }
  rewrite (alerts_check_instance format_float now'). cbv zeta.
  rewrite thresholds_check_instance, service_reports_check_instance.
  rewrite (status_check_service_health_now format_float now' now).
  rewrite alerts_check_instance. cbv zeta. fold report. fold old.
  destruct (decide (SM.status instance = SM.RUNNING)) as [Hrun|Hrun].
  2:{ rewrite !(bool_decide_false _ Hrun). simpl.
      split; [by left|]. split; [|done]. split; [done|]. by intros [? _]. }
  rewrite !(bool_decide_true _ Hrun), (bool_decide_true (id = id)) by done. simpl.
  rewrite (bool_decide_false (HM.status report ≠ HM.status report)) by tauto.
  rewrite andb_false_r.
  split; [|split; [|done]].
  - destruct (_ && _); [by right|by left].
  - destruct (decide (HM.status report ∈ [HM.WARNING; HM.CRITICAL])) as [Hs|Hs];
      [rewrite (bool_decide_true _ Hs)|rewrite (bool_decide_false _ Hs)]; simpl.
    2:{ split; [done|]. intros (_ & Hs' & _). exfalso. by apply Hs, Hin. }
    destruct (decide (old = HM.status report)) as [Ho|Ho].
    + rewrite (bool_decide_false (old ≠ HM.status report)) by tauto.
      split; [done|]. by intros (_ & _ & ?).
    + rewrite (bool_decide_true _ Ho).
      split; [|by intros _; apply Hsnoc]. intros _. split; [done|]. split; [|done].
      by apply Hin.
Qed.

(** X22: a pass of health checks never drops a cached report.  Every
    identifier that had a report has one afterwards, and the report of an
    identifier that the pass does not meet as a RUNNING instance (one that
    is stopped, in error, or no longer registered) stays as it was, so it
    keeps counting in the system status. *)
Theorem stale_reports_kept format_float now observe items hm :
  let hm' := HM._perform_health_checks format_float now observe items hm in
  (∀ id, is_Some (HM.service_reports hm !! id) → is_Some (HM.service_reports hm' !! id))
  ∧ (∀ id, (∀ instance, (id, instance) ∈ items → SM.status instance ≠ SM.RUNNING) →
       HM.service_reports hm' !! id = HM.service_reports hm !! id)
  ∧ (∀ id instance, (id, instance) ∈ items → SM.status instance = SM.RUNNING →
       is_Some (HM.service_reports hm' !! id))
  ∧ is_Some (HM.system_report hm').
Proof.
  intros hm'. subst hm'. unfold HM._perform_health_checks.
  change (HM.service_reports (HM._update_system_health now ?h))
    with (HM.service_reports h).
  split; [|split; [|split; [|by eexists]]].
  - revert hm. induction items as [|[id0 inst0] items IH]; intros hm id Hsome; [done|].
    simpl. apply IH. rewrite service_reports_check_instance.
    by destruct (_ && _).
  - revert hm. induction items as [|[id0 inst0] items IH]; intros hm id Hnot; [done|].
    simpl. rewrite IH by (intros instance Hin; apply Hnot; by right).
    rewrite service_reports_check_instance.
    case_bool_decide as Hrun; [|done]. case_bool_decide as Hid; [|done]. subst id0.
    exfalso. apply (Hnot inst0); [left|done].
  - assert (Hkeep : ∀ items hm id, is_Some (HM.service_reports hm !! id) →
              is_Some (HM.service_reports
                (foldl (λ hm item, HM.check_instance format_float now (observe item.1)
                                     item.1 item.2 hm) hm items) !! id)).
    { clear. intros items. induction items as [|[id0 inst0] items IH]; intros hm id Hsome;
        [done|].
      simpl. apply IH. rewrite service_reports_check_instance. by destruct (_ && _). }
    revert hm. induction items as [|[id0 inst0] items IH]; intros hm id instance Hin Hrun.
    + by apply elem_of_nil in Hin.
    + simpl. apply elem_of_cons in Hin as [[= <- <-]|Hin]; [|by eapply IH].
      apply Hkeep. rewrite service_reports_check_instance.
      rewrite !bool_decide_true by done. by eexists.
Qed.

Lemma foldl_aggregate_instance reports instances ms is_ pre :
  (foldl (HM.aggregate_instance reports) (ms, is_, worst_of pre) instances).2
  = worst_of (pre ++ cached_statuses reports instances).
Proof.
  revert ms is_ pre. induction instances as [|a l IH]; intros ms is_ pre.
  - simpl. by rewrite app_nil_r.
  - unfold cached_statuses. cbn [foldl omap list_omap].
    unfold HM.aggregate_instance at 2.
    destruct (reports !! SM.instance_id (SM.config a)) as [r|]; cbn [fmap option_fmap option_map].
    + rewrite (cons_middle (HM.status r)), app_assoc.
      fold (cached_statuses reports l).
      match goal with
      | |- (foldl _ (_, _, ?x) _).2 = _ =>
          assert (Hx : x = worst_of (pre ++ [HM.status r]))
      end.
      { rewrite worst_of_snoc.
        destruct (HM.status r); repeat case_bool_decide; done. }
      rewrite Hx. apply IH.
    + apply IH.
Qed.

Lemma cached_statuses_none reports (l : list SM.ServiceInstance) :
  (∀ i, i ∈ l → reports !! SM.instance_id (SM.config i) = None) →
  cached_statuses reports l = [].
Proof.
  unfold cached_statuses. intros Hnone. induction l as [|b l IH]; [done|].
  cbn [omap list_omap]. rewrite (Hnone b) by left. simpl.
  apply IH. intros i Hi. apply Hnone. by right.
Qed.

(** X23: the aggregated health of a category is the worst of the cached
    reports of its instances, critical above warning above healthy.  It is
    UNKNOWN only when the category has no instance: instances without a
    report, or with UNKNOWN reports, count as nothing, so a category none
    of whose instances was ever checked is reported HEALTHY. *)
Theorem service_type_health_is_worst now sm ty hm :
  let r := HM.get_service_type_health now sm ty hm in
  let instances := SM.get_services_by_type ty sm in
  (instances = [] → HM.status r = HM.UNKNOWN)
  ∧ (instances ≠ [] →
       HM.status r = worst_of (cached_statuses (HM.service_reports hm) instances)
       ∧ HM.status r ≠ HM.UNKNOWN
       ∧ ((∀ i, i ∈ instances →
             HM.service_reports hm !! SM.instance_id (SM.config i) = None) →
          HM.status r = HM.HEALTHY)).
Proof.
  intros r instances. subst r. unfold HM.get_service_type_health. fold instances.
  destruct instances as [|a l] eqn:Hinst; [done|].
  split; [done|]. intros _.
  pose proof (foldl_aggregate_instance (HM.service_reports hm) (a :: l) [] [] []) as Hfold.
  change (worst_of []) with HM.HEALTHY in Hfold. rewrite app_nil_l in Hfold.
  destruct (foldl (HM.aggregate_instance (HM.service_reports hm)) ([], [], HM.HEALTHY) (a :: l))
    as [[ms is_] worst]. cbn [snd] in Hfold. simpl HM.status.
  split; [exact Hfold|]. split; [rewrite Hfold; apply worst_of_not_unknown|].
  intros Hnone. rewrite Hfold.
  by rewrite (cached_statuses_none _ _ Hnone).
Qed.

(** ** Orchestrator: planning and accounting *)

(** X24: the categories chosen for a request.  Whatever the request type
    and complexity, [_determine_required_services] names at least one
    category and none twice; when the complexity is above 0.7 the
    integration category is among them, and it comes last.  So the
    request that [process_request] plans for always names a category. *)
Theorem determine_required_services_shape request :
  let required := OR._determine_required_services request in
  required ≠ []
  ∧ NoDup required
  ∧ ((0.7 < OR.complexity request)%Q → last required = Some SM.INTEGRATION)
  ∧ (¬ (0.7 < OR.complexity request)%Q → (length required = 1 ∨ length required = 5)%nat)
  ∧ OR.required_services (OR.with_required_services request) ≠ [].
Proof.
  intros required.
  assert (Hshape : required ≠ [] ∧ NoDup required
            ∧ (Qltb 0.7 (OR.complexity request) = true → last required = Some SM.INTEGRATION)
            ∧ (Qltb 0.7 (OR.complexity request) = false →
               (length required = 1 ∨ length required = 5)%nat)).
  { subst required. unfold OR._determine_required_services. cbv zeta.
    destruct (Qltb 0.7 (OR.complexity request));
      repeat (match goal with
              | |- context [String.eqb ?a ?b] => destruct (String.eqb a b)
              end);
      (split; [done|]); (split; [apply (bool_decide_unpack _); vm_compute; exact I|]);
      (split; [try done; intros _; vm_compute; reflexivity|]);
      try done; intros _; vm_compute; tauto. }
  destruct Hshape as (Hne & Hnd & Hhigh & Hlow).
  assert (Hlt : (0.7 < OR.complexity request)%Q ↔ Qltb 0.7 (OR.complexity request) = true).
  { unfold Qltb. rewrite negb_true_iff, <- not_true_iff_false, Qle_bool_iff. split.
    - intros Hlt Hle. lra.
    - intros Hnle. lra. }
  split; [done|]. split; [done|]. split; [by intros ?%Hlt; apply Hhigh|]. split.
  - intros Hnlt. apply Hlow. rewrite Hlt in Hnlt. by destruct (Qltb _ _).
  - unfold OR.with_required_services.
    destruct (OR.required_services request) eqn:Hreq; [|by rewrite Hreq].
    done.
Qed.

Lemma select_service_instance_frame sm ty ctx lb :
  LB.metrics (LB.select_service_instance sm ty ctx lb).2 = LB.metrics lb.
Proof.
  unfold LB.select_service_instance.
  destruct sm as [sm|]; [|done].
  destruct (SM.get_healthy_services ty sm) as [|a [|b l]]; [done..|].
  destruct (LB.strategy lb); try done.
  - unfold LB._round_robin_select.
    destruct (LB.round_robin_counters lb !! ty); [|done].
    destruct (_ =? 0); [done|]. by destruct (py_index _ _).
  - unfold LB._weighted_round_robin_select.
    destruct (LB.weighted_instances _ _) eqn:Hw.
    + by destruct (py_index _ _).
    + destruct (LB.round_robin_counters lb !! ty); [|done].
      by destruct (py_index _ _).
Qed.

Section RequestLifecycle.

Variable clock : nat → datetime.
Variable process_with_service :
  SM.ServiceType → string → gmap string PyValue →
  gmap string (gmap string PyValue) → outcome (gmap string PyValue).
Variable sm : SM.ServiceManager.
Variable lb_sm : option SM.ServiceManager.

#[local] Abbreviation execute_step := (OR.execute_step clock process_with_service sm).
#[local] Abbreviation execute_loop := (OR.execute_loop clock process_with_service sm).
#[local] Abbreviation process_request :=
  (OR.process_request clock process_with_service sm lb_sm).

Implicit Types (request : OR.CognitiveRequest) (st : OR.exec_state) (w : OR.World).

Lemma plan_loop_metrics request required pipeline lb :
  LB.metrics (OR.plan_loop lb_sm request required pipeline lb).2 = LB.metrics lb.
Proof.
  revert pipeline lb. induction required as [|ty rest IH]; intros pipeline lb; [done|].
  cbn [OR.plan_loop]. cbv zeta.
  pose proof (select_service_instance_frame lb_sm ty
                (Some {| LB.ctx_complexity := Some (OR.complexity request);
                         LB.ctx_priority := Some (OR.priority request);
                         LB.ctx_request_type := Some (OR.request_type request) |}) lb)
    as Hframe.
  destruct (LB.select_service_instance _ _ _ _) as [[[id|]|e] lb1]; simpl in Hframe.
  - case_bool_decide; by rewrite IH.
  - by rewrite IH.
  - done.
Qed.

Lemma execute_step_world request id st :
  OR.active_requests (OR.ex_world (execute_step request id st))
  = OR.active_requests (OR.ex_world st)
  ∧ ∀ id', 0 ≤ connections (OR.load_balancer (OR.ex_world st)) id' →
      connections (OR.load_balancer (OR.ex_world (execute_step request id st))) id'
      = connections (OR.load_balancer (OR.ex_world st)) id'.
Proof.
  unfold OR.execute_step.
  destruct (SM.services sm !! id) as [instance|]; [|done].
  unfold OR.now. simpl.
  destruct (process_with_service _ _ _ _) as [r|e]; simpl.
  - split; [done|]. intros id' Hpos.
    rewrite connections_record_request_end, connections_record_request_start.
    case_decide; lia.
  - split; [done|]. intros id' Hpos.
    rewrite connections_record_request_end, connections_record_request_start.
    case_decide; lia.
Qed.

Lemma execute_loop_world request pipeline st :
  OR.active_requests (OR.ex_world (execute_loop request pipeline st))
  = OR.active_requests (OR.ex_world st)
  ∧ ∀ id', 0 ≤ connections (OR.load_balancer (OR.ex_world st)) id' →
      connections (OR.load_balancer (OR.ex_world (execute_loop request pipeline st))) id'
      = connections (OR.load_balancer (OR.ex_world st)) id'.
Proof.
  revert st. induction pipeline as [|id rest IH]; intros st; [done|].
  cbn [OR.execute_loop].
  destruct (IH (execute_step request id st)) as [Ha Hc].
  destruct (execute_step_world request id st) as [Ha' Hc'].
  split; [by rewrite Ha|]. intros id' Hpos.
  rewrite Hc by (rewrite Hc'; done). by apply Hc'.
Qed.

(** What [process_request] returns and leaves, by the two ways planning
    can end. *)
Lemma process_request_unfold request w :
  OR.total_requests (OR.processing_stats w) + 1 ≠ 0 →
  let request' := OR.with_required_services request in
  let stats := OR.processing_stats w in
  ∃ response w',
    process_request request w = (Ok response, w')
    ∧ OR.resp_request_id response = OR.request_id request
    ∧ OR.active_requests w' = delete (OR.request_id request) (OR.active_requests w)
    ∧ OR.total_requests (OR.processing_stats w') = OR.total_requests stats + 1
    ∧ match OR._plan_processing_pipeline lb_sm request' (OR.load_balancer w) with
      | (Ok pipeline, lb1) =>
          OR.status response = "success"
          ∧ OR.services_used response = pipeline
          ∧ OR.errors response = []
          ∧ (pipeline = [] → OR.result response = ∅
                             ∧ OR.confidence response = PyFloat 0.8
                             ∧ OR.load_balancer w' = lb1)
          ∧ OR.successful_requests (OR.processing_stats w')
            = OR.successful_requests stats + 1
          ∧ OR.failed_requests (OR.processing_stats w') = OR.failed_requests stats
          ∧ ∀ id, 0 ≤ connections lb1 id →
              connections (OR.load_balancer w') id = connections lb1 id
      | (Raise e, lb1) =>
          OR.status response = "error"
          ∧ OR.services_used response = []
          ∧ OR.result response = ∅
          ∧ OR.errors response = [exn_str e]
          ∧ OR.successful_requests (OR.processing_stats w')
            = OR.successful_requests stats
          ∧ OR.failed_requests (OR.processing_stats w') = OR.failed_requests stats + 1
          ∧ OR.load_balancer w' = lb1
      end.
Proof.
  intros Htot request' stats.
  unfold OR.process_request, OR.now. cbv zeta. simpl.
  unfold OR.process_request_body. cbv zeta. simpl. fold request'.
  destruct (OR._plan_processing_pipeline lb_sm request' (OR.load_balancer w))
    as [[pipeline|e] lb1] eqn:Hplan.
  - unfold OR._execute_pipeline. cbv zeta.
    match goal with
    | |- context [OR.execute_loop clock process_with_service sm request' pipeline ?s] =>
        set (st0 := s); set (st := OR.execute_loop clock process_with_service sm
                                     request' pipeline st0)
    end.
    pose proof (execute_loop_processing_stats clock process_with_service sm
                  request' pipeline st0) as Hstats.
    destruct (execute_loop_world request' pipeline st0) as [Hact Hconn].
    fold st in Hstats, Hact, Hconn. simpl in Hstats, Hact, Hconn.
    unfold OR.now. simpl. unfold OR._update_average_processing_time. simpl.
    rewrite Hstats. simpl.
    destruct (OR.total_requests (OR.processing_stats w) + 1 =? 0) eqn:Hz; [lia|].
    eexists _, _. split; [reflexivity|]. simpl.
    split; [by unfold request', OR.with_required_services;
               destruct (OR.required_services request)|].
    split; [by rewrite Hact, delete_insert_eq|].
    split; [done|]. split; [done|]. split; [done|]. split; [done|].
    split; [|split; [done|split; [done|exact Hconn]]].
    intros ->. subst st st0. simpl. by rewrite lookup_empty.
  - unfold OR.process_request_failed, OR.now. cbv zeta. simpl.
    unfold OR._update_average_processing_time. simpl.
    destruct (OR.total_requests (OR.processing_stats w) + 1 =? 0) eqn:Hz; [lia|].
    eexists _, _. split; [reflexivity|]. simpl.
    split; [done|]. split; [by rewrite delete_insert_eq|]. done.
Qed.

(** X25: the books of [process_request] balance.  With a request counter
    that is not negative the call returns a response for the request, of
    status "success" or "error"; it counts the request once in the total
    and once in the successes or in the failures, according to the
    status; and afterwards the request is not among the active ones: an
    earlier active request of the same identifier is dropped with it. *)
Theorem process_request_accounting request w :
  0 ≤ OR.total_requests (OR.processing_stats w) →
  ∃ response w',
    process_request request w = (Ok response, w')
    ∧ OR.resp_request_id response = OR.request_id request
    ∧ OR.total_requests (OR.processing_stats w')
      = OR.total_requests (OR.processing_stats w) + 1
    ∧ (OR.status response = "success"
       ∧ OR.successful_requests (OR.processing_stats w')
         = OR.successful_requests (OR.processing_stats w) + 1
       ∧ OR.failed_requests (OR.processing_stats w')
         = OR.failed_requests (OR.processing_stats w)
       ∨ OR.status response = "error"
         ∧ OR.successful_requests (OR.processing_stats w')
           = OR.successful_requests (OR.processing_stats w)
         ∧ OR.failed_requests (OR.processing_stats w')
           = OR.failed_requests (OR.processing_stats w) + 1)
    ∧ OR.active_requests w' = delete (OR.request_id request) (OR.active_requests w)
    ∧ OR.active_requests w' !! OR.request_id request = None.
Proof.
  intros Htot.
  destruct (process_request_unfold request w) as (response & w' & Hrun & Hid & Hact & Ht & Hcase);
    [lia|].
  exists response, w'. split; [done|]. split; [done|]. split; [done|].
  split; [|split; [done|by rewrite Hact, lookup_delete_eq]].
  destruct (OR._plan_processing_pipeline _ _ _) as [[pipeline|e] lb1].
  - left. tauto.
  - right. tauto.
Qed.

(** X26: a request leaves no connection in flight.  For every identifier
    whose in-flight count is not negative before, the count after
    [process_request] is what it was before: each executed step is a
    request start followed by a request end, also when the step raises,
    and planning does not touch the metrics. *)
Theorem process_request_connections_restored request w id :
  0 ≤ OR.total_requests (OR.processing_stats w) →
  0 ≤ connections (OR.load_balancer w) id →
  connections (OR.load_balancer (process_request request w).2) id
  = connections (OR.load_balancer w) id.
Proof.
  intros Htot Hpos.
  destruct (process_request_unfold request w) as (response & w' & Hrun & _ & _ & _ & Hcase);
    [lia|].
  rewrite Hrun. simpl.
  pose proof (plan_loop_metrics (OR.with_required_services request)
                (OR.required_services (OR.with_required_services request)) []
                (OR.load_balancer w)) as Hm.
  fold (OR._plan_processing_pipeline lb_sm (OR.with_required_services request)
          (OR.load_balancer w)) in Hm.
  destruct (OR._plan_processing_pipeline _ _ _) as [[pipeline|e] lb1]; simpl in Hm.
  - destruct Hcase as (_ & _ & _ & _ & _ & _ & Hconn).
    assert (Heq : connections lb1 id = connections (OR.load_balancer w) id)
      by (unfold connections; by rewrite Hm).
    rewrite Hconn; [done|lia].
  - destruct Hcase as (_ & _ & _ & _ & _ & _ & ->).
    unfold connections. by rewrite Hm.
Qed.

(** X27: a request for which nothing is available still succeeds.  When
    the balancer finds no healthy instance for any of the categories of
    the request, [process_request] answers "success" with no service
    used, an empty result, no error and the default confidence 0.8, and
    counts the request as successful. *)
Theorem process_request_nothing_available request w :
  0 ≤ OR.total_requests (OR.processing_stats w) →
  (∀ ty, ty ∈ OR.required_services (OR.with_required_services request) →
     match lb_sm with
     | Some m => SM.get_healthy_services ty m = []
     | None => True
     end) →
  ∃ response w',
    process_request request w = (Ok response, w')
    ∧ OR.status response = "success"
    ∧ OR.services_used response = []
    ∧ OR.result response = ∅
    ∧ OR.errors response = []
    ∧ OR.confidence response = PyFloat 0.8
    ∧ OR.successful_requests (OR.processing_stats w')
      = OR.successful_requests (OR.processing_stats w) + 1
    ∧ OR.load_balancer w' = OR.load_balancer w.
Proof.
  intros Htot Hnone.
  assert (Hplan : ∀ required lb,
            (∀ ty, ty ∈ required →
               match lb_sm with
               | Some m => SM.get_healthy_services ty m = []
               | None => True
               end) →
            OR.plan_loop lb_sm (OR.with_required_services request) required [] lb
            = (Ok [], lb)).
  { intros required lb. induction required as [|ty rest IH]; intros Hall; [done|].
    cbn [OR.plan_loop]. cbv zeta.
    assert (Hsel : ∀ ctx, LB.select_service_instance lb_sm ty ctx lb = (Ok None, lb)).
    { intros ctx. unfold LB.select_service_instance.
      destruct lb_sm as [m|]; [|done].
      by rewrite (Hall ty) by left. }
    rewrite Hsel. apply IH. intros ty' Hty'. apply Hall. by right. }
  destruct (process_request_unfold request w) as (response & w' & Hrun & _ & _ & _ & Hcase);
    [lia|].
  unfold OR._plan_processing_pipeline in Hcase.
  rewrite (Hplan _ _ Hnone) in Hcase.
  destruct Hcase as (Hs & Hu & He & Hempty & Hsucc & _ & _).
  destruct (Hempty eq_refl) as (Hr & Hc & Hlb).
  exists response, w'. done.
Qed.

End RequestLifecycle.

Lemma process_request_accounting_witness :
  ∃ response w',
    OR.process_request EX.clock_seconds EX.wisdom_down EX.sm_pipeline
      (Some EX.sm_pipeline) EX.request_three EX.world0 = (Ok response, w')
    ∧ OR.total_requests (OR.processing_stats w') = 1
    ∧ OR.active_requests w' !! "req-1" = None.
Proof.
  destruct (process_request_accounting EX.clock_seconds EX.wisdom_down EX.sm_pipeline
              (Some EX.sm_pipeline) EX.request_three EX.world0)
    as (response & w' & Hrun & _ & Ht & _ & _ & Hact).
  - vm_compute. discriminate.
  - exists response, w'. split; [exact Hrun|]. split; [exact Ht|exact Hact].
Defined.

Lemma process_request_connections_restored_witness :
  connections
    (OR.load_balancer
       (OR.process_request EX.clock_seconds EX.wisdom_down EX.sm_pipeline
          (Some EX.sm_pipeline) EX.request_three EX.world0).2) "wisdom_1"
  = 0.
Proof.
  rewrite (process_request_connections_restored EX.clock_seconds EX.wisdom_down
             EX.sm_pipeline (Some EX.sm_pipeline) EX.request_three EX.world0 "wisdom_1").
  - reflexivity.
  - vm_compute. discriminate.
  - vm_compute. discriminate.
Defined.

Lemma process_request_nothing_available_witness :
  ∃ response w',
    OR.process_request EX.clock_seconds OR._process_with_service EX.sm_pipeline
      None EX.request_three EX.world0 = (Ok response, w')
    ∧ OR.status response = "success"
    ∧ OR.services_used response = []
    ∧ OR.result response = ∅.
Proof.
  destruct (process_request_nothing_available EX.clock_seconds OR._process_with_service
              EX.sm_pipeline None EX.request_three EX.world0)
    as (response & w' & Hrun & Hs & Hu & Hr & _).
  - vm_compute. discriminate.
  - intros ty _. exact I.
  - exists response, w'. split; [exact Hrun|]. split; [exact Hs|]. split; [exact Hu|exact Hr].
Defined.

(** ** Daemon: start-up and shutdown order *)

Lemma elem_of_all_service_types (ty : SM.ServiceType) : ty ∈ SM.all_service_types.
Proof. destruct ty; unfold SM.all_service_types; set_solver. Qed.

Lemma grows_by_refl st : grows_by st st [].
Proof.
  unfold grows_by. rewrite app_nil_r. split; [done|]. split; [set_solver|].
  split; [constructor|]. by intros x ?%elem_of_nil.
Qed.

Lemma grows_by_trans st1 st2 st3 e1 e2 :
  grows_by st1 st2 e1 → grows_by st2 st3 e2 → grows_by st1 st3 (e1 ++ e2).
Proof.
  intros (Ho1 & Hv1 & Hn1 & Hf1) (Ho2 & Hv2 & Hn2 & Hf2). unfold grows_by.
  split; [by rewrite Ho2, Ho1, app_assoc|].
  split; [rewrite Hv2, Hv1, list_to_set_app_L; set_solver|].
  split.
  - apply NoDup_app. split; [done|]. split; [|done].
    intros x Hx1 Hx2. apply (Hf2 x Hx2). rewrite Hv1. set_solver.
  - intros x [Hx|Hx]%elem_of_app; [by apply Hf1|].
    intros Hin. apply (Hf2 x Hx). rewrite Hv1. set_solver.
Qed.

Lemma foldl_bind_None {A B} (f : B → A → option A) ds :
  foldl (λ acc d, acc ≫= f d) None ds = None.
Proof. induction ds as [|d ds IH]; [done|]. simpl. exact IH. Qed.

Section StartupOrder.

Variable sm : SM.ServiceManager.

#[local] Abbreviation deps := (DM.dependencies_of sm).

Implicit Types (st : gset SM.ServiceType * list SM.ServiceType) (t d : SM.ServiceType).

(** A visit that returns has put the category among the visited ones and
    appended the categories it met for the first time. *)
Lemma visit_grows fuel t st st' :
  DM.visit fuel sm t st = Some st' → ∃ ext, grows_by st st' ext ∧ t ∈ st'.1.
Proof.
  revert t st st'. induction fuel as [|fuel IH]; intros t st st' Hv; [done|].
  simpl in Hv. case_bool_decide as Hin.
  { injection Hv as <-. exists []. split; [apply grows_by_refl|done]. }
  assert (Hfold : ∀ ds sa sb,
            foldl (λ acc dep, acc ≫= DM.visit fuel sm dep) (Some sa) ds = Some sb →
            ∃ ext, grows_by sa sb ext).
  { clear -IH. intros ds. induction ds as [|d ds IHds]; intros sa sb Hf.
    - injection Hf as <-. exists []. apply grows_by_refl.
    - simpl in Hf. destruct (DM.visit fuel sm d sa) as [sc|] eqn:Hd.
      + destruct (IH _ _ _ Hd) as (e1 & He1 & _).
        destruct (IHds _ _ Hf) as (e2 & He2).
        exists (e1 ++ e2). by eapply grows_by_trans.
      + by rewrite foldl_bind_None in Hf. }
  destruct (foldl _ _ _) as [sb|] eqn:Hf; [|done]. injection Hv as <-.
  destruct (Hfold _ _ _ Hf) as (ext & Ho & Hvis & Hnd & Hfresh). simpl in *.
  exists (ext ++ [t]). split; [|rewrite Hvis; set_solver].
  unfold grows_by. simpl.
  split; [by rewrite Ho, app_assoc|].
  split; [rewrite Hvis, list_to_set_app_L; set_solver|].
  split.
  - apply NoDup_app. split; [done|]. split; [|apply NoDup_singleton].
    intros x Hx ->%list_elem_of_singleton. apply (Hfresh t Hx). set_solver.
  - intros x [Hx | ->%list_elem_of_singleton]%elem_of_app; [|done].
    intros Hxin. apply (Hfresh x Hx). set_solver.
Qed.

(** The bound on the depth is enough: a visit returns when the fuel
    exceeds the number of categories not yet visited. *)
Lemma visit_total fuel t st :
  (size (list_to_set SM.all_service_types ∖ st.1 : gset SM.ServiceType) < fuel)%nat →
  is_Some (DM.visit fuel sm t st).
Proof.
  revert t st. induction fuel as [|fuel IH]; intros t st Hsize; [lia|].
  simpl. case_bool_decide as Hin; [by eexists|].
  set (st1 := ({[t]} ∪ st.1, st.2)).
  assert (Hsize1 : (size (list_to_set SM.all_service_types ∖ st1.1 : gset SM.ServiceType)
                    < fuel)%nat).
  { assert (Hsub : (list_to_set SM.all_service_types ∖ st1.1 : gset SM.ServiceType)
                   ⊂ list_to_set SM.all_service_types ∖ st.1).
    { pose proof (elem_of_all_service_types t) as Ht. subst st1. simpl.
      split; [set_solver|]. intros Hsub. specialize (Hsub t). set_solver. }
    apply subset_size in Hsub. lia. }
  assert (Hfold : ∀ ds sa,
            (size (list_to_set SM.all_service_types ∖ sa.1 : gset SM.ServiceType)
             < fuel)%nat →
            is_Some (foldl (λ acc dep, acc ≫= DM.visit fuel sm dep) (Some sa) ds)).
  { clear -IH. intros ds. induction ds as [|d ds IHds]; intros sa Hsa; [by eexists|].
    simpl. destruct (IH d sa Hsa) as [sc Hd]. rewrite Hd.
    apply IHds. destruct (visit_grows _ _ _ _ Hd) as (ext & (_ & Hvis & _) & _).
    assert (Hsub : (list_to_set SM.all_service_types ∖ sc.1 : gset SM.ServiceType)
                   ⊆ list_to_set SM.all_service_types ∖ sa.1)
      by (rewrite Hvis; set_solver).
    apply subseteq_size in Hsub. lia. }
  destruct (Hfold (deps t) st1 Hsize1) as [sb Hsb]. rewrite Hsb. by eexists.
Qed.

Lemma visit_all_spec tys st :
  ∃ st' ext,
    DM.visit_all (S (length SM.all_service_types)) sm tys st = Some st'
    ∧ grows_by st st' ext
    ∧ ∀ ty, ty ∈ tys → SM.get_services_by_type ty sm ≠ [] → ty ∈ st'.1.
Proof.
  unfold DM.visit_all. revert st. induction tys as [|ty tys IH]; intros st.
  { exists st, []. split; [done|]. split; [apply grows_by_refl|]. by intros ty ?%elem_of_nil. }
  cbn [foldl].
  destruct (SM.get_services_by_type ty sm) as [|a l] eqn:Hty.
  - destruct (IH st) as (st' & ext & Hrun & Hg & Hcov).
    exists st', ext. split; [done|]. split; [done|].
    intros ty' [-> | Hin]%elem_of_cons Hne; [by rewrite Hty in Hne|by apply Hcov].
  - cbn [mbind option_bind].
    destruct (visit_total (S (length SM.all_service_types)) ty st) as [s1 Hv].
    { assert (Hsub : (list_to_set SM.all_service_types ∖ st.1 : gset SM.ServiceType)
                     ⊆ list_to_set SM.all_service_types) by set_solver.
      apply subseteq_size in Hsub.
      assert (Hall : size (list_to_set SM.all_service_types : gset SM.ServiceType)
                     = length SM.all_service_types).
      { apply size_list_to_set, (bool_decide_unpack _). vm_compute. exact I. }
      lia. }
    rewrite Hv.
    destruct (visit_grows _ _ _ _ Hv) as (e1 & He1 & Hty1).
    destruct (IH s1) as (st' & e2 & Hrun & He2 & Hcov).
    exists st', (e1 ++ e2). split; [done|].
    split; [by eapply grows_by_trans|].
    intros ty' [-> | Hin]%elem_of_cons Hne; [|by apply Hcov].
    destruct He2 as (_ & -> & _). set_solver.
Qed.

(** X28: the start-up order is always computed.  The bound on the depth
    of [visit] is never reached, also when the dependencies form a cycle;
    the order names no category twice and names every category that has
    an instance. *)
Theorem startup_order_total :
  ∃ order,
    DM._get_service_startup_order sm = Some order
    ∧ NoDup order
    ∧ ∀ ty, SM.get_services_by_type ty sm ≠ [] → ty ∈ order.
Proof.
  unfold DM._get_service_startup_order.
  destruct (visit_all_spec SM.all_service_types (∅, [])) as (st' & ext & -> & Hg & Hcov).
  destruct Hg as (Ho & Hvis & Hnd & _). simpl in Ho, Hvis.
  exists st'.2. split; [done|]. rewrite Ho. split; [done|].
  intros ty Hne. specialize (Hcov ty (elem_of_all_service_types ty) Hne).
  rewrite Hvis in Hcov. set_solver.
Qed.

Variable rank : SM.ServiceType → nat.
Hypothesis rank_decreases : ∀ t d, d ∈ deps t → (rank d < rank t)%nat.

Lemma before_app_r {A} (d t : A) (l l' : list A) : before d t l → before d t (l ++ l').
Proof.
  intros (l1 & l2 & -> & Hd). exists l1, (l2 ++ l'). split; [|done].
  by rewrite <- app_assoc.
Qed.

(** With dependencies that descend along [rank], a visit keeps the order
    closed: whatever is in it has its dependencies before it. *)
Lemma visit_deps_first fuel t st st' :
  DM.visit fuel sm t st = Some st' →
  (∀ s, s ∈ st.1 → s ∉ st.2 → (rank t < rank s)%nat) →
  (∀ x, x ∈ st.2 → x ∈ st.1) →
  (∀ x d, x ∈ st.2 → d ∈ deps x → before d x st.2) →
  (∀ x d, x ∈ st'.2 → d ∈ deps x → before d x st'.2)
  ∧ t ∈ st'.2
  ∧ (∀ x, x ∈ st'.2 → x ∈ st'.1)
  ∧ (∀ s, s ∈ st'.1 → s ∉ st'.2 → s ∈ st.1 ∧ s ∉ st.2).
Proof.
  revert t st st'. induction fuel as [|fuel IH]; intros t st st' Hv Hopen Hsub Hclosed;
    [done|].
  simpl in Hv. case_bool_decide as Hin.
  { injection Hv as <-. split; [done|]. split; [|done].
    destruct (decide (t ∈ st.2)) as [?|Hnot]; [done|].
    specialize (Hopen t Hin Hnot). lia. }
  assert (Hfold : ∀ ds sa sb,
            (∀ d, d ∈ ds → (rank d < rank t)%nat) →
            foldl (λ acc dep, acc ≫= DM.visit fuel sm dep) (Some sa) ds = Some sb →
            (∀ s, s ∈ sa.1 → s ∉ sa.2 → (rank t ≤ rank s)%nat) →
            (∀ x, x ∈ sa.2 → x ∈ sa.1) →
            (∀ x d, x ∈ sa.2 → d ∈ deps x → before d x sa.2) →
            (∀ x d, x ∈ sb.2 → d ∈ deps x → before d x sb.2)
            ∧ (∀ d, d ∈ ds → d ∈ sb.2)
            ∧ (∀ x, x ∈ sb.2 → x ∈ sb.1)
            ∧ (∀ s, s ∈ sb.1 → s ∉ sb.2 → s ∈ sa.1 ∧ s ∉ sa.2)
            ∧ (∀ x, x ∈ sa.2 → x ∈ sb.2)
            ∧ (∀ x, x ∈ sa.1 → x ∈ sb.1)).
  { clear -IH. intros ds. induction ds as [|d ds IHds];
      intros sa sb Hrank Hf Hopen Hsub Hclosed.
    - injection Hf as <-. split; [done|]. split; [by intros d ?%elem_of_nil|]. done.
    - simpl in Hf. destruct (DM.visit fuel sm d sa) as [sc|] eqn:Hd;
        [|by rewrite foldl_bind_None in Hf].
      destruct (visit_grows _ _ _ _ Hd) as (e1 & (Ho1 & Hv1 & _) & _).
      destruct (IH d sa sc Hd) as (Hc1 & Hd1 & Hs1 & Hop1); [|done|done|].
      { intros s Hs Hns. specialize (Hopen s Hs Hns).
        specialize (Hrank d (list_elem_of_here _ _)). lia. }
      destruct (IHds sc sb) as (Hc2 & Hd2 & Hs2 & Hop2 & Hkeep & Hgrow); [|done| |done|done|].
      { intros d' Hd'. apply Hrank. by right. }
      { intros s Hs Hns. destruct (Hop1 s Hs Hns). by apply Hopen. }
      split; [done|]. split.
      { intros d' [-> | Hd']%elem_of_cons; [by apply Hkeep|by apply Hd2]. }
      split; [done|]. split.
      { intros s Hs Hns. destruct (Hop2 s Hs Hns). by apply Hop1. }
      split.
      { intros x Hx. apply Hkeep. rewrite Ho1. apply elem_of_app. by left. }
      intros x Hx. apply Hgrow. rewrite Hv1. set_solver. }
  destruct (foldl _ _ _) as [sb|] eqn:Hf; [|done]. injection Hv as <-.
  destruct (Hfold (deps t) ({[t]} ∪ st.1, st.2) sb) as (Hc & Hd & Hs & Hop & Hkeep & Hgrow);
    [by apply rank_decreases|done| | |done|]; simpl in *.
  { intros s [->%elem_of_singleton|Hs]%elem_of_union Hns; [lia|].
    specialize (Hopen s Hs Hns). lia. }
  { intros x Hx. apply elem_of_union. right. by apply Hsub. }
  split.
  { intros x d [Hx | ->%list_elem_of_singleton]%elem_of_app Hdx.
    - apply before_app_r. by apply Hc.
    - exists sb.2, []. split; [done|]. by apply Hd. }
  split; [apply elem_of_app; right; left|].
  split.
  { intros x [Hx | ->%list_elem_of_singleton]%elem_of_app; [by apply Hs|].
    apply Hgrow. set_solver. }
  intros s Hsin Hns.
  assert (Hns' : s ∉ sb.2) by (intros ?; apply Hns, elem_of_app; by left).
  assert (Hne : s ≠ t) by (intros ->; apply Hns, elem_of_app; right; left).
  destruct (Hop s Hsin Hns') as [Hs1 Hs2]. split; [set_solver|done].
Qed.

(** X29: with acyclic dependencies the start-up order is a topological
    order.  When the dependencies descend along some rank, every category
    in the order has each of its dependencies before it; the dependencies
    of a category are those of the configuration of its first instance. *)
Theorem startup_order_dependencies_first order t d :
  DM._get_service_startup_order sm = Some order →
  t ∈ order →
  d ∈ deps t →
  before d t order.
Proof.
  unfold DM._get_service_startup_order, DM.visit_all.
  assert (Hloop : ∀ tys st st',
            foldl (λ acc service_type,
                     match SM.get_services_by_type service_type sm with
                     | [] => acc
                     | _ :: _ =>
                         acc ≫= DM.visit (S (length SM.all_service_types)) sm service_type
                     end) (Some st) tys = Some st' →
            (∀ s, s ∈ st.1 → s ∈ st.2) →
            (∀ x, x ∈ st.2 → x ∈ st.1) →
            (∀ x d, x ∈ st.2 → d ∈ deps x → before d x st.2) →
            ∀ x d, x ∈ st'.2 → d ∈ deps x → before d x st'.2).
  { intros tys. induction tys as [|ty tys IH]; intros st st' Hf Hfull Hsub Hclosed.
    - by injection Hf as <-.
    - cbn [foldl] in Hf.
      destruct (SM.get_services_by_type ty sm) as [|a l]; [by eapply IH|].
      cbn [mbind option_bind] in Hf.
      destruct (DM.visit _ sm ty st) as [s1|] eqn:Hv.
      2:{ clear -Hf. exfalso. induction tys as [|ty' tys IH]; [done|].
          cbn [foldl] in Hf. destruct (SM.get_services_by_type ty' sm); by apply IH. }
      destruct (visit_deps_first _ _ _ _ Hv) as (Hc1 & _ & Hs1 & Hop1); [|done|done|].
      { intros s Hs Hns. by apply Hfull in Hs. }
      apply (IH s1 st' Hf); [|done|done].
      intros s Hs. destruct (decide (s ∈ s1.2)) as [?|Hns]; [done|].
      destruct (Hop1 s Hs Hns) as [Hs0 Hns0]. by apply Hfull in Hs0. }
  intros Hrun Ht Hd.
  destruct (foldl _ _ _) as [st'|] eqn:Hf; [|done]. injection Hrun as <-.
  apply (Hloop _ _ _ Hf); [| | |exact Ht|exact Hd]; clear.
  - intros s Hs. by apply elem_of_empty in Hs.
  - intros x Hx. by apply elem_of_nil in Hx.
  - intros x d' Hx. by apply elem_of_nil in Hx.
Qed.

End StartupOrder.

Lemma startup_order_dependencies_first_witness :
  ∃ order,
    DM._get_service_startup_order EX.sm_with_sage = Some order
    ∧ before SM.RELEVANCE SM.SILICON_SAGE order.
Proof.
  destruct (DM._get_service_startup_order EX.sm_with_sage) as [order|] eqn:Horder.
  - exists order. split; [reflexivity|].
    assert (Hdeps : ∀ t, DM.dependencies_of EX.sm_with_sage t
                         = match t with
                           | SM.SILICON_SAGE => [SM.RELEVANCE]
                           | _ => []
                           end)
      by (intros []; vm_compute; reflexivity).
    apply (startup_order_dependencies_first EX.sm_with_sage
             (λ t, match t with SM.SILICON_SAGE => 1%nat | _ => 0%nat end)).
    + intros t d Hd. rewrite Hdeps in Hd.
      destruct t; try (by apply elem_of_nil in Hd).
      apply list_elem_of_singleton in Hd as ->. lia.
    + exact Horder.
    + vm_compute in Horder. injection Horder as <-. set_solver.
    + rewrite Hdeps. left.
  - vm_compute in Horder. discriminate Horder.
Defined.

Lemma services_stop_service id sm id' :
  SM.services (SM.stop_service id sm).2 !! id'
  = match SM.services sm !! id with
    | Some i =>
        if active i && bool_decide (id = id') then Some (stopped i)
        else SM.services sm !! id'
    | None => SM.services sm !! id'
    end.
Proof.
  unfold SM.stop_service, active.
  destruct (SM.services sm !! id) as [i|] eqn:Hi; [|done].
  destruct (_ || _); simpl; [|done].
  case_bool_decide as Hid.
  - subst id'. by rewrite lookup_insert_eq.
  - by rewrite !lookup_insert_ne.
Qed.

Lemma services_stop_all_services keys sm id :
  SM.services (DM._stop_all_services keys sm) !! id
  = (λ i, if bool_decide (id ∈ keys) && active i then stopped i else i)
      <$> SM.services sm !! id.
Proof.
  unfold DM._stop_all_services. revert sm.
  induction keys as [|k keys IH]; intros sm.
  - simpl. by destruct (SM.services sm !! id).
  - cbn [foldl]. rewrite IH, services_stop_service.
    destruct (decide (k = id)) as [-> | Hne].
    + rewrite (bool_decide_true (id ∈ id :: keys)) by left.
      destruct (SM.services sm !! id) as [i|]; [|done].
      rewrite (bool_decide_true (id = id)) by done. rewrite andb_true_r.
      assert (Hstopped : active (stopped i) = false) by reflexivity.
      destruct (active i) eqn:Hact; simpl.
      * by rewrite Hact, Hstopped, andb_false_r.
      * by rewrite Hact, andb_false_r.
    + assert (Hiff : bool_decide (id ∈ k :: keys) = bool_decide (id ∈ keys)).
      { apply bool_decide_ext. rewrite elem_of_cons. naive_solver. }
      rewrite Hiff.
      destruct (SM.services sm !! k) as [i|]; [|done].
      by rewrite (bool_decide_false (k = id)), andb_false_r.
Qed.

(** X30: shutting down stops everything that runs.  When the keys cover
    the registered instances, [_stop_all_services] leaves no instance
    RUNNING or STARTING: each such instance ends STOPPED without a process
    identifier and with its configuration, every other instance is as it
    was, and no instance appears or disappears. *)
Theorem stop_all_services_stops keys sm id :
  (∀ id, is_Some (SM.services sm !! id) → id ∈ keys) →
  match SM.services sm !! id with
  | Some i =>
      ∃ i', SM.services (DM._stop_all_services keys sm) !! id = Some i'
        ∧ SM.config i' = SM.config i
        ∧ SM.status i' ≠ SM.RUNNING ∧ SM.status i' ≠ SM.STARTING
        ∧ (SM.status i = SM.RUNNING ∨ SM.status i = SM.STARTING →
           SM.status i' = SM.STOPPED ∧ SM.process_id i' = None)
        ∧ (SM.status i ≠ SM.RUNNING → SM.status i ≠ SM.STARTING → i' = i)
  | None => SM.services (DM._stop_all_services keys sm) !! id = None
  end.
Proof.
  intros Hkeys. rewrite services_stop_all_services.
  destruct (SM.services sm !! id) as [i|] eqn:Hi; [|done]. simpl.
  rewrite bool_decide_true by (apply Hkeys; by eexists). simpl.
  eexists. split; [reflexivity|]. unfold active.
  destruct (decide (SM.status i = SM.RUNNING)) as [Hr|Hr];
    [rewrite (bool_decide_true _ Hr)|rewrite (bool_decide_false _ Hr)]; simpl.
  { repeat split; try done; intros; congruence. }
  destruct (decide (SM.status i = SM.STARTING)) as [Hs|Hs];
    [rewrite (bool_decide_true _ Hs)|rewrite (bool_decide_false _ Hs)]; simpl.
  { repeat split; try done; intros; congruence. }
  repeat split; try done; try (intros [?|?]; congruence);
    match goal with H : _ ∨ _ |- _ => destruct H; congruence end.
Qed.

Lemma stop_all_services_stops_witness :
  ∃ i', SM.services
          (DM._stop_all_services (map_to_list (SM.services EX.sm_three)).*1 EX.sm_three)
          !! "instance_2" = Some i'
    ∧ SM.status i' = SM.STOPPED ∧ SM.process_id i' = None.
Proof.
  assert (Hkeys : ∀ id, is_Some (SM.services EX.sm_three !! id) →
                        id ∈ (map_to_list (SM.services EX.sm_three)).*1).
  { intros id [i Hi]. apply list_elem_of_fmap. exists (id, i).
    split; [reflexivity|]. apply elem_of_map_to_list. exact Hi. }
  generalize (stop_all_services_stops (map_to_list (SM.services EX.sm_three)).*1
                EX.sm_three "instance_2" Hkeys).
  clear Hkeys.
  destruct (SM.services EX.sm_three !! "instance_2") as [i|] eqn:Hi.
  - intros (i' & Hi' & _ & _ & _ & Hstop & _).
    exists i'. split; [exact Hi'|]. apply Hstop. left.
    vm_compute in Hi. injection Hi as <-. reflexivity.
  - vm_compute in Hi. discriminate Hi.
Defined.
